(** * adb-sync: the tree snapshot and diff engine

    A shallow embedding of [src/ADBSync/__init__.py] (class [FileSyncer] and
    the planning part of [main]) and of [src/ADBSync/FileSystems/Base.py] and
    [Android.py] (snapshot builder, executor, remote listing parser and
    connection test), followed by the properties established about them.

    Python values are embedded as follows.
    - A files tree is [None], a pair of integers [(atime, mtime)] or a [dict]
      from names to files trees.  A [dict] keeps its insertion order, which
      fixes the order of the recursive calls, of the log records and of the
      first exception raised, so it is an association list.
    - Integers are unbounded, hence [Z]; a raw timestamp of [os.stat_result]
      is a Python number (a float on the local backend), hence [Q], and
      [int(...)] on it is the exact truncation toward zero.
    - Exceptions, [SystemExit] included, and the records sent to [logging]
      are threaded by a small error-and-log monad.
    - [diffTrees] mutates the two dicts it receives.  Every dict of a snapshot
      is created by its own [{...}] literal in [_getFilesTree], so a snapshot
      is a tree without sharing; the embedding therefore passes the state of
      the two arguments explicitly and returns their contents after the call
      next to the five result trees.
    - [removeTree] and [pushTreeHere] change a file system through the
      methods of a backend; the state they change is passed explicitly as
      well. *)

From Stdlib Require Import ZArith QArith Qround List String Ascii Bool Lia.
Import ListNotations.

Local Open Scope string_scope.
Local Open Scope Z_scope.

(** ** Exceptions, logging and the monad that threads them *)

Inductive exn : Type :=
| KeyError (key : string)
| AttributeError
| TypeError
| ValueError
| NotImplementedError
| FileNotFoundError
| NotADirectoryError
| PermissionError
| SystemExit.

Inductive outcome (A : Type) : Type :=
| Ret (a : A)
| Raise (e : exn)
| OutOfFuel.

Arguments Ret {A} a.
Arguments Raise {A} e.
Arguments OutOfFuel {A}.

Inductive level : Type := DEBUG | INFO | WARNING | ERROR | CRITICAL.

Definition log_record : Type := level * string.

Definition M (A : Type) : Type :=
  list log_record -> outcome A * list log_record.

Definition ret {A} (a : A) : M A := fun logs => (Ret a, logs).

Definition bind {A B} (c : M A) (f : A -> M B) : M B :=
  fun logs =>
    match c logs with
    | (Ret a, logs') => f a logs'
    | (Raise e, logs') => (Raise e, logs')
    | (OutOfFuel, logs') => (OutOfFuel, logs')
    end.

Definition raise {A} (e : exn) : M A := fun logs => (Raise e, logs).

Definition out_of_fuel {A} : M A := fun logs => (OutOfFuel, logs).

Declare Scope py_scope.
Delimit Scope py_scope with py.
Notation "x <- c1 ;; c2" := (bind c1 (fun x => c2))
  (at level 100, c1 at next level, right associativity) : py_scope.
Notation "c1 ;;; c2" := (bind c1 (fun _ => c2))
  (at level 100, right associativity) : py_scope.
Local Open Scope py_scope.

(** [logging.log(level, msg)] *)
Definition logging_log (lvl : level) (msg : string) : M unit :=
  fun logs => (Ret tt, (logs ++ [(lvl, msg)])%list).

(** SAOLogging.criticalLogExit *)
Definition criticalLogExit {A} (message : string) : M A :=
  logging_log CRITICAL message ;;;
  logging_log CRITICAL "Exiting" ;;;
  raise SystemExit.

(** ** Files trees and Python dicts *)

#[local] Unset Elimination Schemes.
Inductive tree : Type :=
| PyNone
| PyTuple (atime mtime : Z)
| PyDict (items : list (string * tree)).
#[local] Set Elimination Schemes.

Definition dict : Type := list (string * tree).

(** [key in d] *)
Fixpoint dict_mem {A} (key : string) (d : list (string * A)) : bool :=
  match d with
  | [] => false
  | (k, _) :: rest => String.eqb k key || dict_mem key rest
  end.

(** [d.get(key)]: [None] of the option stands for a missing key. *)
Fixpoint dict_get {A} (key : string) (d : list (string * A)) : option A :=
  match d with
  | [] => None
  | (k, v) :: rest => if String.eqb k key then Some v else dict_get key rest
  end.

(** [d[key] = value]: an existing key keeps its position, a new one goes
    last. *)
Fixpoint dict_setitem {A} (key : string) (value : A) (d : list (string * A))
  : list (string * A) :=
  match d with
  | [] => [(key, value)]
  | (k, v) :: rest =>
      if String.eqb k key then (k, value) :: rest
      else (k, v) :: dict_setitem key value rest
  end.

(** [d.pop(key)]: the value and the remaining dict, when the key is there. *)
Fixpoint dict_pop {A} (key : string) (d : list (string * A))
  : option (A * list (string * A)) :=
  match d with
  | [] => None
  | (k, v) :: rest =>
      if String.eqb k key then Some (v, rest)
      else match dict_pop key rest with
           | Some (x, rest') => Some (x, (k, v) :: rest')
           | None => None
           end
  end.

Definition dict_keys {A} (d : list (string * A)) : list string := map fst d.

(** [d[key]], raising [KeyError] *)
Definition getitem (key : string) (d : dict) : M tree :=
  match dict_get key d with
  | Some v => ret v
  | None => raise (KeyError key)
  end.

(** [d.pop(key)], raising [KeyError]; the result carries the dict afterwards. *)
Definition pop (key : string) (d : dict) : M (tree * dict) :=
  match dict_pop key d with
  | Some r => ret r
  | None => raise (KeyError key)
  end.

(** [d.pop(key, None)] *)
Definition pop_default (key : string) (d : dict) : tree * dict :=
  match dict_pop key d with
  | Some r => r
  | None => (PyNone, d)
  end.

(** The keys of a Python dict are pairwise distinct. *)
Fixpoint distinct_keys {A} (d : list (string * A)) : bool :=
  match d with
  | [] => true
  | (k, _) :: rest => negb (dict_mem k rest) && distinct_keys rest
  end.

Fixpoint tree_height (t : tree) : nat :=
  match t with
  | PyDict items =>
      S (fold_right (fun kv h => Nat.max (tree_height (snd kv)) h) 0%nat items)
  | _ => 0%nat
  end.

(** Every dict of the tree is a Python dict with a ["."] entry. *)
Fixpoint has_self_entries (t : tree) : bool :=
  match t with
  | PyDict items =>
      dict_mem "." items && distinct_keys items
      && forallb (fun kv => has_self_entries (snd kv)) items
  | _ => true
  end.

(** ** FileSyncer.diffTrees *)

Record diff : Type := mkDiff {
  delete : tree;
  copy : tree;
  excluded_source : tree;
  unaccounted_destination : tree;
  excluded_destination : tree
}.

(** The value of a call: the returned five-tuple, then what [source] and
    [destination] hold once the call has returned. *)
Definition diffed : Type := diff * tree * tree.

Section DiffTrees.
(** [fnmatch.fnmatch(name, pattern)] of the Python standard library *)
Variable fnmatch : string -> string -> bool.
Variable destinationExcludePatterns : list string.
Variable pathJoinFunction_source : string -> string -> string.
Variable pathJoinFunction_destination : string -> string -> string.
Variable folderFileOverwriteError : bool.

(** Lines 38-42: the loop with [break] over the patterns. *)
Definition excluded (path_destination : string) : bool :=
  existsb (fnmatch path_destination) destinationExcludePatterns.

Section Body.
(** The recursive call [cls.diffTrees(source, destination, path_source,
    path_destination, ...)]; the other arguments are passed on unchanged. *)
Variable rec : tree -> tree -> string -> string -> M diffed.

(** Lines 78-88 and 230-240: [for key, value in destination.items()] with
    an absent source.  [seen] collects the items already visited, whose
    values the calls have mutated. *)
Fixpoint loop_destination (path_source path_destination : string)
    (items : dict) (delete_ unaccounted_ excluded_ seen : dict)
  : M (dict * dict * dict * dict) :=
  match items with
  | [] => ret (delete_, unaccounted_, excluded_, seen)
  | (key, value) :: rest =>
      r <- rec PyNone value
             (pathJoinFunction_source path_source key)
             (pathJoinFunction_destination path_destination key) ;;
      let '(d, _, value') := r in
      loop_destination path_source path_destination rest
        (dict_setitem key (delete d) delete_)
        (dict_setitem key (unaccounted_destination d) unaccounted_)
        (dict_setitem key (excluded_destination d) excluded_)
        (seen ++ [(key, value')])%list
  end.

(** Lines 162-172 and 187-197: [for key, value in source.items()] with an
    absent destination. *)
Fixpoint loop_source (path_source path_destination : string)
    (items : dict) (copy_ excluded_ seen : dict)
  : M (dict * dict * dict) :=
  match items with
  | [] => ret (copy_, excluded_, seen)
  | (key, value) :: rest =>
      r <- rec value PyNone
             (pathJoinFunction_source path_source key)
             (pathJoinFunction_destination path_destination key) ;;
      let '(d, value', _) := r in
      loop_source path_source path_destination rest
        (dict_setitem key (copy d) copy_)
        (dict_setitem key (excluded_source d) excluded_)
        (seen ++ [(key, value')])%list
  end.

(** Lines 218-228: [for key, value in source.items()] against
    [destination.pop(key, None)]; [destination] shrinks on the way. *)
Fixpoint loop_both (path_source path_destination : string)
    (items : dict) (destination : dict)
    (delete_ copy_ excluded_s unaccounted_ excluded_d seen : dict)
  : M (dict * dict * dict * dict * dict * dict * dict) :=
  match items with
  | [] =>
      ret (delete_, copy_, excluded_s, unaccounted_, excluded_d, seen,
           destination)
  | (key, value) :: rest =>
      let '(value_d, destination') := pop_default key destination in
      r <- rec value value_d
             (pathJoinFunction_source path_source key)
             (pathJoinFunction_destination path_destination key) ;;
      let '(d, value', _) := r in
      loop_both path_source path_destination rest destination'
        (dict_setitem key (delete d) delete_)
        (dict_setitem key (copy d) copy_)
        (dict_setitem key (excluded_source d) excluded_s)
        (dict_setitem key (unaccounted_destination d) unaccounted_)
        (dict_setitem key (excluded_destination d) excluded_d)
        (seen ++ [(key, value')])%list
  end.

(** [{".": value}] *)
Definition self_entry (value : tree) : dict := [(".", value)].

(** Lines 139-143 and 198-202: abort, or warn and go on. *)
Definition conflict (refusing overwriting : string) : M unit :=
  if folderFileOverwriteError then
    logging_log CRITICAL refusing ;;;
    criticalLogExit "Use --force if you are sure!"
  else
    logging_log WARNING overwriting.

(** ["... '{}' ... '{}'".format(a, b)] *)
Definition format2 (s0 a s1 b s2 : string) : string :=
  s0 ++ a ++ s1 ++ b ++ s2.

(** The body of [diffTrees], lines 38-247.  The final [else] branches
    raising [NotImplementedError] need a value that is neither [None], a
    tuple nor a dict; the type [tree] has none. *)
Definition diffTrees_body (source destination : tree)
    (path_source path_destination : string) : M diffed :=
  let exclude := excluded path_destination in
  match source with
  | PyNone =>
      match destination with
      | PyNone =>
          ret (mkDiff PyNone PyNone PyNone PyNone PyNone,
               source, destination)
      | PyTuple _ _ =>
          if exclude then
            ret (mkDiff PyNone PyNone PyNone PyNone destination,
                 source, destination)
          else
            ret (mkDiff PyNone PyNone PyNone destination PyNone,
                 source, destination)
      | PyDict d_items =>
          if exclude then
            ret (mkDiff (PyDict (self_entry PyNone)) PyNone PyNone
                   (PyDict (self_entry PyNone)) destination,
                 source, destination)
          else
            self <- getitem "." d_items ;;
            p <- pop "." d_items ;;
            l <- loop_destination path_source path_destination (snd p)
                   (self_entry PyNone) (self_entry self)
                   (self_entry PyNone) [] ;;
            let '(delete_, unaccounted_, excluded_, seen) := l in
            ret (mkDiff (PyDict delete_) PyNone PyNone
                   (PyDict unaccounted_) (PyDict excluded_),
                 source, PyDict seen)
      end
  | PyTuple _ s_mtime =>
      match destination with
      | PyNone =>
          if exclude then
            ret (mkDiff PyNone PyNone source PyNone PyNone,
                 source, destination)
          else
            ret (mkDiff PyNone source PyNone PyNone PyNone,
                 source, destination)
      | PyTuple _ d_mtime =>
          if exclude then
            ret (mkDiff PyNone PyNone source PyNone destination,
                 source, destination)
          else if d_mtime <? s_mtime then
            ret (mkDiff destination source PyNone PyNone PyNone,
                 source, destination)
          else
            ret (mkDiff PyNone PyNone PyNone PyNone PyNone,
                 source, destination)
      | PyDict _ =>
          if exclude then
            ret (mkDiff (PyDict (self_entry PyNone)) PyNone source
                   (PyDict (self_entry PyNone)) destination,
                 source, destination)
          else
            conflict
              (format2 "Refusing to overwrite directory '"
                 path_destination "' with file '" path_source "'")
              (format2 "Overwriting directory '"
                 path_destination "' with file '" path_source "'") ;;;
            ret (mkDiff destination source PyNone
                   (PyDict (self_entry PyNone))
                   (PyDict (self_entry PyNone)),
                 source, destination)
      end
  | PyDict s_items =>
      match destination with
      | PyNone =>
          if exclude then
            ret (mkDiff PyNone (PyDict (self_entry PyNone)) source
                   PyNone PyNone,
                 source, destination)
          else
            self <- getitem "." s_items ;;
            p <- pop "." s_items ;;
            l <- loop_source path_source path_destination (snd p)
                   (self_entry self) (self_entry PyNone) [] ;;
            let '(copy_, excluded_, seen) := l in
            ret (mkDiff PyNone (PyDict copy_) (PyDict excluded_)
                   PyNone PyNone,
                 PyDict seen, destination)
      | PyTuple _ _ =>
          r <- (if exclude then
                  ret (mkDiff PyNone (PyDict (self_entry PyNone)) source
                         PyNone destination,
                       source)
                else
                  self <- getitem "." s_items ;;
                  p <- pop "." s_items ;;
                  l <- loop_source path_source path_destination (snd p)
                         (self_entry self) (self_entry PyNone) [] ;;
                  let '(copy_, excluded_, seen) := l in
                  conflict
                    (format2 "Refusing to overwrite file '"
                       path_destination "' with directory '"
                       path_source "'")
                    (format2 "Overwriting file '"
                       path_destination "' with directory '"
                       path_source "'") ;;;
                  ret (mkDiff destination (PyDict copy_)
                         (PyDict excluded_) PyNone PyNone,
                       PyDict seen)) ;;
          (* line 203, after the [if exclude: ... else: ...] *)
          let '(d, source') := r in
          ret (mkDiff (delete d) (copy d) (excluded_source d)
                 (unaccounted_destination d) PyNone,
               source', destination)
      | PyDict d_items =>
          if exclude then
            ret (mkDiff (PyDict (self_entry PyNone))
                   (PyDict (self_entry PyNone)) source
                   (PyDict (self_entry PyNone)) destination,
                 source, destination)
          else
            p <- pop "." s_items ;;
            l <- loop_both path_source path_destination (snd p) d_items
                   (self_entry PyNone) (self_entry PyNone)
                   (self_entry PyNone) (self_entry PyNone)
                   (self_entry PyNone) [] ;;
            let '(delete_, copy_, excluded_s, unaccounted_, excluded_d,
                  seen_s, d_items') := l in
            q <- pop "." d_items' ;;
            l' <- loop_destination path_source path_destination (snd q)
                    delete_ unaccounted_ excluded_d [] ;;
            let '(delete_', unaccounted_', excluded_d', seen_d) := l' in
            ret (mkDiff (PyDict delete_') (PyDict copy_)
                   (PyDict excluded_s) (PyDict unaccounted_')
                   (PyDict excluded_d'),
                 PyDict seen_s, PyDict seen_d)
      end
  end.
End Body.

(** [diffTrees], its recursion depth bounded by [fuel]. *)
Fixpoint diffTrees_fuel (fuel : nat) (source destination : tree)
    (path_source path_destination : string) : M diffed :=
  match fuel with
  | O => out_of_fuel
  | S fuel' =>
      diffTrees_body (diffTrees_fuel fuel') source destination
        path_source path_destination
  end.

(** A call descends one level of both trees at a time, so one more than
    the height of the higher tree is fuel enough. *)
Definition diffTrees (source destination : tree)
    (path_source path_destination : string) : M diffed :=
  diffTrees_fuel
    (S (Nat.max (tree_height source) (tree_height destination)))
    source destination path_source path_destination.
End DiffTrees.

(** ** FileSyncer.pruneTree and removeExludedFoldersFromUnaccountedTree *)

(** [returnDict or None] *)
Definition dict_or_None (returnDict : dict) : tree :=
  match returnDict with
  | [] => PyNone
  | _ => PyDict returnDict
  end.

(** Lines 269-280.  "Remove all Nones from a tree. May return None if tree is
    None however." *)
Fixpoint pruneTree (t : tree) : tree :=
  match t with
  | PyDict items =>
      dict_or_None
        (fold_left
           (fun returnDict kv =>
              match pruneTree (snd kv) with
              | PyNone => returnDict
              | value_pruned => dict_setitem (fst kv) value_pruned returnDict
              end)
           items [])
  | _ => t
  end.

(** The outcome of a pure computation that may raise. *)
Definition bind_outcome {A B} (o : outcome A) (f : A -> outcome B)
  : outcome B :=
  match o with
  | Ret a => f a
  | Raise e => Raise e
  | OutOfFuel => OutOfFuel
  end.

(** [excluded.get(key, None)]: only a dict has [get]. *)
Definition get_default (key : string) (t : tree) : outcome tree :=
  match t with
  | PyDict items =>
      Ret (match dict_get key items with Some v => v | None => PyNone end)
  | _ => Raise AttributeError
  end.

(** Lines 249-267.  [unaccounted.items()] needs a dict as well. *)
Fixpoint removeExludedFoldersFromUnaccountedTree (unaccounted excluded_ : tree)
  : outcome tree :=
  match excluded_ with
  | PyNone => Ret unaccounted
  | _ =>
      match unaccounted with
      | PyDict items =>
          bind_outcome
            (fold_left
               (fun acc kv =>
                  bind_outcome acc (fun unaccounted_non_excluded =>
                    if String.eqb (fst kv) "." then Ret unaccounted_non_excluded
                    else
                      bind_outcome (get_default (fst kv) excluded_) (fun e =>
                      bind_outcome
                        (removeExludedFoldersFromUnaccountedTree (snd kv) e)
                        (fun v =>
                           Ret (dict_setitem (fst kv) v
                                  unaccounted_non_excluded)))))
               items (Ret []))
            (fun unaccounted_non_excluded =>
               Ret (PyDict unaccounted_non_excluded))
      | _ => Raise AttributeError
      end
  end.

(** ** The planning part of [main], lines 365-415 *)

Record Args : Type := mkArgs {
  dryRun : bool;
  force : bool;
  delete_flag : bool;          (* args.delete *)
  deleteExcluded : bool
}.

Record plan : Type := mkPlan {
  tree_delete : tree;
  tree_copy : tree;
  tree_excluded_source : tree;
  tree_unaccounted_destination : tree;
  tree_excluded_destination : tree;
  tree_unaccounted_destination_non_excluded : tree
}.

Section Main.
Variable fnmatch : string -> string -> bool.
Variable joinPaths_source : string -> string -> string.
Variable joinPaths_destination : string -> string -> string.

(** Lines 365-374: the one call of [diffTrees]. *)
Definition main_diffTrees (args : Args)
    (filesTree_source filesTree_destination : tree)
    (path_source path_destination : string) (excludePatterns : list string)
  : M diffed :=
  diffTrees fnmatch excludePatterns joinPaths_source joinPaths_destination
    (negb (dryRun args) && negb (force args))
    filesTree_source filesTree_destination path_source path_destination.

(** Lines 376-380 and 408-415: the five trees pruned, then the unaccounted
    tree without the folders that hold excluded items. *)
Definition main_plan (args : Args)
    (filesTree_source filesTree_destination : tree)
    (path_source path_destination : string) (excludePatterns : list string)
  : M plan :=
  r <- main_diffTrees args filesTree_source filesTree_destination
         path_source path_destination excludePatterns ;;
  let d := fst (fst r) in
  let tree_delete := pruneTree (delete d) in
  let tree_copy := pruneTree (copy d) in
  let tree_excluded_source := pruneTree (excluded_source d) in
  let tree_unaccounted_destination := pruneTree (unaccounted_destination d) in
  let tree_excluded_destination := pruneTree (excluded_destination d) in
  match tree_unaccounted_destination with
  | PyNone =>
      ret (mkPlan tree_delete tree_copy tree_excluded_source
             tree_unaccounted_destination tree_excluded_destination PyNone)
  | _ =>
      match removeExludedFoldersFromUnaccountedTree
              tree_unaccounted_destination tree_excluded_destination with
      | Ret t =>
          ret (mkPlan tree_delete tree_copy tree_excluded_source
                 tree_unaccounted_destination tree_excluded_destination
                 (pruneTree t))
      | Raise e => raise e
      | OutOfFuel => out_of_fuel
      end
  end.
End Main.

(** ** Raw metadata: [os.stat_result] and the constants of Python's [stat] *)

Record stat_result : Type := mk_stat_result {
  st_mode : Z;
  st_ino : Z;
  st_dev : Z;
  st_nlink : Z;
  st_uid : Z;
  st_gid : Z;
  st_size : option Z;
  st_atime : Q;
  st_mtime : Q;
  st_ctime : Q
}.

Definition S_IFDIR : Z := 16384.   (* 0o040000 *)
Definition S_IFCHR : Z := 8192.    (* 0o020000 *)
Definition S_IFBLK : Z := 24576.   (* 0o060000 *)
Definition S_IFREG : Z := 32768.   (* 0o100000 *)
Definition S_IFIFO : Z := 4096.    (* 0o010000 *)
Definition S_IFLNK : Z := 40960.   (* 0o120000 *)
Definition S_IFSOCK : Z := 49152.  (* 0o140000 *)
Definition S_IRWXU : Z := 448.     (* 0o700 *)
Definition S_IRGRP : Z := 32.      (* 0o040 *)
Definition S_IXGRP : Z := 8.       (* 0o010 *)
Definition S_IROTH : Z := 4.       (* 0o004 *)
Definition S_IXOTH : Z := 1.       (* 0o001 *)

Definition S_IFMT (mode : Z) : Z := Z.land mode 61440.  (* mode & 0o170000 *)
Definition S_ISDIR (mode : Z) : bool := S_IFMT mode =? S_IFDIR.
Definition S_ISREG (mode : Z) : bool := S_IFMT mode =? S_IFREG.
Definition S_ISLNK (mode : Z) : bool := S_IFMT mode =? S_IFLNK.

(** [int(x)] on a number: truncation toward zero. *)
Definition py_int (x : Q) : Z := Z.quot (Qnum x) (Zpos (Qden x)).

(** [60 * (int(t) // 60)], Base.py lines 40 and 50; [//] is floor division. *)
Definition bucket (t : Q) : Z := 60 * (py_int t / 60).

(** [(60 * (int(st.st_atime) // 60), 60 * (int(st.st_mtime) // 60))] *)
Definition bucketed_times (st : stat_result) : tree :=
  PyTuple (bucket (st_atime st)) (bucket (st_mtime st)).

(** ** FileSystems/Base.py: the backend interface and the snapshot builder *)

(** The methods that [FileSystem] leaves to [Local.py] and [Android.py].
    [lstat_inDir] is a generator: a sequence of steps, each one yielding an
    entry or raising.  A name is absent when the backend could not tell it. *)
Class FileSystem : Type := {
  realPath : string -> M string;
  lstat : string -> M stat_result;
  lstat_inDir : string -> list (M (option string * stat_result));
  joinPaths : string -> string -> string;
  normPath : string -> string
}.

(** [try: c  except FileNotFoundError: h1  except NotADirectoryError: h2] *)
Definition try_except {A} (c : M A) (on_not_found on_not_a_directory : M A)
  : M A :=
  fun logs =>
    match c logs with
    | (Raise FileNotFoundError, logs') => on_not_found logs'
    | (Raise NotADirectoryError, logs') => on_not_a_directory logs'
    | r => r
    end.

Section Snapshot.
Context {fs : FileSystem}.

Section Body.
Variable rec : string -> stat_result -> M tree.

(** Base.py lines 41-47: the loop over the directory listing.
    [os.path.join(base, None)] raises [TypeError]. *)
Fixpoint listing_loop (tree_root : string)
    (steps : list (M (option string * stat_result))) (tree_ : dict)
  : M dict :=
  match steps with
  | [] => ret tree_
  | step :: rest =>
      entry <- step ;;
      match fst entry with
      | Some filename =>
          if String.eqb filename "." || String.eqb filename ".." then
            listing_loop tree_root rest tree_
          else
            child <- rec (joinPaths tree_root filename) (snd entry) ;;
            listing_loop tree_root rest (dict_setitem filename child tree_)
      | None => raise TypeError
      end
  end.

(** Base.py lines 21-52. *)
Definition getFilesTree_body (tree_root : string)
    (tree_root_stat : stat_result) (followLinks : bool) : M tree :=
  if S_ISLNK (st_mode tree_root_stat) then
    if negb followLinks then
      logging_log WARNING ("Ignoring symlink '" ++ tree_root ++ "'") ;;;
      ret PyNone
    else
      logging_log DEBUG ("Following symlink '" ++ tree_root ++ "'") ;;;
      target <- try_except
                  (tree_root_realPath <- realPath tree_root ;;
                   tree_root_stat_realPath <- lstat tree_root_realPath ;;
                   ret (Some (tree_root_realPath, tree_root_stat_realPath)))
                  (logging_log ERROR
                     ("Skipping dead symlink '" ++ tree_root ++ "'") ;;;
                   ret None)
                  (logging_log ERROR
                     ("Skipping not-a-directory symlink '" ++ tree_root
                        ++ "'") ;;;
                   ret None) ;;
      match target with
      | Some (tree_root_realPath, tree_root_stat_realPath) =>
          rec tree_root_realPath tree_root_stat_realPath
      | None => ret PyNone
      end
  else if S_ISDIR (st_mode tree_root_stat) then
    tree_ <- listing_loop tree_root (lstat_inDir tree_root)
               [(".", bucketed_times tree_root_stat)] ;;
    ret (PyDict tree_)
  else if S_ISREG (st_mode tree_root_stat) then
    ret (bucketed_times tree_root_stat)
  else
    raise NotImplementedError.
End Body.

(** [_getFilesTree], its recursion depth bounded by [fuel]. *)
Fixpoint _getFilesTree (fuel : nat) (tree_root : string)
    (tree_root_stat : stat_result) (followLinks : bool) : M tree :=
  match fuel with
  | O => out_of_fuel
  | S fuel' =>
      getFilesTree_body
        (fun root st => _getFilesTree fuel' root st followLinks)
        tree_root tree_root_stat followLinks
  end.

(** Base.py lines 54-56. *)
Definition getFilesTree (fuel : nat) (tree_root : string)
    (followLinks : bool) : M tree :=
  statObject <- lstat tree_root ;;
  _getFilesTree fuel tree_root statObject followLinks.
End Snapshot.

(** ** FileSystems/Base.py: the output of [adb shell] *)

(** [s.rstrip(chars)]: [s] without its trailing characters of [chars]. *)
Fixpoint rstrip (chars : string) (s : string) : string :=
  match s with
  | EmptyString => EmptyString
  | String c rest =>
      match rstrip chars rest with
      | EmptyString =>
          if existsb (Ascii.eqb c) (list_ascii_of_string chars)
          then EmptyString
          else String c EmptyString
      | stripped => String c stripped
      end
  end.

(** ["\r\n"] *)
Definition CRLF : string := String "013" (String "010" EmptyString).

(** Base.py lines 17-18: the loop [while adbLine := ...: yield adbLine] over
    what the successive calls of [proc.stdout.readline()] return.  It ends
    at the first line that is empty once stripped; [readline] returns the
    empty string at the end of the output. *)
Fixpoint adbShell_loop (readlines : list string) : list string :=
  match readlines with
  | [] => []
  | raw :: rest =>
      match rstrip CRLF raw with
      | EmptyString => []
      | adbLine => adbLine :: adbShell_loop rest
      end
  end.

(** Base.py lines 13-19.  [popen] gives, for a command line, what the
    successive calls of [readline] return on the output of the process. *)
Definition Base_adbShell (popen : list string -> list string)
    (adb_arguments commands : list string) : list string :=
  adbShell_loop (popen (adb_arguments ++ ["shell"] ++ commands)%list).

(** ** FileSystems/Base.py: the executor

    [removeTree] and [pushTreeHere] change a file system through five methods
    that [Local.py] and [Android.py] supply.  The state that these methods
    change is passed explicitly: a method takes the state before the call and
    returns the state after it, unless it raises. *)

Class FileSystemWriter (world : Type) : Type := {
  unlink : string -> world -> M world;
  rmdir : string -> world -> M world;
  makedirs : string -> world -> M world;
  utime : string -> Z * Z -> world -> M world;
  pushFileHere : string -> string -> world -> M world
}.

(** The truth value of a tree: [None] and the empty dict are false. *)
Definition truthy (t : tree) : bool :=
  match t with
  | PyNone => false
  | PyTuple _ _ => true
  | PyDict [] => false
  | PyDict _ => true
  end.

(** [tree.pop(".", False)]: the truth value of what is popped, and the dict
    afterwards. *)
Definition pop_self (tree_ : dict) : bool * dict :=
  match dict_pop "." tree_ with
  | Some (value, rest) => (truthy value, rest)
  | None => (false, tree_)
  end.

Section Executor.
Context {fs : FileSystem} {world : Type} {writer : FileSystemWriter world}.

Section RemoveBody.
Variable rec : string -> tree -> world -> M world.

(** Base.py lines 65-66: the loop over the entries that are left. *)
Fixpoint removeTree_loop (tree_root : string) (items : dict) (w : world)
  : M world :=
  match items with
  | [] => ret w
  | (key, value) :: rest =>
      w' <- rec (normPath (joinPaths tree_root key)) value w ;;
      removeTree_loop tree_root rest w'
  end.

(** Base.py lines 58-72.  The dict loses its ["."] entry; the callers do not
    use it again. *)
Definition removeTree_body (tree_root : string) (tree_ : tree)
    (dryRun : bool) (w : world) : M world :=
  match tree_ with
  | PyTuple _ _ =>
      logging_log INFO ("Removing '" ++ tree_root ++ "'") ;;;
      if negb dryRun then unlink tree_root w else ret w
  | PyDict items =>
      let removeFolder := fst (pop_self items) in
      w' <- removeTree_loop tree_root (snd (pop_self items)) w ;;
      if removeFolder then
        logging_log INFO ("Removing folder '" ++ tree_root ++ "'") ;;;
        if negb dryRun then rmdir tree_root w' else ret w'
      else ret w'
  | PyNone => raise NotImplementedError
  end.
End RemoveBody.

(** [removeTree], its recursion depth bounded by [fuel]. *)
Fixpoint removeTree_fuel (fuel : nat) (tree_root : string) (tree_ : tree)
    (dryRun : bool) (w : world) : M world :=
  match fuel with
  | O => out_of_fuel
  | S fuel' =>
      removeTree_body
        (fun root t => removeTree_fuel fuel' root t dryRun)
        tree_root tree_ dryRun w
  end.

Definition removeTree (tree_root : string) (tree_ : tree) (dryRun : bool)
    (w : world) : M world :=
  removeTree_fuel (S (tree_height tree_)) tree_root tree_ dryRun w.

Section PushBody.
Variable rec : string -> tree -> string -> world -> M world.
Variable pathJoinFunction_source : string -> string -> string.
Variable pathNormFunction_source : string -> string.
Variable pathJoinFunction_destination : string -> string -> string.
Variable pathNormFunction_destination : string -> string.

(** Base.py lines 94-104. *)
Fixpoint pushTreeHere_loop (tree_root destination_root : string)
    (items : dict) (w : world) : M world :=
  match items with
  | [] => ret w
  | (key, value) :: rest =>
      w' <- rec
              (pathNormFunction_source
                 (pathJoinFunction_source tree_root key))
              value
              (pathNormFunction_destination
                 (pathJoinFunction_destination destination_root key))
              w ;;
      pushTreeHere_loop tree_root destination_root rest w'
  end.

(** Base.py lines 74-106. *)
Definition pushTreeHere_body (tree_root : string) (tree_ : tree)
    (destination_root : string) (dryRun : bool) (w : world) : M world :=
  match tree_ with
  | PyTuple atime mtime =>
      logging_log INFO
        ("Copying '" ++ tree_root ++ "' to '" ++ destination_root ++ "'") ;;;
      if negb dryRun then
        w' <- pushFileHere tree_root destination_root w ;;
        utime destination_root (atime, mtime) w'
      else ret w
  | PyDict items =>
      w' <- (if fst (pop_self items) then
               logging_log INFO
                 ("Making directory '" ++ destination_root ++ "'") ;;;
               if negb dryRun then makedirs destination_root w else ret w
             else ret w) ;;
      pushTreeHere_loop tree_root destination_root (snd (pop_self items)) w'
  | PyNone => raise NotImplementedError
  end.
End PushBody.

(** [pushTreeHere], its recursion depth bounded by [fuel]. *)
Fixpoint pushTreeHere_fuel (fuel : nat) (tree_root : string) (tree_ : tree)
    (destination_root : string)
    (pathJoinFunction_source : string -> string -> string)
    (pathNormFunction_source : string -> string)
    (pathJoinFunction_destination : string -> string -> string)
    (pathNormFunction_destination : string -> string)
    (dryRun : bool) (w : world) : M world :=
  match fuel with
  | O => out_of_fuel
  | S fuel' =>
      pushTreeHere_body
        (fun root t destination =>
           pushTreeHere_fuel fuel' root t destination
             pathJoinFunction_source pathNormFunction_source
             pathJoinFunction_destination pathNormFunction_destination
             dryRun)
        pathJoinFunction_source pathNormFunction_source
        pathJoinFunction_destination pathNormFunction_destination
        tree_root tree_ destination_root dryRun w
  end.

Definition pushTreeHere (tree_root : string) (tree_ : tree)
    (destination_root : string)
    (pathJoinFunction_source : string -> string -> string)
    (pathNormFunction_source : string -> string)
    (pathJoinFunction_destination : string -> string -> string)
    (pathNormFunction_destination : string -> string)
    (dryRun : bool) (w : world) : M world :=
  pushTreeHere_fuel (S (tree_height tree_)) tree_root tree_ destination_root
    pathJoinFunction_source pathNormFunction_source
    pathJoinFunction_destination pathNormFunction_destination dryRun w.
End Executor.

(** ** Regular expressions, as far as Android.py uses Python's [re]

    A backtracking matcher in continuation-passing style: alternatives are
    tried from left to right, repetition is greedy, and the groups set on an
    abandoned path are forgotten, as in [re].  Numbered groups are named by
    their number. *)

Inductive regex : Type :=
| Eps
| Cls (p : ascii -> bool)                  (* one character of a class *)
| Seq (r1 r2 : regex)
| Alt (r1 r2 : regex)                      (* r1 | r2 *)
| Star (r : regex)                         (* r*, each round consuming input *)
| Grp (name : string) (r : regex)          (* (?P<name> r) *)
| Cond (name : string) (yes no : regex)    (* (?(name) yes | no) *)
| Bol                                      (* ^ *)
| Eol.                                     (* $ *)

Definition groups : Type := string -> option (list ascii).

Definition no_groups : groups := fun _ => None.

Definition set_group (name : string) (text : list ascii) (g : groups)
  : groups :=
  fun n => if String.eqb n name then Some text else g n.

Definition cont : Type := list ascii -> nat -> groups -> option groups.

Definition or_else {A} (a b : option A) : option A :=
  match a with
  | Some x => Some x
  | None => b
  end.

Definition newline : ascii := "010"%char.

(** [run r s pos g k]: match [r] at the front of [s], the input left after
    [pos] characters, then continue with [k]. *)
Fixpoint run (r : regex) (s : list ascii) (pos : nat) (g : groups) (k : cont)
  : option groups :=
  match r with
  | Eps => k s pos g
  | Cls p =>
      match s with
      | c :: s' => if p c then k s' (S pos) g else None
      | [] => None
      end
  | Seq r1 r2 => run r1 s pos g (fun s' pos' g' => run r2 s' pos' g' k)
  | Alt r1 r2 => or_else (run r1 s pos g k) (run r2 s pos g k)
  | Star r1 =>
      (fix rounds (n : nat) (s : list ascii) (pos : nat) (g : groups)
         : option groups :=
         match n with
         | O => k s pos g
         | S n' =>
             or_else
               (run r1 s pos g
                  (fun s' pos' g' =>
                     if (List.length s' <? List.length s)%nat
                     then rounds n' s' pos' g'
                     else None))
               (k s pos g)
         end) (List.length s) s pos g
  | Grp name r1 =>
      run r1 s pos g
        (fun s' pos' g' =>
           k s' pos' (set_group name (firstn (pos' - pos) s) g'))
  | Cond name yes no =>
      match g name with
      | Some _ => run yes s pos g k
      | None => run no s pos g k
      end
  | Bol => if (pos =? 0)%nat then k s pos g else None
  | Eol =>
      match s with
      | [] => k s pos g
      | [c] => if Ascii.eqb c newline then k s pos g else None
      | _ => None
      end
  end.

(** The end of the input, which [fullmatch] asks for after the pattern. *)
Definition end_of_line : cont :=
  fun s _ g => match s with [] => Some g | _ => None end.

(** [pattern.fullmatch(line)], giving [match.groupdict()] with the numbered
    groups added. *)
Definition fullmatch (r : regex) (line : string) : option groups :=
  run r (list_ascii_of_string line) 0%nat no_groups end_of_line.

Definition Plus (r : regex) : regex := Seq r (Star r).
Definition Opt (r : regex) : regex := Alt r Eps.

Fixpoint seq (rs : list regex) : regex :=
  match rs with
  | [] => Eps
  | [r] => r
  | r :: rest => Seq r (seq rest)
  end.

Definition chr (c : ascii) : regex := Cls (Ascii.eqb c).
Definition lit (s : string) : regex := seq (map chr (list_ascii_of_string s)).
Definition one_of (s : string) : regex :=
  Cls (fun c => existsb (Ascii.eqb c) (list_ascii_of_string s)).
Definition is_digit (c : ascii) : bool :=
  ((48 <=? nat_of_ascii c) && (nat_of_ascii c <=? 57))%nat.
Definition digit : regex := Cls is_digit.                        (* [0-9] *)
Definition space : regex := chr " ".                             (* [ ] *)
Definition not_space : regex :=                                  (* [^ ] *)
  Cls (fun c => negb (Ascii.eqb c " ")).
Definition dot : regex := Cls (fun c => negb (Ascii.eqb c newline)).    (* . *)
Definition dot_all : regex := Cls (fun _ => true).      (* . with DOTALL *)

(** ** FileSystems/Android.py: the remote listing parser *)

(** Lines 23-29: the alternative that sets exactly one of the type groups. *)
Definition ls_type : regex :=
  Alt (Grp "S_IFREG" (chr "-"))
 (Alt (Grp "S_IFBLK" (chr "b"))
 (Alt (Grp "S_IFCHR" (chr "c"))
 (Alt (Grp "S_IFDIR" (chr "d"))
 (Alt (Grp "S_IFLNK" (chr "l"))
 (Alt (Grp "S_IFIFO" (chr "p"))
      (Grp "S_IFSOCK" (chr "s"))))))).

(** Lines 30-51: mode string, link count, owner, group, the fields that depend
    on the type, date and time, and the blank before the name. *)
Definition ls_fields : regex :=
  seq [ one_of "-r"; one_of "-w"; one_of "-xsS";
        one_of "-r"; one_of "-w"; one_of "-xsS";
        one_of "-r"; one_of "-w"; one_of "-xtT";
        Plus space;
        Opt (Seq (Plus digit) (Plus space));
        Plus not_space;
        Plus space;
        Plus not_space;
        Plus space;
        Cond "S_IFBLK"
          (seq [Plus not_space; Plus space; Plus not_space; Plus space]) Eps;
        Cond "S_IFCHR"
          (seq [Plus not_space; Plus space; Plus not_space; Plus space]) Eps;
        Opt (Cond "S_IFDIR"
               (Grp "dirsize" (Seq (Plus digit) (Plus space))) Eps);
        Cond "S_IFREG" (Seq (Grp "st_size" (Plus digit)) (Plus space)) Eps;
        Cond "S_IFLNK" (Seq (Grp "10" (Plus digit)) (Plus space)) Eps;
        Grp "st_mtime"
          (seq [ digit; digit; digit; digit; chr "-"; digit; digit; chr "-";
                 digit; digit; space; digit; digit; chr ":"; digit; digit ]);
        space ].

(** Lines 52-53: "Don't capture filename for symlinks (ambiguous)." *)
Definition ls_name : regex :=
  Cond "S_IFLNK" (Star dot_all) (Grp "filename" (Star dot_all)).

(** Lines 20-54, compiled with [re.DOTALL | re.VERBOSE]. *)
Definition RE_LS_TO_STAT : regex :=
  Seq Bol (Seq ls_type (Seq ls_fields (Seq ls_name Eol))).

Definition RE_NO_SUCH_FILE : regex :=
  seq [Bol; Star dot; lit ": No such file or directory"; Eol].
Definition RE_LS_NOT_A_DIRECTORY : regex :=
  seq [lit "ls: "; Star dot; lit ": Not a directory"; Eol].
(** [\d] is taken as [[0-9]]: of the decimal digits of Unicode, which
    Python accepts all, the ASCII ones only. *)
Definition RE_TOTAL : regex :=
  seq [Bol; lit "total "; Plus digit; Eol].
Definition RE_REALPATH_NO_SUCH_FILE : regex :=
  seq [Bol; lit "realpath: "; Star dot; lit ": No such file or directory"; Eol].
Definition RE_REALPATH_NOT_A_DIRECTORY : regex :=
  seq [Bol; lit "realpath: "; Star dot; lit ": Not a directory"; Eol].

Definition matches (r : regex) (line : string) : bool :=
  match fullmatch r line with
  | Some _ => true
  | None => false
  end.

(** The truth value of [match_groupdict[name]]: set, and not the empty
    string. *)
Definition group_true (match_groupdict : groups) (name : string) : bool :=
  match match_groupdict name with
  | Some (_ :: _) => true
  | _ => false
  end.

(** [int(text)] on decimal digits; [None] stands for [ValueError]. *)
Definition int_of_digits (text : list ascii) : option Z :=
  match text with
  | [] => None
  | _ =>
      fold_left
        (fun acc c =>
           match acc with
           | Some n =>
               if is_digit c
               then Some (10 * n + (Z.of_nat (nat_of_ascii c) - 48))
               else None
           | None => None
           end)
        text (Some 0)
  end.

(** [path.replace(old, new)] for a one-character [old] *)
Fixpoint replace (old : ascii) (new : string) (path : string) : string :=
  match path with
  | EmptyString => EmptyString
  | String c rest =>
      if Ascii.eqb c old then new ++ replace old new rest
      else String c (replace old new rest)
  end.

Definition backslash : ascii := "092"%char.

(** Lines 63-70 *)
Definition escapePath_replacements : list (ascii * string) :=
  [ (" "%char, String backslash " ");
    ("'"%char, String backslash "'");
    ("("%char, String backslash "(");
    (")"%char, String backslash ")");
    ("!"%char, String backslash "!");
    ("&"%char, String backslash "&") ].

(** Lines 72-75 *)
Definition escapePath (path : string) : string :=
  fold_left (fun p r => replace (fst r) (snd r) p) escapePath_replacements path.

Section Android.
(** [datetime.datetime.strptime(text, "%Y-%m-%d %H:%M").timestamp()] in the
    time zone of the host; [None] stands for [ValueError]. *)
Variable strptime_timestamp : list ascii -> option Q.
(** What [self.adbShell(commands)] yields, Base.py lines 13-19: the lines
    of the output of [adb shell] up to the first empty one, as
    [Base_adbShell] gives them. *)
Variable adbShell : list string -> list string.
Variable os_path_join : string -> string -> string.
Variable os_path_normpath : string -> string.

Definition add_type (match_groupdict : groups) (name : string) (bits : Z)
    (mode : Z) : Z :=
  if group_true match_groupdict name then Z.lor mode bits else mode.

(** Lines 85-120. *)
Definition lsToStat (line : string) : M (option string * stat_result) :=
  if matches RE_NO_SUCH_FILE line then raise FileNotFoundError
  else if matches RE_LS_NOT_A_DIRECTORY line then raise NotADirectoryError
  else
    match fullmatch RE_LS_TO_STAT line with
    | Some match_groupdict =>
        let mode :=
          Z.lor (Z.lor (Z.lor (Z.lor S_IRWXU S_IRGRP) S_IXGRP) S_IROTH)
            S_IXOTH in
        let mode := add_type match_groupdict "S_IFREG" S_IFREG mode in
        let mode := add_type match_groupdict "S_IFBLK" S_IFBLK mode in
        let mode := add_type match_groupdict "S_IFCHR" S_IFCHR mode in
        let mode := add_type match_groupdict "S_IFDIR" S_IFDIR mode in
        let mode := add_type match_groupdict "S_IFIFO" S_IFIFO mode in
        let mode := add_type match_groupdict "S_IFLNK" S_IFLNK mode in
        let mode := add_type match_groupdict "S_IFSOCK" S_IFSOCK mode in
        size <- match match_groupdict "st_size" with
                | None => ret None
                | Some text =>
                    match int_of_digits text with
                    | Some n => ret (Some n)
                    | None => raise ValueError
                    end
                end ;;
        mtime <- match match_groupdict "st_mtime" with
                 | Some text =>
                     match strptime_timestamp text with
                     | Some t => ret (inject_Z (py_int t))
                     | None => raise ValueError
                     end
                 | None => raise TypeError
                 end ;;
        ret (option_map string_of_list_ascii (match_groupdict "filename"),
             mk_stat_result mode 1 0 1 (-2) (-2) size mtime mtime mtime)
    | None =>
        criticalLogExit ("Line not captured: '" ++ line ++ "'")
    end.

(** Lines 134-141.  Without a line the method returns [None], whose first
    use, [escapePath(None)], raises [AttributeError]. *)
Definition Android_realPath (path : string) : M string :=
  match adbShell ["realpath"; escapePath path] with
  | [] => raise AttributeError
  | line :: _ =>
      if matches RE_REALPATH_NO_SUCH_FILE line then raise FileNotFoundError
      else if matches RE_REALPATH_NOT_A_DIRECTORY line then
        raise NotADirectoryError
      else ret line
  end.

(** Lines 144-146.  Without a line the method returns [None], whose first
    use, [tree_root_stat.st_mode], raises [AttributeError]. *)
Definition Android_lstat (path : string) : M stat_result :=
  match adbShell ["ls"; "-lad"; escapePath path] with
  | [] => raise AttributeError
  | line :: _ => r <- lsToStat line ;; ret (snd r)
  end.

(** Lines 148-153. *)
Definition Android_lstat_inDir (path : string)
  : list (M (option string * stat_result)) :=
  map lsToStat
    (filter (fun line => negb (matches RE_TOTAL line))
       (adbShell ["ls"; "-la"; escapePath path])).

(** Lines 161-165. *)
Definition Android_joinPaths (base leaf : string) : string :=
  replace backslash "/" (os_path_join base leaf).
Definition Android_normPath (path : string) : string :=
  replace backslash "/" (os_path_normpath path).

Definition AndroidFileSystem : FileSystem := {|
  realPath := Android_realPath;
  lstat := Android_lstat;
  lstat_inDir := Android_lstat_inDir;
  joinPaths := Android_joinPaths;
  normPath := Android_normPath
|}.
End Android.

(** ** FileSystems/Android.py: the connection test *)

(** Android.py lines 15-17; [\d] is taken as [[0-9]], as in [RE_TOTAL]. *)
Definition RE_TESTCONNECTION_NO_DEVICE : regex :=
  seq [Bol; lit "adb: no devices/emulators found"; Eol].
Definition RE_TESTCONNECTION_DAEMON_NOT_RUNNING : regex :=
  seq [Bol; lit "* daemon not running; starting now at tcp:"; Plus digit; Eol].
Definition RE_TESTCONNECTION_DAEMON_STARTED : regex :=
  seq [Bol; lit "* daemon started successfully"; Eol].

(** Android.py lines 77-83, over the lines that [self.adbShell] yields
    for the command [:]. *)
Fixpoint testConnection_loop (lines : list string) : bool :=
  match lines with
  | [] => true
  | line :: rest =>
      if matches RE_TESTCONNECTION_DAEMON_NOT_RUNNING line
         || matches RE_TESTCONNECTION_DAEMON_STARTED line
      then testConnection_loop rest
      else if matches RE_TESTCONNECTION_NO_DEVICE line then false
      else testConnection_loop rest
  end.

Definition testConnection (adbShell : list string -> list string) : bool :=
  testConnection_loop (adbShell [":"]).

(** ** Reading the result of a call *)

(** The five-tuple that a call returned, if it returned. *)
Definition returned (r : outcome diffed * list log_record) : option diff :=
  match fst r with
  | Ret (d, _, _) => Some d
  | _ => None
  end.

(** What the [source] and [destination] arguments hold after the call. *)
Definition source_after (r : outcome diffed * list log_record) : option tree :=
  match fst r with
  | Ret (_, source', _) => Some source'
  | _ => None
  end.

Definition destination_after (r : outcome diffed * list log_record)
  : option tree :=
  match fst r with
  | Ret (_, _, destination') => Some destination'
  | _ => None
  end.

(** ** Vocabulary of the statements *)

(** [destination] once every key of [keys] has been popped with a default. *)
Definition pop_keys (keys : list string) (destination : dict) : dict :=
  fold_left (fun d key => snd (pop_default key d)) keys destination.

(** The names left in a dict once its ["."] entry is popped. *)
Definition keys_without_self (items : dict) : option (list string) :=
  option_map (fun r => dict_keys (snd r)) (dict_pop "." items).

Definition is_dict (t : tree) : bool :=
  match t with
  | PyDict _ => true
  | _ => false
  end.

Section Opened.
Variable fnmatch : string -> string -> bool.
Variable destinationExcludePatterns : list string.
Variable pathJoinFunction_destination : string -> string -> string.

(** What a call that returns leaves of a tree it walks through, as source
    or as destination against an absent source: a directory at a path that
    is not excluded has lost its ["."] entry, and its entries hold what the
    calls on them have left; [None], a file, and a directory at an excluded
    path are as before. *)
Fixpoint opened (path_destination : string) (t : tree) : tree :=
  match t with
  | PyDict items =>
      if excluded fnmatch destinationExcludePatterns path_destination then t
      else
        PyDict
          (snd (pop_default "."
                  (map (fun kv =>
                          (fst kv,
                           opened
                             (pathJoinFunction_destination path_destination
                                (fst kv))
                             (snd kv)))
                     items)))
  | _ => t
  end.

(** The entry [key: value] of a directory at [path_destination], after the
    call on [value]. *)
Definition opened_entry (path_destination : string) (kv : string * tree)
  : string * tree :=
  (fst kv,
   opened (pathJoinFunction_destination path_destination (fst kv)) (snd kv)).

(** What a call that returns leaves of [destination].  Against a source
    directory, at a path that is not excluded, a destination directory has
    lost the entries named like an entry of the source, then its ["."]
    entry, and the entries left were walked through against an absent
    source. *)
Definition destination_left (path_destination : string)
    (source destination : tree) : tree :=
  match source, destination with
  | PyNone, _ => opened path_destination destination
  | PyDict s_items, PyDict d_items =>
      if excluded fnmatch destinationExcludePatterns path_destination
      then destination
      else
        PyDict
          (snd (pop_default "."
                  (map (opened_entry path_destination)
                     (pop_keys
                        (dict_keys (snd (pop_default "." s_items)))
                        d_items))))
  | _, _ => destination
  end.
End Opened.

(** A call that returns, or that exits, which takes the flag. *)
Definition returns_or_exits (flag : bool) {A} (r : outcome A * list log_record)
  : Prop :=
  match fst r with
  | Ret _ => True
  | Raise e => e = SystemExit /\ flag = true
  | OutOfFuel => False
  end.

(** A call that returns, that raises [KeyError(".")], or that exits, which
    takes the flag. *)
Definition returns_or_stops (flag : bool) {A}
    (r : outcome A * list log_record) : Prop :=
  match fst r with
  | Ret _ => True
  | Raise e => e = KeyError "." \/ (e = SystemExit /\ flag = true)
  | OutOfFuel => False
  end.

(** A tree that [diffTrees] accepts with fuel [n]. *)
Definition fits (n : nat) (t : tree) : Prop :=
  has_self_entries t = true /\ (tree_height t < n)%nat.


(** [logs'] extends [logs] by warnings only. *)
Definition warnings_only (logs logs' : list log_record) : Prop :=
  exists new,
    logs' = (logs ++ new)%list /\ Forall (fun r => fst r = WARNING) new.

(** The call does not exit and logs nothing but warnings. *)
Definition no_abort {A} (logs : list log_record)
    (r : outcome A * list log_record) : Prop :=
  fst r <> Raise SystemExit /\ warnings_only logs (snd r).

(** The computation logs nothing. *)
Definition quiet {A} (c : M A) : Prop := forall logs, snd (c logs) = logs.

(** What [_getFilesTree] builds: [None] for a skipped link, the bucketed
    times of a file, and for a directory a dict whose ["."] entry holds the
    bucketed times of the directory. *)
#[local] Unset Elimination Schemes.
Inductive snapshot : tree -> Prop :=
| snapshot_skipped : snapshot PyNone
| snapshot_file st :
    snapshot (PyTuple (bucket (st_atime st)) (bucket (st_mtime st)))
| snapshot_directory st items :
    dict_get "." items = Some (bucketed_times st) ->
    distinct_keys items = true ->
    Forall (fun kv => snapshot (snd kv)) items ->
    snapshot (PyDict items).
#[local] Set Elimination Schemes.

(** The dict under construction in [_getFilesTree], for a directory with
    metadata [st]. *)
Definition snapshot_items (st : stat_result) (items : dict) : Prop :=
  dict_get "." items = Some (bucketed_times st)
  /\ distinct_keys items = true
  /\ Forall (fun kv => snapshot (snd kv)) items.

(** The tree that [_getFilesTree] builds for the node at [tree_root] with
    metadata [tree_root_stat], node by node.  A link gives [None], or what
    is built for the path it resolves to, with the metadata of that path.
    A file gives the bucketed times of its own metadata.  A directory gives
    a dict: its ["."] entry holds the bucketed times of the directory, and
    every other entry is named as a step of the listing of the directory
    names it, and holds what is built for that name joined to the path,
    with the metadata that the step yields. *)
#[local] Unset Elimination Schemes.
Inductive built {fs : FileSystem} (followLinks : bool)
  : string -> stat_result -> tree -> Prop :=
| built_skipped tree_root tree_root_stat :
    S_ISLNK (st_mode tree_root_stat) = true ->
    built followLinks tree_root tree_root_stat PyNone
| built_followed tree_root tree_root_stat tree_root_realPath
    tree_root_stat_realPath t logs0 logs1 logs2 :
    S_ISLNK (st_mode tree_root_stat) = true ->
    followLinks = true ->
    realPath tree_root logs0 = (Ret tree_root_realPath, logs1) ->
    lstat tree_root_realPath logs1 = (Ret tree_root_stat_realPath, logs2) ->
    built followLinks tree_root_realPath tree_root_stat_realPath t ->
    built followLinks tree_root tree_root_stat t
| built_file tree_root tree_root_stat :
    S_ISLNK (st_mode tree_root_stat) = false ->
    S_ISDIR (st_mode tree_root_stat) = false ->
    S_ISREG (st_mode tree_root_stat) = true ->
    built followLinks tree_root tree_root_stat
      (PyTuple (bucket (st_atime tree_root_stat))
         (bucket (st_mtime tree_root_stat)))
| built_directory tree_root tree_root_stat items :
    S_ISLNK (st_mode tree_root_stat) = false ->
    S_ISDIR (st_mode tree_root_stat) = true ->
    dict_get "." items =
    Some (PyTuple (bucket (st_atime tree_root_stat))
            (bucket (st_mtime tree_root_stat))) ->
    distinct_keys items = true ->
    Forall
      (fun kv =>
         fst kv = "."
         \/ exists step statObject_child logs0 logs1,
              In step (lstat_inDir tree_root)
              /\ step logs0 = (Ret (Some (fst kv), statObject_child), logs1)
              /\ built followLinks (joinPaths tree_root (fst kv))
                   statObject_child (snd kv))
      items ->
    built followLinks tree_root tree_root_stat (PyDict items).
#[local] Set Elimination Schemes.

(** The groups that a match of [r] may set. *)
Fixpoint writes (r : regex) : list string :=
  match r with
  | Seq r1 r2 | Alt r1 r2 | Cond _ r1 r2 => (writes r1 ++ writes r2)%list
  | Star r1 => writes r1
  | Grp name r1 => name :: writes r1
  | _ => []
  end.

(** The type groups of [RE_LS_TO_STAT] with their characters. *)
Definition ls_types : list (string * ascii) :=
  [ ("S_IFREG", "-"%char); ("S_IFBLK", "b"%char); ("S_IFCHR", "c"%char);
    ("S_IFDIR", "d"%char); ("S_IFLNK", "l"%char); ("S_IFIFO", "p"%char);
    ("S_IFSOCK", "s"%char) ].

(** ** Vocabulary of the further properties *)

(** A pruned tree, as [removeTree] and [pushTreeHere] expect it: a file, or a
    dict with distinct keys that is not empty and holds pruned trees only. *)
Fixpoint pruned (t : tree) : bool :=
  match t with
  | PyNone => false
  | PyTuple _ _ => true
  | PyDict items =>
      match items with [] => false | _ => true end
      && distinct_keys items
      && forallb (fun kv => pruned (snd kv)) items
  end.

(** The tree holds a pair of times somewhere. *)
Fixpoint has_times (t : tree) : bool :=
  match t with
  | PyNone => false
  | PyTuple _ _ => true
  | PyDict items => existsb (fun kv => has_times (snd kv)) items
  end.

(** One round of the loop of [pruneTree], lines 276-279. *)
Definition prune_step (returnDict : dict) (kv : string * tree) : dict :=
  match pruneTree (snd kv) with
  | PyNone => returnDict
  | value_pruned => dict_setitem (fst kv) value_pruned returnDict
  end.

(** Every dict of the tree is a Python dict that starts with its ["."]
    entry, as [_getFilesTree] builds it. *)
Fixpoint self_first (t : tree) : bool :=
  match t with
  | PyDict items =>
      match items with
      | (key, _) :: _ => String.eqb key "."
      | [] => false
      end
      && distinct_keys items
      && forallb (fun kv => self_first (snd kv)) items
  | _ => true
  end.

(** What a call on two equal trees gives. *)
Definition nothing_to_do (r : outcome diffed * list log_record)
    (logs : list log_record) : Prop :=
  exists d source' destination',
    r = (Ret (d, source', destination'), logs)
    /\ has_times (delete d) = false
    /\ has_times (copy d) = false
    /\ has_times (unaccounted_destination d) = false.

Definition starts (n : nat) (t : tree) : Prop :=
  self_first t = true /\ (tree_height t < n)%nat.

(** The source is new as a whole. *)
Definition copies_all (t : tree) (r : outcome diffed * list log_record)
    (logs : list log_record) : Prop :=
  exists d source',
    r = (Ret (d, source', PyNone), logs)
    /\ copy d = t
    /\ delete d = PyNone
    /\ unaccounted_destination d = PyNone
    /\ excluded_destination d = PyNone
    /\ has_times (excluded_source d) = false.

(** The destination is unaccounted as a whole. *)
Definition unaccounted_all (t : tree) (r : outcome diffed * list log_record)
    (logs : list log_record) : Prop :=
  exists d destination',
    r = (Ret (d, PyNone, destination'), logs)
    /\ unaccounted_destination d = t
    /\ copy d = PyNone
    /\ excluded_source d = PyNone
    /\ has_times (delete d) = false
    /\ has_times (excluded_destination d) = false.

(** The files of a tree with their paths and times; the ["."] entries stand
    for the directories themselves and are left out. *)
Fixpoint files (t : tree) : list (list string * (Z * Z)) :=
  match t with
  | PyNone => []
  | PyTuple atime mtime => [([], (atime, mtime))]
  | PyDict items =>
      flat_map
        (fun kv =>
           if String.eqb (fst kv) "." then []
           else map (fun f => (fst kv :: fst f, snd f)) (files (snd kv)))
        items
  end.

(** One round of the loop of [removeExludedFoldersFromUnaccountedTree],
    lines 260-266. *)
Definition remove_step (excluded_ : tree) (acc : outcome dict)
    (kv : string * tree) : outcome dict :=
  bind_outcome acc (fun unaccounted_non_excluded =>
    if String.eqb (fst kv) "." then Ret unaccounted_non_excluded
    else
      bind_outcome (get_default (fst kv) excluded_) (fun e =>
      bind_outcome (removeExludedFoldersFromUnaccountedTree (snd kv) e)
        (fun v => Ret (dict_setitem (fst kv) v unaccounted_non_excluded)))).

(** The files of a dict under construction. *)
Definition files_of_items (items : dict) : list (list string * (Z * Z)) :=
  flat_map
    (fun kv =>
       if String.eqb (fst kv) "." then []
       else map (fun f => (fst kv :: fst f, snd f)) (files (snd kv)))
    items.

(** Every pair of times of a tree with the keys that lead to it, the ["."]
    entries included. *)
Fixpoint leaves (t : tree) : list (list string * (Z * Z)) :=
  match t with
  | PyNone => []
  | PyTuple atime mtime => [([], (atime, mtime))]
  | PyDict items =>
      flat_map
        (fun kv => map (fun f => (fst kv :: fst f, snd f)) (leaves (snd kv)))
        items
  end.

(** No dict of the tree has a key twice. *)
Fixpoint python_dicts (t : tree) : bool :=
  match t with
  | PyDict items =>
      distinct_keys items && forallb (fun kv => python_dicts (snd kv)) items
  | _ => true
  end.

Definition leaves_of_items (items : dict) : list (list string * (Z * Z)) :=
  flat_map
    (fun kv => map (fun f => (fst kv :: fst f, snd f)) (leaves (snd kv)))
    items.

(** Every entry of [t] is an entry of [u]: the same keys lead to the same
    times. *)
Definition within (t u : tree) : Prop := incl (leaves t) (leaves u).

(** The five trees of a result hold entries of the two arguments only. *)
Definition from_arguments (source destination : tree) (d : diff) : Prop :=
  within (copy d) source
  /\ within (excluded_source d) source
  /\ within (delete d) destination
  /\ within (unaccounted_destination d) destination
  /\ within (excluded_destination d) destination.

(** The characters of the table [escapePath_replacements]. *)
Definition needs_escape (c : ascii) : bool :=
  existsb (fun r => Ascii.eqb c (fst r)) escapePath_replacements.

(** One pass over the path that puts a backslash before each character of
    the table. *)
Fixpoint escape_each (path : string) : string :=
  match path with
  | EmptyString => EmptyString
  | String c rest =>
      if needs_escape c then String backslash (String c (escape_each rest))
      else String c (escape_each rest)
  end.

(** A line of a listing for a symbolic link. *)
Definition link_line (line : string) : Prop :=
  exists rest, line = String "l" rest.

(** A text without line breaks. *)
Definition one_line (text : string) : bool :=
  forallb (fun c => negb (Ascii.eqb c newline)) (list_ascii_of_string text).

(** No dict of the tree has an entry for the parent directory. *)
Fixpoint no_parent_entry (t : tree) : bool :=
  match t with
  | PyDict items =>
      negb (dict_mem ".." items)
      && forallb (fun kv => no_parent_entry (snd kv)) items
  | _ => true
  end.

(** The calls that reach a backend. *)
Inductive call : Type :=
| Unlink (path : string)
| Rmdir (path : string)
| Makedirs (path : string)
| Utime (path : string) (times : Z * Z)
| PushFileHere (source destination : string).

(** A backend that does nothing but record the calls it gets. *)
Definition recorder : FileSystemWriter (list call) := {|
  unlink path w := ret (w ++ [Unlink path])%list;
  rmdir path w := ret (w ++ [Rmdir path])%list;
  makedirs path w := ret (w ++ [Makedirs path])%list;
  utime path times w := ret (w ++ [Utime path times])%list;
  pushFileHere source destination w :=
    ret (w ++ [PushFileHere source destination])%list
|}.

(** The path of an entry: the keys that lead to it joined to the root one
    after the other, as [removeTree] and [pushTreeHere] do. *)
Definition path_under (join : string -> string -> string)
    (norm : string -> string) (root : string) (keys : list string) : string :=
  fold_left (fun path key => norm (join path key)) keys root.

(** The paths that are unlinked, in the order of the calls. *)
Definition unlinked (calls : list call) : list string :=
  flat_map (fun c => match c with Unlink path => [path] | _ => [] end) calls.

(** The calls that write files. *)
Definition file_calls (calls : list call) : list call :=
  filter (fun c => match c with
                   | PushFileHere _ _ | Utime _ _ => true
                   | _ => false
                   end) calls.

(** [logs'] extends [logs] by records of level [INFO] only. *)
Definition infos_only (logs logs' : list log_record) : Prop :=
  exists new,
    logs' = (logs ++ new)%list /\ Forall (fun r => fst r = INFO) new.

(** The call returns the state it was given and logs at level [INFO]. *)
Definition dry {world : Type} (w : world) (logs : list log_record)
    (r : outcome world * list log_record) : Prop :=
  fst r = Ret w /\ infos_only logs (snd r).

(** The two calls that copy one file of the tree. *)
Definition copy_calls (join_s : string -> string -> string)
    (norm_s : string -> string) (join_d : string -> string -> string)
    (norm_d : string -> string) (root destination : string)
    (f : list string * (Z * Z)) : list call :=
  [ PushFileHere (path_under join_s norm_s root (fst f))
      (path_under join_d norm_d destination (fst f));
    Utime (path_under join_d norm_d destination (fst f)) (snd f) ].

(** The call gives no value. *)
Definition no_result {A} (r : outcome A * list log_record) : Prop :=
  match fst r with
  | Ret _ => False
  | _ => True
  end.

(** [d.get(key, None)] as a tree. *)
Definition entry (key : string) (d : dict) : tree :=
  match dict_get key d with
  | Some v => v
  | None => PyNone
  end.

(** An unaccounted tree and an excluded tree that go together: where both
    hold times they are dicts, and so are their entries of the same name. *)
Inductive matching : tree -> tree -> Prop :=
| matching_nothing_unaccounted u e : has_times u = false -> matching u e
| matching_nothing_excluded u e : has_times e = false -> matching u e
| matching_dicts u_items e_items :
    distinct_keys u_items = true ->
    distinct_keys e_items = true ->
    (forall key, key <> "." ->
                 matching (entry key u_items) (entry key e_items)) ->
    matching (PyDict u_items) (PyDict e_items).

(** The unaccounted and the excluded dict under construction. *)
Definition matching_items (una exd : dict) : Prop :=
  distinct_keys una = true
  /\ distinct_keys exd = true
  /\ forall key, key <> "." -> matching (entry key una) (entry key exd).

(** The six trees of a plan hold entries of the two snapshots only. *)
Definition plan_from_snapshots (source destination : tree) (p : plan)
  : Prop :=
  within (tree_copy p) source
  /\ within (tree_excluded_source p) source
  /\ within (tree_delete p) destination
  /\ within (tree_unaccounted_destination p) destination
  /\ within (tree_excluded_destination p) destination
  /\ within (tree_unaccounted_destination_non_excluded p) destination.

(** Every file of the source is dealt with: it is in the tree to copy or in
    the tree of excluded source items, or the destination has a file under
    the same keys whose modification time is not older. *)
Definition accounts_for (source destination : tree) (d : diff) : Prop :=
  forall path times,
    In (path, times) (files source) ->
    In (path, times) (files (copy d))
    \/ In (path, times) (files (excluded_source d))
    \/ exists times',
         In (path, times') (files destination) /\ snd times <= snd times'.

(** Every file of the destination is dealt with: it is in the tree to delete
    or in the unaccounted tree, or the source has a file under the same keys
    whose modification time is not newer. *)
Definition settles (source destination : tree) (d : diff) : Prop :=
  forall path times,
    In (path, times) (files destination) ->
    In (path, times) (files (delete d))
    \/ In (path, times) (files (unaccounted_destination d))
    \/ exists times',
         In (path, times') (files source) /\ snd times' <= snd times.

(** ** Fixtures for the examples

    [fnmatch.fnmatch] and [os.path.join] belong to the Python library and are
    parameters above.  The examples below run on these instances: on POSIX a
    pattern without metacharacters matches its own text only, and joining a
    base that does not end in a slash with a relative name puts one slash
    between them. *)

Definition literal_fnmatch (name pattern : string) : bool :=
  String.eqb name pattern.

Definition slash_join (base leaf : string) : string := base ++ "/" ++ leaf.

(** The scenario of section 8 of the specification, as written there. *)
Definition scenario_source : tree :=
  PyDict [ ("a.txt", PyTuple 120 120);
           ("sub", PyDict [(".", PyTuple 60 60); ("b.txt", PyTuple 180 180)]) ].

Definition scenario_destination : tree :=
  PyDict [ ("a.txt", PyTuple 60 60); ("old.txt", PyTuple 60 60) ].

(** The same two snapshots as [_getFilesTree] builds them: the root
    directories carry their own times under ["."] as well. *)
Definition snapshot_source : tree :=
  PyDict [ (".", PyTuple 60 60); ("a.txt", PyTuple 120 120);
           ("sub", PyDict [(".", PyTuple 60 60); ("b.txt", PyTuple 180 180)]) ].

Definition snapshot_destination : tree :=
  PyDict [ (".", PyTuple 60 60); ("a.txt", PyTuple 60 60);
           ("old.txt", PyTuple 60 60) ].

Definition default_args : Args := mkArgs false false false false.

(** A device whose [/sdcard/Music] holds one song, as [adb shell] shows it. *)
Fixpoint command_eqb (c1 c2 : list string) : bool :=
  match c1, c2 with
  | [], [] => true
  | w1 :: r1, w2 :: r2 => String.eqb w1 w2 && command_eqb r1 r2
  | _, _ => false
  end.

Definition sample_adbShell (command : list string) : list string :=
  if command_eqb command ["ls"; "-lad"; "/sdcard/Music"] then
    [ "drwxrwx--x 2 root sdcard_rw 4096 2020-01-02 03:04 /sdcard/Music" ]
  else if command_eqb command ["ls"; "-la"; "/sdcard/Music"] then
    [ "total 8";
      "drwxrwx--x 2 root sdcard_rw 4096 2020-01-02 03:04 .";
      "drwxrwx--x 9 root sdcard_rw 4096 2020-01-01 00:00 ..";
      "-rw-rw---- 1 root sdcard_rw 1234 2020-01-02 03:05 song.mp3" ]
  else [].

(** A line of [ls -la] for a symbolic link. *)
Definition sample_link_line : string :=
  "lrwxrwxrwx 1 root root 21 2020-01-02 03:04 sdcard -> /storage/self/primary".

(** The two dates of the listing, read in UTC. *)
Definition sample_strptime (text : list ascii) : option Q :=
  if String.eqb (string_of_list_ascii text) "2020-01-02 03:04" then
    Some (inject_Z 1577934240)
  else if String.eqb (string_of_list_ascii text) "2020-01-02 03:05" then
    Some (inject_Z 1577934300)
  else if String.eqb (string_of_list_ascii text) "2020-01-01 00:00" then
    Some (inject_Z 1577836800)
  else None.

Definition sample_device : FileSystem :=
  AndroidFileSystem sample_strptime sample_adbShell slash_join
    (fun path => path).

(** A tree as [diffTrees] returns it, before pruning. *)
Definition sample_unpruned : tree :=
  PyDict [ (".", PyNone); ("a.txt", PyTuple 120 120);
           ("sub", PyDict [(".", PyNone); ("b.txt", PyNone)]) ].

(** A pruned unaccounted tree, and a pruned excluded tree that names a
    folder of it. *)
Definition sample_unaccounted : tree :=
  PyDict [ (".", PyTuple 60 60);
           ("cache", PyDict [(".", PyTuple 60 60);
                             ("old.txt", PyTuple 60 60)]) ].

Definition sample_excluded : tree :=
  PyDict [ ("cache", PyDict [("tmp", PyTuple 60 60)]) ].

(** A device whose root directory holds one symbolic link. *)
Definition sample_link_adbShell (command : list string) : list string :=
  if command_eqb command ["ls"; "-la"; "/"] then [sample_link_line] else [].

(** A device that does not have the path it is asked for. *)
Definition sample_missing_adbShell (command : list string) : list string :=
  [ "ls: /sdcard/Nothing: No such file or directory" ].

(** What [adb] prints when it starts its daemon and finds no device. *)
Definition sample_no_device_adbShell (command : list string) : list string :=
  [ "* daemon not running; starting now at tcp:5037";
    "* daemon started successfully";
    "adb: no devices/emulators found" ].

(** A line of [ls -la] for a file. *)
Definition sample_file_line : string :=
  "-rw-rw---- 1 root sdcard_rw 1234 2020-01-02 03:05 song.mp3".

(** What [adb] prints when an empty line comes before its message. *)
Definition sample_hidden_no_device_output (command : list string)
  : list string :=
  [ String "010" EmptyString;
    "adb: no devices/emulators found" ++ String "010" EmptyString ].

(** What [adb] prints when it starts its daemon and finds no device, as
    [readline] returns it. *)
Definition sample_no_device_output (command : list string) : list string :=
  [ "* daemon not running; starting now at tcp:5037"
      ++ String "010" EmptyString;
    "* daemon started successfully" ++ String "010" EmptyString;
    "adb: no devices/emulators found" ++ String "010" EmptyString ].

(** * Properties *)

(** ** The monad *)

Lemma bind_inv_Ret {A B} (c : M A) (f : A -> M B) logs b logs' :
  bind c f logs = (Ret b, logs') ->
  exists a logs1, c logs = (Ret a, logs1) /\ f a logs1 = (Ret b, logs').
Proof.
  unfold bind. destruct (c logs) as [[a | e |] logs1]; intros H.
  - exists a, logs1. split; [reflexivity | exact H].
  - discriminate H.
  - discriminate H.
Qed.

(** ** What a call leaves in its arguments *)

Ltac inv_bind H :=
  let a := fresh "a" in
  let logs1 := fresh "logs" in
  let H1 := fresh "Hc" in
  apply bind_inv_Ret in H; destruct H as (a & logs1 & H1 & H).

Lemma ret_inv {A} (a b : A) logs logs' :
  ret a logs = (Ret b, logs') -> a = b /\ logs = logs'.
Proof. unfold ret. intros H. inversion H. split; reflexivity. Qed.

Lemma getitem_inv key d logs v logs' :
  getitem key d logs = (Ret v, logs') ->
  dict_get key d = Some v /\ logs = logs'.
Proof.
  unfold getitem. destruct (dict_get key d); intros H.
  - apply ret_inv in H. destruct H as [-> ->]. split; reflexivity.
  - discriminate H.
Qed.

Lemma pop_inv key d logs r logs' :
  pop key d logs = (Ret r, logs') -> dict_pop key d = Some r /\ logs = logs'.
Proof.
  unfold pop. destruct (dict_pop key d); intros H.
  - apply ret_inv in H. destruct H as [-> ->]. split; reflexivity.
  - discriminate H.
Qed.

Lemma dict_keys_app {A} (d1 d2 : list (string * A)) :
  dict_keys (d1 ++ d2) = (dict_keys d1 ++ dict_keys d2)%list.
Proof. unfold dict_keys. apply map_app. Qed.

Section Loops.
Variables join_s join_d : string -> string -> string.
Variable rec : tree -> tree -> string -> string -> M diffed.

Lemma loop_destination_seen ps pd items :
  forall del una exc seen logs del' una' exc' seen' logs',
    loop_destination join_s join_d rec ps pd items del una exc seen logs =
    (Ret (del', una', exc', seen'), logs') ->
    dict_keys seen' = (dict_keys seen ++ dict_keys items)%list.
Proof.
  induction items as [| [key value] rest IH]; simpl; intros * H.
  - apply ret_inv in H. destruct H as [H _]. inversion H; subst.
    rewrite app_nil_r. reflexivity.
  - inv_bind H. destruct a as [[d src'] value'].
    apply IH in H. rewrite H, dict_keys_app, <- app_assoc. reflexivity.
Qed.

Lemma loop_source_seen ps pd items :
  forall cop exc seen logs cop' exc' seen' logs',
    loop_source join_s join_d rec ps pd items cop exc seen logs =
    (Ret (cop', exc', seen'), logs') ->
    dict_keys seen' = (dict_keys seen ++ dict_keys items)%list.
Proof.
  induction items as [| [key value] rest IH]; simpl; intros * H.
  - apply ret_inv in H. destruct H as [H _]. inversion H; subst.
    rewrite app_nil_r. reflexivity.
  - inv_bind H. destruct a as [[d value'] dst'].
    apply IH in H. rewrite H, dict_keys_app, <- app_assoc. reflexivity.
Qed.

Lemma loop_both_seen ps pd items :
  forall destination del cop exs una exd seen logs
         del' cop' exs' una' exd' seen' destination' logs',
    loop_both join_s join_d rec ps pd items destination
      del cop exs una exd seen logs =
    (Ret (del', cop', exs', una', exd', seen', destination'), logs') ->
    dict_keys seen' = (dict_keys seen ++ dict_keys items)%list
    /\ destination' = pop_keys (dict_keys items) destination.
Proof.
  induction items as [| [key value] rest IH]; cbn [loop_both]; intros * H.
  - apply ret_inv in H. destruct H as [H _]. inversion H; subst.
    rewrite app_nil_r. split; reflexivity.
  - destruct (pop_default key destination) as [value_d destination1] eqn:Hpop.
    inv_bind H. destruct a as [[d value'] dst'].
    apply IH in H. destruct H as [H1 H2]. split.
    + rewrite H1, dict_keys_app, <- app_assoc. reflexivity.
    + rewrite H2. unfold pop_keys. simpl. rewrite Hpop. reflexivity.
Qed.
End Loops.


Ltac inv_run H :=
  repeat
    match type of H with
    | bind _ _ _ = (Ret _, _) =>
        let a := fresh "a" in
        let logs1 := fresh "logs" in
        let H1 := fresh "Hc" in
        apply bind_inv_Ret in H; destruct H as (a & logs1 & H1 & H);
        try (apply getitem_inv in H1; destruct H1 as [H1 <-]);
        try (apply pop_inv in H1; destruct H1 as [H1 <-]);
        try (apply ret_inv in H1; destruct H1 as [H1 <-])
    | ret _ _ = (Ret _, _) =>
        apply ret_inv in H; destruct H as [H ?]
    | (let '(_, _) := ?x in _) _ = _ => destruct x
    | (if ?b then _ else _) _ = _ => destruct b
    end.

Section Frame.
Variable fnmatch : string -> string -> bool.
Variable patterns : list string.
Variables join_s join_d : string -> string -> string.
Variable flag : bool.
Variable rec : tree -> tree -> string -> string -> M diffed.

Lemma body_excluded_unchanged source destination ps pd logs
    d source' destination' logs' :
  diffTrees_body fnmatch patterns join_s join_d flag rec
    source destination ps pd logs = (Ret (d, source', destination'), logs') ->
  excluded fnmatch patterns pd = true ->
  source' = source /\ destination' = destination.
Proof.
  unfold diffTrees_body. intros H Hex. rewrite Hex in H.
  destruct source, destination; inv_run H; inversion H; subst;
    try (inversion Hc; subst); split; reflexivity.
Qed.

Lemma body_leaf_unchanged source destination ps pd logs
    d source' destination' logs' :
  diffTrees_body fnmatch patterns join_s join_d flag rec
    source destination ps pd logs = (Ret (d, source', destination'), logs') ->
  (is_dict source = false -> source' = source)
  /\ (is_dict destination = false -> destination' = destination)
  /\ (forall a m, source = PyTuple a m -> destination' = destination).
Proof.
  unfold diffTrees_body. intros H.
  destruct source, destination; destruct (excluded fnmatch patterns pd);
    inv_run H; inversion H; subst; try (inversion Hc; subst);
    repeat split; intros; try discriminate; reflexivity.
Qed.

Lemma body_source_dir s_items destination ps pd logs
    d source' destination' logs' :
  diffTrees_body fnmatch patterns join_s join_d flag rec
    (PyDict s_items) destination ps pd logs =
    (Ret (d, source', destination'), logs') ->
  excluded fnmatch patterns pd = false ->
  exists items',
    source' = PyDict items'
    /\ Some (dict_keys items') = keys_without_self s_items.
Proof.
  unfold diffTrees_body, keys_without_self. intros H Hex. rewrite Hex in H.
  destruct destination; inv_run H; inversion H; subst.
  - apply loop_source_seen in Hc1. eexists. split; [reflexivity |].
    rewrite Hc0, Hc1. reflexivity.
  - inv_run Hc. inversion Hc; subst.
    apply loop_source_seen in Hc2. eexists. split; [reflexivity |].
    rewrite Hc1, Hc2. reflexivity.
  - apply loop_both_seen in Hc0. destruct Hc0 as [Hseen _].
    eexists. split; [reflexivity |].
    rewrite Hc, Hseen. reflexivity.
Qed.

Lemma body_destination_dir_absent d_items ps pd logs
    d source' destination' logs' :
  diffTrees_body fnmatch patterns join_s join_d flag rec
    PyNone (PyDict d_items) ps pd logs =
    (Ret (d, source', destination'), logs') ->
  excluded fnmatch patterns pd = false ->
  exists items',
    destination' = PyDict items'
    /\ Some (dict_keys items') = keys_without_self d_items.
Proof.
  unfold diffTrees_body, keys_without_self. intros H Hex. rewrite Hex in H.
  inv_run H; inversion H; subst.
  apply loop_destination_seen in Hc1. eexists. split; [reflexivity |].
  rewrite Hc0, Hc1. reflexivity.
Qed.

Lemma body_destination_dir_both s_items d_items ps pd logs
    d source' destination' logs' :
  diffTrees_body fnmatch patterns join_s join_d flag rec
    (PyDict s_items) (PyDict d_items) ps pd logs =
    (Ret (d, source', destination'), logs') ->
  excluded fnmatch patterns pd = false ->
  exists s_self s_rest items',
    dict_pop "." s_items = Some (s_self, s_rest)
    /\ destination' = PyDict items'
    /\ Some (dict_keys items') =
       keys_without_self (pop_keys (dict_keys s_rest) d_items).
Proof.
  unfold diffTrees_body, keys_without_self. intros H Hex. rewrite Hex in H.
  inv_run H; inversion H; subst.
  apply loop_both_seen in Hc0. destruct Hc0 as [_ ->].
  apply loop_destination_seen in Hc2.
  destruct a as [s_self s_rest]. exists s_self, s_rest. eexists.
  split; [exact Hc | split; [reflexivity |]].
  simpl in Hc1. rewrite Hc1, Hc2. reflexivity.
Qed.
End Frame.

(** ** Dicts *)

Lemma dict_mem_get {A} key (d : list (string * A)) :
  dict_mem key d = true -> exists v, dict_get key d = Some v.
Proof.
  induction d as [| [k v] rest IH]; simpl; [discriminate |].
  destruct (String.eqb k key); simpl; [eauto | exact IH].
Qed.

Lemma dict_mem_pop {A} key (d : list (string * A)) :
  dict_mem key d = true -> exists r, dict_pop key d = Some r.
Proof.
  induction d as [| [k v] rest IH]; simpl; [discriminate |].
  destruct (String.eqb k key); simpl; [eauto |].
  intros H. destruct (IH H) as [[x rest'] ->]. eauto.
Qed.

Lemma dict_not_mem_get {A} key (d : list (string * A)) :
  dict_mem key d = false -> dict_get key d = None.
Proof.
  induction d as [| [k v] rest IH]; simpl; [reflexivity |].
  destruct (String.eqb k key); simpl; [discriminate | exact IH].
Qed.

Lemma dict_not_mem_pop {A} key (d : list (string * A)) :
  dict_mem key d = false -> dict_pop key d = None.
Proof.
  induction d as [| [k v] rest IH]; simpl; [reflexivity |].
  destruct (String.eqb k key); simpl; [discriminate |].
  intros H. rewrite (IH H). reflexivity.
Qed.

Lemma dict_pop_Forall {A} (P : A -> Prop) key (d : list (string * A)) v rest :
  dict_pop key d = Some (v, rest) ->
  Forall (fun kv => P (snd kv)) d ->
  P v /\ Forall (fun kv => P (snd kv)) rest.
Proof.
  revert v rest. induction d as [| [k x] d' IH]; simpl; intros v rest H HF.
  - discriminate H.
  - inversion HF as [| ? ? Hx HF']; subst. destruct (String.eqb k key).
    + inversion H; subst. split; assumption.
    + destruct (dict_pop key d') as [[y rest'] |]; [| discriminate H].
      inversion H; subst. destruct (IH _ _ eq_refl HF') as [Hv Hrest].
      split; [exact Hv | constructor; assumption].
Qed.

Lemma dict_pop_mem_other {A} key key' (d : list (string * A)) v rest :
  dict_pop key d = Some (v, rest) ->
  String.eqb key' key = false ->
  dict_mem key' rest = dict_mem key' d.
Proof.
  revert v rest. induction d as [| [k x] d' IH]; simpl; intros v rest H Hne.
  - discriminate H.
  - destruct (String.eqb k key) eqn:Hk.
    + inversion H; subst. apply String.eqb_eq in Hk. subst k.
      rewrite String.eqb_sym, Hne. reflexivity.
    + destruct (dict_pop key d') as [[y rest'] |]; [| discriminate H].
      inversion H; subst. simpl. rewrite (IH _ _ eq_refl Hne). reflexivity.
Qed.

Lemma dict_pop_mem_sub {A} key key' (d : list (string * A)) v rest :
  dict_pop key d = Some (v, rest) ->
  dict_mem key' rest = true -> dict_mem key' d = true.
Proof.
  revert v rest. induction d as [| [k x] d' IH]; simpl; intros v rest H Hm.
  - discriminate H.
  - destruct (String.eqb k key) eqn:Hk.
    + inversion H; subst. rewrite Hm. apply orb_true_r.
    + destruct (dict_pop key d') as [[y rest'] |]; [| discriminate H].
      inversion H; subst. simpl in Hm.
      destruct (String.eqb k key'); [reflexivity |]. simpl in *.
      exact (IH _ _ eq_refl Hm).
Qed.

Lemma dict_pop_distinct {A} key (d : list (string * A)) v rest :
  dict_pop key d = Some (v, rest) ->
  distinct_keys d = true ->
  dict_mem key rest = false.
Proof.
  revert v rest. induction d as [| [k x] d' IH]; simpl; intros v rest H Hd.
  - discriminate H.
  - apply andb_true_iff in Hd. destruct Hd as [Hk Hd].
    destruct (String.eqb k key) eqn:Hkk.
    + inversion H; subst. apply String.eqb_eq in Hkk. subst k.
      apply negb_true_iff in Hk. exact Hk.
    + destruct (dict_pop key d') as [[y rest'] |]; [| discriminate H].
      inversion H; subst. simpl. rewrite Hkk. simpl. exact (IH _ _ eq_refl Hd).
Qed.

Lemma dict_mem_keys {A} key (d : list (string * A)) :
  dict_mem key d = true <-> In key (dict_keys d).
Proof.
  induction d as [| [k x] d' IH]; simpl.
  - split; [discriminate | contradiction].
  - rewrite orb_true_iff, IH, String.eqb_eq. reflexivity.
Qed.

Lemma pop_default_Forall (P : tree -> Prop) key (d : dict) :
  P PyNone ->
  Forall (fun kv => P (snd kv)) d ->
  P (fst (pop_default key d))
  /\ Forall (fun kv => P (snd kv)) (snd (pop_default key d)).
Proof.
  intros HN HF. unfold pop_default.
  destruct (dict_pop key d) as [[v rest] |] eqn:Hp; simpl.
  - exact (dict_pop_Forall P key d v rest Hp HF).
  - split; assumption.
Qed.

Lemma pop_default_mem_other key key' (d : dict) :
  String.eqb key' key = false ->
  dict_mem key' (snd (pop_default key d)) = dict_mem key' d.
Proof.
  intros Hne. unfold pop_default.
  destruct (dict_pop key d) as [[v rest] |] eqn:Hp; simpl; [| reflexivity].
  exact (dict_pop_mem_other key key' d v rest Hp Hne).
Qed.

Lemma pop_default_mem_sub key key' (d : dict) :
  dict_mem key' (snd (pop_default key d)) = true -> dict_mem key' d = true.
Proof.
  unfold pop_default.
  destruct (dict_pop key d) as [[v rest] |] eqn:Hp; simpl; [| trivial].
  exact (dict_pop_mem_sub key key' d v rest Hp).
Qed.

Lemma pop_keys_Forall (P : tree -> Prop) keys :
  forall d : dict,
    P PyNone ->
    Forall (fun kv => P (snd kv)) d ->
    Forall (fun kv => P (snd kv)) (pop_keys keys d).
Proof.
  induction keys as [| key keys IH]; simpl; intros d HN HF; [exact HF |].
  apply IH; [exact HN |]. apply pop_default_Forall; assumption.
Qed.

Lemma pop_keys_mem_other keys key' :
  forall d : dict,
    ~ In key' keys ->
    dict_mem key' (pop_keys keys d) = dict_mem key' d.
Proof.
  induction keys as [| key keys IH]; simpl; intros d Hn; [reflexivity |].
  unfold pop_keys in *. simpl. rewrite IH by tauto.
  apply pop_default_mem_other. apply String.eqb_neq. intros ->. tauto.
Qed.

Lemma pop_keys_mem_sub keys key' :
  forall d : dict,
    dict_mem key' (pop_keys keys d) = true -> dict_mem key' d = true.
Proof.
  induction keys as [| key keys IH]; simpl; intros d H; [exact H |].
  unfold pop_keys in *. simpl in H. apply IH in H.
  exact (pop_default_mem_sub key key' d H).
Qed.

(** ** Heights and self entries *)

Lemma tree_height_children items n :
  (tree_height (PyDict items) < S n)%nat ->
  Forall (fun kv => (tree_height (snd kv) < n)%nat) items.
Proof.
  simpl. intros H. apply PeanoNat.lt_S_n in H.
  induction items as [| kv rest IH]; simpl in *; constructor.
  - lia.
  - apply IH. lia.
Qed.

Lemma has_self_entries_children items :
  has_self_entries (PyDict items) = true ->
  dict_mem "." items = true
  /\ distinct_keys items = true
  /\ Forall (fun kv => has_self_entries (snd kv) = true) items.
Proof.
  simpl. rewrite !andb_true_iff. intros [[H1 H2] H3].
  repeat split; try assumption.
  rewrite forallb_forall in H3. apply Forall_forall. exact H3.
Qed.

(** ** Snapshots with self entries are diffed without [KeyError] *)

Lemma returns_or_exits_bind flag {A B} (c : M A) (f : A -> M B) logs :
  returns_or_exits flag (c logs) ->
  (forall a logs',
      c logs = (Ret a, logs') -> returns_or_exits flag (f a logs')) ->
  returns_or_exits flag (bind c f logs).
Proof.
  unfold returns_or_exits at 1, bind. intros Hc Hf.
  destruct (c logs) as [[a | e |] logs1]; simpl in Hc.
  - apply Hf. reflexivity.
  - exact Hc.
  - contradiction.
Qed.

Lemma returns_or_exits_ret flag {A} (a : A) logs :
  returns_or_exits flag (ret a logs).
Proof. exact I. Qed.

Lemma returns_or_exits_getitem flag key d logs :
  dict_mem key d = true -> returns_or_exits flag (getitem key d logs).
Proof.
  intros H. unfold getitem. destruct (dict_mem_get key d H) as [v ->]. exact I.
Qed.

Lemma returns_or_exits_pop flag key d logs :
  dict_mem key d = true -> returns_or_exits flag (pop key d logs).
Proof.
  intros H. unfold pop. destruct (dict_mem_pop key d H) as [r ->]. exact I.
Qed.

Lemma returns_or_exits_conflict flag m1 m2 logs :
  returns_or_exits flag (conflict flag m1 m2 logs).
Proof.
  unfold conflict. destruct flag; [| exact I].
  unfold returns_or_exits. simpl. split; reflexivity.
Qed.

Lemma fits_None n t : fits n t -> fits n PyNone.
Proof. intros [_ H]. split; [reflexivity | simpl; lia]. Qed.

Section LoopsReturn.
Variables join_s join_d : string -> string -> string.
Variable flag : bool.
Variable rec : tree -> tree -> string -> string -> M diffed.
Variable n : nat.
Hypothesis rec_ok :
  forall s d ps pd logs,
    fits n s -> fits n d -> returns_or_exits flag (rec s d ps pd logs).

Lemma loop_destination_returns ps pd items :
  forall del una exc seen logs,
    Forall (fun kv => fits n (snd kv)) items ->
    returns_or_exits flag
      (loop_destination join_s join_d rec ps pd items del una exc seen logs).
Proof.
  induction items as [| [key value] rest IH]; simpl; intros * HF.
  - exact I.
  - inversion HF as [| ? ? Hv HF']; subst. simpl in Hv.
    apply returns_or_exits_bind.
    + apply rec_ok; [exact (fits_None _ _ Hv) | exact Hv].
    + intros [[d s'] v'] logs' _. apply IH. exact HF'.
Qed.

Lemma loop_source_returns ps pd items :
  forall cop exc seen logs,
    Forall (fun kv => fits n (snd kv)) items ->
    returns_or_exits flag
      (loop_source join_s join_d rec ps pd items cop exc seen logs).
Proof.
  induction items as [| [key value] rest IH]; simpl; intros * HF.
  - exact I.
  - inversion HF as [| ? ? Hv HF']; subst. simpl in Hv.
    apply returns_or_exits_bind.
    + apply rec_ok; [exact Hv | exact (fits_None _ _ Hv)].
    + intros [[d s'] v'] logs' _. apply IH. exact HF'.
Qed.

Lemma loop_both_returns ps pd items :
  forall destination del cop exs una exd seen logs,
    Forall (fun kv => fits n (snd kv)) items ->
    Forall (fun kv => fits n (snd kv)) destination ->
    returns_or_exits flag
      (loop_both join_s join_d rec ps pd items destination
         del cop exs una exd seen logs).
Proof.
  induction items as [| [key value] rest IH]; cbn [loop_both];
    intros * HF HD.
  - exact I.
  - inversion HF as [| ? ? Hv HF']; subst. simpl in Hv.
    destruct (pop_default_Forall (fits n) key destination
                (fits_None _ _ Hv) HD) as [Hp HD'].
    destruct (pop_default key destination) as [value_d destination1].
    simpl in Hp, HD'.
    apply returns_or_exits_bind.
    + apply rec_ok; assumption.
    + intros [[d s'] v'] logs' _. apply IH; assumption.
Qed.
End LoopsReturn.

Lemma fits_children n items :
  fits (S n) (PyDict items) ->
  dict_mem "." items = true
  /\ distinct_keys items = true
  /\ Forall (fun kv => fits n (snd kv)) items
  /\ fits n PyNone.
Proof.
  intros [Hs Hh].
  destruct (has_self_entries_children items Hs) as (H1 & H2 & H3).
  pose proof (tree_height_children items n Hh) as H4.
  repeat split; try assumption.
  - apply Forall_forall. intros kv Hin. rewrite Forall_forall in H3, H4.
    split; [apply H3 | apply H4]; exact Hin.
  - simpl in *. lia.
Qed.

Section BodyReturns.
Variable fnmatch : string -> string -> bool.
Variable patterns : list string.
Variables join_s join_d : string -> string -> string.
Variable flag : bool.

Lemma body_returns rec n :
  (forall s d ps pd logs,
      fits n s -> fits n d -> returns_or_exits flag (rec s d ps pd logs)) ->
  forall source destination ps pd logs,
    fits (S n) source -> fits (S n) destination ->
    returns_or_exits flag
      (diffTrees_body fnmatch patterns join_s join_d flag rec
         source destination ps pd logs).
Proof.
  intros Hrec source destination ps pd logs Hs Hd. unfold diffTrees_body.
  destruct source as [| sa sm | s_items], destination as [| da dm | d_items];
    destruct (excluded fnmatch patterns pd);
    try apply returns_or_exits_ret;
    try (destruct (dm <? sm); apply returns_or_exits_ret).
  - (* absent, directory *)
    destruct (fits_children _ _ Hd) as (Hm & Hk & HF & HN).
    apply returns_or_exits_bind; [apply returns_or_exits_getitem, Hm |].
    intros self logs1 _.
    apply returns_or_exits_bind; [apply returns_or_exits_pop, Hm |].
    intros [v rest] logs2 Hp. apply pop_inv in Hp. destruct Hp as [Hp _].
    apply returns_or_exits_bind.
    + apply (loop_destination_returns _ _ _ _ n Hrec).
      exact (proj2 (dict_pop_Forall (fits n) _ _ _ _ Hp HF)).
    + intros [[[? ?] ?] ?] logs3 _. exact I.
  - (* file, directory *)
    apply returns_or_exits_bind; [apply returns_or_exits_conflict |].
    intros. exact I.
  - (* directory, absent *)
    destruct (fits_children _ _ Hs) as (Hm & Hk & HF & HN).
    apply returns_or_exits_bind; [apply returns_or_exits_getitem, Hm |].
    intros self logs1 _.
    apply returns_or_exits_bind; [apply returns_or_exits_pop, Hm |].
    intros [v rest] logs2 Hp. apply pop_inv in Hp. destruct Hp as [Hp _].
    apply returns_or_exits_bind.
    + apply (loop_source_returns _ _ _ _ n Hrec).
      exact (proj2 (dict_pop_Forall (fits n) _ _ _ _ Hp HF)).
    + intros [[? ?] ?] logs3 _. exact I.
  - (* directory, file *)
    destruct (fits_children _ _ Hs) as (Hm & Hk & HF & HN).
    apply returns_or_exits_bind; [| intros [? ?] ? _; exact I].
    apply returns_or_exits_bind; [apply returns_or_exits_getitem, Hm |].
    intros self logs1 _.
    apply returns_or_exits_bind; [apply returns_or_exits_pop, Hm |].
    intros [v rest] logs2 Hp. apply pop_inv in Hp. destruct Hp as [Hp _].
    apply returns_or_exits_bind.
    + apply (loop_source_returns _ _ _ _ n Hrec).
      exact (proj2 (dict_pop_Forall (fits n) _ _ _ _ Hp HF)).
    + intros [[? ?] ?] logs3 _.
      apply returns_or_exits_bind; [apply returns_or_exits_conflict |].
      intros. exact I.
  - (* directory, directory *)
    destruct (fits_children _ _ Hs) as (Hm & Hk & HF & HN).
    destruct (fits_children _ _ Hd) as (Hm' & Hk' & HF' & _).
    apply returns_or_exits_bind; [apply returns_or_exits_pop, Hm |].
    intros [v rest] logs2 Hp. apply pop_inv in Hp. destruct Hp as [Hp _].
    pose proof (proj2 (dict_pop_Forall (fits n) _ _ _ _ Hp HF)) as HFrest.
    apply returns_or_exits_bind.
    + apply (loop_both_returns _ _ _ _ n Hrec); assumption.
    + intros [[[[[[del cop] exs] una] exd] seen] d_left] logs3 Hl.
      apply loop_both_seen in Hl. destruct Hl as [_ ->]. simpl snd.
      assert (Hdot : dict_mem "." (pop_keys (dict_keys rest) d_items) = true).
      { rewrite pop_keys_mem_other; [exact Hm' |].
        intros Hin. apply dict_mem_keys in Hin.
        rewrite (dict_pop_distinct _ _ _ _ Hp Hk) in Hin. discriminate Hin. }
      apply returns_or_exits_bind; [apply returns_or_exits_pop, Hdot |].
      intros [v' rest'] logs4 Hp'. apply pop_inv in Hp'.
      destruct Hp' as [Hp' _].
      apply returns_or_exits_bind.
      * apply (loop_destination_returns _ _ _ _ n Hrec).
        refine (proj2 (dict_pop_Forall (fits n) _ _ _ _ Hp' _)).
        apply pop_keys_Forall; assumption.
      * intros [[[? ?] ?] ?] logs5 _. exact I.
Qed.

(** Snapshots with their self entries and enough fuel: the call returns,
    unless the flag is set and it exits on a conflict. *)
Lemma diffTrees_fuel_returns fuel :
  forall source destination ps pd logs,
    fits fuel source -> fits fuel destination ->
    returns_or_exits flag
      (diffTrees_fuel fnmatch patterns join_s join_d flag fuel
         source destination ps pd logs).
Proof.
  induction fuel as [| n IH]; intros * Hs Hd.
  - destruct Hs as [_ Hs]. lia.
  - simpl. apply (body_returns _ n); assumption.
Qed.

Lemma diffTrees_returns source destination ps pd logs :
  has_self_entries source = true ->
  has_self_entries destination = true ->
  returns_or_exits flag
    (diffTrees fnmatch patterns join_s join_d flag
       source destination ps pd logs).
Proof.
  intros Hs Hd. unfold diffTrees. apply diffTrees_fuel_returns; split;
    try assumption; lia.
Qed.
End BodyReturns.

(** ** Without the flag no call exits *)

Lemma warnings_only_refl logs : warnings_only logs logs.
Proof. exists []. split; [symmetry; apply app_nil_r | constructor]. Qed.

Lemma warnings_only_trans l1 l2 l3 :
  warnings_only l1 l2 -> warnings_only l2 l3 -> warnings_only l1 l3.
Proof.
  intros (n1 & -> & H1) (n2 & -> & H2). exists (n1 ++ n2)%list.
  split; [symmetry; apply app_assoc | apply Forall_app; split; assumption].
Qed.

Lemma no_abort_bind {A B} (c : M A) (f : A -> M B) logs :
  no_abort logs (c logs) ->
  (forall a logs', no_abort logs' (f a logs')) ->
  no_abort logs (bind c f logs).
Proof.
  unfold no_abort, bind. intros [Hc Hw] Hf.
  destruct (c logs) as [[a | e |] logs1]; simpl in *.
  - destruct (Hf a logs1) as [H1 H2]. split; [exact H1 |].
    exact (warnings_only_trans _ _ _ Hw H2).
  - split; [| assumption].
    intros Heq. apply Hc. inversion Heq. reflexivity.
  - split; [discriminate | assumption].
Qed.

Lemma no_abort_ret {A} (a : A) logs : no_abort logs (ret a logs).
Proof. split; [discriminate | apply warnings_only_refl]. Qed.

Lemma no_abort_getitem key d logs : no_abort logs (getitem key d logs).
Proof.
  unfold getitem. destruct (dict_get key d);
    (split; [discriminate | apply warnings_only_refl]).
Qed.

Lemma no_abort_pop key d logs : no_abort logs (pop key d logs).
Proof.
  unfold pop. destruct (dict_pop key d);
    (split; [discriminate | apply warnings_only_refl]).
Qed.

Lemma no_abort_conflict m1 m2 logs : no_abort logs (conflict false m1 m2 logs).
Proof.
  split; [discriminate |]. exists [(WARNING, m2)].
  split; [reflexivity | repeat constructor].
Qed.

Section LoopsNoAbort.
Variables join_s join_d : string -> string -> string.
Variable rec : tree -> tree -> string -> string -> M diffed.
Hypothesis rec_no_abort :
  forall s d ps pd logs, no_abort logs (rec s d ps pd logs).

Lemma loop_destination_no_abort ps pd items :
  forall del una exc seen logs,
    no_abort logs
      (loop_destination join_s join_d rec ps pd items del una exc seen logs).
Proof.
  induction items as [| [key value] rest IH]; simpl; intros.
  - apply no_abort_ret.
  - apply no_abort_bind; [apply rec_no_abort |].
    intros [[d s'] v'] logs'. apply IH.
Qed.

Lemma loop_source_no_abort ps pd items :
  forall cop exc seen logs,
    no_abort logs (loop_source join_s join_d rec ps pd items cop exc seen logs).
Proof.
  induction items as [| [key value] rest IH]; simpl; intros.
  - apply no_abort_ret.
  - apply no_abort_bind; [apply rec_no_abort |].
    intros [[d s'] v'] logs'. apply IH.
Qed.

Lemma loop_both_no_abort ps pd items :
  forall destination del cop exs una exd seen logs,
    no_abort logs
      (loop_both join_s join_d rec ps pd items destination
         del cop exs una exd seen logs).
Proof.
  induction items as [| [key value] rest IH]; cbn [loop_both]; intros.
  - apply no_abort_ret.
  - destruct (pop_default key destination) as [value_d destination1].
    apply no_abort_bind; [apply rec_no_abort |].
    intros [[d s'] v'] logs'. apply IH.
Qed.
End LoopsNoAbort.

Section NoAbort.
Variable fnmatch : string -> string -> bool.
Variable patterns : list string.
Variables join_s join_d : string -> string -> string.

Lemma body_no_abort rec :
  (forall s d ps pd logs, no_abort logs (rec s d ps pd logs)) ->
  forall source destination ps pd logs,
    no_abort logs
      (diffTrees_body fnmatch patterns join_s join_d false rec
         source destination ps pd logs).
Proof.
  intros Hrec source destination ps pd logs. unfold diffTrees_body.
  destruct source as [| sa sm | s_items], destination as [| da dm | d_items];
    destruct (excluded fnmatch patterns pd);
    try apply no_abort_ret;
    try (destruct (dm <? sm); apply no_abort_ret);
    repeat
      (first
         [ apply no_abort_ret
         | apply no_abort_getitem
         | apply no_abort_pop
         | apply no_abort_conflict
         | apply loop_destination_no_abort; exact Hrec
         | apply loop_source_no_abort; exact Hrec
         | apply loop_both_no_abort; exact Hrec
         | apply no_abort_bind; [| intros ? ?]
         | match goal with
           | |- no_abort _ ((let '(_, _) := ?x in _) _) => destruct x
           end ]).
Qed.

Lemma diffTrees_fuel_no_abort fuel :
  forall source destination ps pd logs,
    no_abort logs
      (diffTrees_fuel fnmatch patterns join_s join_d false fuel
         source destination ps pd logs).
Proof.
  induction fuel as [| n IH]; intros; simpl.
  - split; [discriminate | apply warnings_only_refl].
  - apply body_no_abort. exact IH.
Qed.
End NoAbort.

(** ** Against an absent destination nothing is logged *)

Lemma quiet_bind {A B} (c : M A) (f : A -> M B) :
  quiet c -> (forall a, quiet (f a)) -> quiet (bind c f).
Proof.
  intros Hc Hf logs. unfold bind. specialize (Hc logs).
  destruct (c logs) as [[a | e |] logs1]; simpl in *; subst; try reflexivity.
  apply Hf.
Qed.

Lemma quiet_ret {A} (a : A) : quiet (ret a).
Proof. intros logs. reflexivity. Qed.

Lemma quiet_getitem key d : quiet (getitem key d).
Proof. intros logs. unfold getitem. destruct (dict_get key d); reflexivity. Qed.

Lemma quiet_pop key d : quiet (pop key d).
Proof. intros logs. unfold pop. destruct (dict_pop key d); reflexivity. Qed.

Section Quiet.
Variable fnmatch : string -> string -> bool.
Variable patterns : list string.
Variables join_s join_d : string -> string -> string.
Variable flag : bool.

Lemma loop_source_quiet rec ps pd items :
  (forall s ps pd, quiet (rec s PyNone ps pd)) ->
  forall cop exc seen,
    quiet (loop_source join_s join_d rec ps pd items cop exc seen).
Proof.
  intros Hrec. induction items as [| [key value] rest IH]; simpl; intros.
  - apply quiet_ret.
  - apply quiet_bind; [apply Hrec |]. intros [[d s'] v']. apply IH.
Qed.

Lemma diffTrees_fuel_quiet fuel :
  forall source ps pd,
    quiet (diffTrees_fuel fnmatch patterns join_s join_d flag fuel
             source PyNone ps pd).
Proof.
  induction fuel as [| n IH]; intros; simpl.
  - intros logs. reflexivity.
  - unfold diffTrees_body.
    destruct source as [| sa sm | s_items];
      destruct (excluded fnmatch patterns pd); try apply quiet_ret.
    apply quiet_bind; [apply quiet_getitem | intros self].
    apply quiet_bind; [apply quiet_pop | intros p].
    apply quiet_bind; [apply loop_source_quiet; exact IH |].
    intros [[? ?] ?]. apply quiet_ret.
Qed.

Lemma diffTrees_unfold source destination ps pd logs :
  diffTrees fnmatch patterns join_s join_d flag source destination ps pd logs =
  diffTrees_body fnmatch patterns join_s join_d flag
    (diffTrees_fuel fnmatch patterns join_s join_d flag
       (Nat.max (tree_height source) (tree_height destination)))
    source destination ps pd logs.
Proof. reflexivity. Qed.

(** Directory over file, lines 180-202, when the call returns. *)
Lemma diff_dir_file_inv s_items da dm ps pd logs v logs' :
  excluded fnmatch patterns pd = false ->
  diffTrees fnmatch patterns join_s join_d flag
    (PyDict s_items) (PyTuple da dm) ps pd logs = (Ret v, logs') ->
  exists copy_ excluded_ seen,
    v = (mkDiff (PyTuple da dm) (PyDict copy_) (PyDict excluded_)
           PyNone PyNone,
         PyDict seen, PyTuple da dm)
    /\ logs' =
       (logs ++ [ (WARNING,
                   format2 "Overwriting file '" pd "' with directory '" ps
                     "'") ])%list.
Proof.
  intros Hex H. rewrite diffTrees_unfold in H.
  unfold diffTrees_body in H.
  rewrite Hex in H. inv_run H. inv_run Hc. inversion Hc; subst.
  pose proof (loop_source_quiet _ ps pd (snd a0)
                (diffTrees_fuel_quiet
                   (Nat.max (tree_height (PyDict s_items))
                      (tree_height (PyTuple da dm))))
                (self_entry a) (self_entry PyNone) [] logs) as Hq.
  rewrite Hc2 in Hq. simpl in Hq. subst logs1.
  unfold conflict in Hc3. destruct flag.
  - unfold bind, criticalLogExit, bind, logging_log, raise in Hc3.
    discriminate Hc3.
  - unfold logging_log in Hc3. inversion Hc3; subst.
    do 3 eexists. split; reflexivity.
Qed.
End Quiet.

(** ** Bucketing *)

Lemma py_int_nonneg (t : Q) : (0 <= t)%Q -> py_int t = Qfloor t.
Proof.
  destruct t as [n d]. unfold Qle, py_int, Qfloor. simpl. intros H.
  apply Z.quot_div_nonneg; lia.
Qed.

Lemma py_int_inject_Z z : py_int (inject_Z z) = z.
Proof. unfold py_int, inject_Z. simpl. apply Z.quot_1_r. Qed.

Lemma Qfloor_div_60 (t : Q) : Qfloor (t / 60) = Qfloor t / 60.
Proof.
  destruct t as [n d]. unfold Qdiv, Qmult, Qinv, Qfloor. simpl.
  rewrite Z.mul_1_r, Pos2Z.inj_mul. symmetry. apply Z.div_div; lia.
Qed.

Lemma bucket_floor (t : Q) : (0 <= t)%Q -> bucket t = 60 * Qfloor (t / 60).
Proof.
  intros H. unfold bucket. rewrite (py_int_nonneg t H), Qfloor_div_60.
  reflexivity.
Qed.

Lemma bucket_floor_int z : bucket (inject_Z z) = 60 * Qfloor (inject_Z z / 60).
Proof.
  unfold bucket. rewrite py_int_inject_Z, Qfloor_div_60, Qfloor_Z.
  reflexivity.
Qed.

(** ** Trees by induction *)

Lemma tree_ind' (P : tree -> Prop) :
  P PyNone ->
  (forall atime mtime, P (PyTuple atime mtime)) ->
  (forall items, Forall (fun kv => P (snd kv)) items -> P (PyDict items)) ->
  forall t, P t.
Proof.
  intros HN HT HD. fix IH 1. intros [| a m | items].
  - exact HN.
  - apply HT.
  - apply HD. induction items as [| kv rest IHr]; constructor.
    + apply IH.
    + exact IHr.
Qed.

Lemma dict_get_mem {A} key (d : list (string * A)) v :
  dict_get key d = Some v -> dict_mem key d = true.
Proof.
  induction d as [| [k x] rest IH]; simpl; [discriminate |].
  destruct (String.eqb k key); simpl; [reflexivity | exact IH].
Qed.

Lemma dict_pop_mem {A} key (d : list (string * A)) r :
  dict_pop key d = Some r -> dict_mem key d = true.
Proof.
  intros H. destruct (dict_mem key d) eqn:Hm; [reflexivity |].
  rewrite (dict_not_mem_pop key d Hm) in H. discriminate H.
Qed.

Lemma snapshot_has_self_entries t : snapshot t -> has_self_entries t = true.
Proof.
  induction t as [| a m | items IH] using tree_ind'; intros H;
    [reflexivity | reflexivity |].
  inversion H as [| | st items' Hget Hd HF]; subst. simpl.
  rewrite (dict_get_mem _ _ _ Hget), Hd. simpl.
  apply forallb_forall. intros kv Hin.
  rewrite Forall_forall in IH, HF. apply IH; [exact Hin | apply HF, Hin].
Qed.

(** ** [dict_setitem] *)

Lemma dict_setitem_get_other {A} key key' (v : A) d :
  String.eqb key key' = false ->
  dict_get key' (dict_setitem key v d) = dict_get key' d.
Proof.
  intros Hne. induction d as [| [k x] rest IH]; simpl.
  - rewrite Hne. reflexivity.
  - destruct (String.eqb k key) eqn:Hk; simpl.
    + apply String.eqb_eq in Hk. subst k. rewrite Hne. reflexivity.
    + destruct (String.eqb k key'); [reflexivity | exact IH].
Qed.

Lemma dict_setitem_mem {A} key key' (v : A) d :
  dict_mem key' (dict_setitem key v d) = String.eqb key key' || dict_mem key' d.
Proof.
  induction d as [| [k x] rest IH]; simpl.
  - reflexivity.
  - destruct (String.eqb k key) eqn:Hk; simpl.
    + apply String.eqb_eq in Hk. subst k.
      destruct (String.eqb key key'); reflexivity.
    + rewrite IH. destruct (String.eqb k key'), (String.eqb key key');
        reflexivity.
Qed.

Lemma dict_setitem_distinct {A} key (v : A) d :
  distinct_keys d = true -> distinct_keys (dict_setitem key v d) = true.
Proof.
  induction d as [| [k x] rest IH]; simpl; [reflexivity |].
  intros H. apply andb_true_iff in H. destruct H as [Hk Hd].
  destruct (String.eqb k key) eqn:Hkk; simpl.
  - rewrite Hk, Hd. reflexivity.
  - rewrite dict_setitem_mem, String.eqb_sym, Hkk, (IH Hd). simpl.
    rewrite Hk. reflexivity.
Qed.

Lemma dict_setitem_Forall {A} (P : A -> Prop) key v d :
  P v -> Forall (fun kv => P (snd kv)) d ->
  Forall (fun kv => P (snd kv)) (dict_setitem key v d).
Proof.
  intros Hv. induction d as [| [k x] rest IH]; simpl; intros HF.
  - constructor; [exact Hv | constructor].
  - inversion HF; subst. destruct (String.eqb k key); constructor;
      try assumption. apply IH. assumption.
Qed.

(** ** The snapshot builder *)

Section SnapshotBuilder.
Context {fs : FileSystem}.

Lemma listing_loop_snapshot rec st0 :
  (forall root st logs t logs',
      rec root st logs = (Ret t, logs') -> snapshot t) ->
  forall steps root tree_ logs r logs',
    listing_loop rec root steps tree_ logs = (Ret r, logs') ->
    snapshot_items st0 tree_ -> snapshot_items st0 r.
Proof.
  intros Hrec. induction steps as [| step rest IH]; simpl;
    intros root tree_ logs r logs' H Ht.
  - apply ret_inv in H. destruct H as [<- _]. exact Ht.
  - inv_bind H. destruct a as [[filename |] st]; simpl in H;
      [| discriminate H].
    destruct (String.eqb filename "." || String.eqb filename "..") eqn:Hdot.
    + exact (IH _ _ _ _ _ H Ht).
    + inv_bind H. apply Hrec in Hc0. apply (IH _ _ _ _ _ H).
      apply orb_false_iff in Hdot. destruct Hdot as [Hdot _].
      destruct Ht as (H1 & H2 & H3). repeat split.
      * rewrite dict_setitem_get_other; assumption.
      * apply dict_setitem_distinct. exact H2.
      * apply dict_setitem_Forall; assumption.
Qed.

Lemma getFilesTree_body_snapshot rec root st followLinks logs t logs' :
  (forall root st logs t logs',
      rec root st logs = (Ret t, logs') -> snapshot t) ->
  getFilesTree_body rec root st followLinks logs = (Ret t, logs') ->
  snapshot t
  /\ (S_ISLNK (st_mode st) = false -> S_ISDIR (st_mode st) = true ->
      exists items,
        t = PyDict items /\ dict_get "." items = Some (bucketed_times st))
  /\ (S_ISLNK (st_mode st) = false -> S_ISDIR (st_mode st) = false ->
      t = bucketed_times st).
Proof.
  intros Hrec H. unfold getFilesTree_body in H.
  destruct (S_ISLNK (st_mode st)).
  - split; [| split; intros; discriminate].
    destruct (negb followLinks).
    + inv_bind H. apply ret_inv in H. destruct H as [<- _]. constructor.
    + inv_bind H. inv_bind H. destruct a0 as [[p s] |].
      * exact (Hrec _ _ _ _ _ H).
      * apply ret_inv in H. destruct H as [<- _]. constructor.
  - destruct (S_ISDIR (st_mode st)).
    + inv_bind H. apply ret_inv in H. destruct H as [<- _].
      apply (listing_loop_snapshot rec st Hrec) in Hc.
      * destruct Hc as (H1 & H2 & H3). split; [| split].
        -- econstructor; eassumption.
        -- intros _ _. eexists. split; [reflexivity | exact H1].
        -- intros; discriminate.
      * repeat split. repeat constructor.
    + destruct (S_ISREG (st_mode st)); [| discriminate H].
      apply ret_inv in H. destruct H as [<- _]. split; [| split].
      * unfold bucketed_times. constructor.
      * intros; discriminate.
      * reflexivity.
Qed.

Lemma getFilesTree_snapshot fuel :
  forall root st followLinks logs t logs',
    _getFilesTree fuel root st followLinks logs = (Ret t, logs') ->
    snapshot t.
Proof.
  induction fuel as [| n IH]; simpl;
    intros root st followLinks logs t logs' H; [discriminate H |].
  apply getFilesTree_body_snapshot in H; [exact (proj1 H) |].
  intros. eapply IH. eassumption.
Qed.

Lemma getFilesTree_public_snapshot fuel root followLinks logs t logs' :
  getFilesTree fuel root followLinks logs = (Ret t, logs') -> snapshot t.
Proof.
  unfold getFilesTree. intros H. inv_bind H.
  exact (getFilesTree_snapshot _ _ _ _ _ _ _ H).
Qed.
End SnapshotBuilder.

(** ** A dict without its ["."] entry *)

Section WithoutSelf.
Variable fnmatch : string -> string -> bool.
Variable patterns : list string.
Variables join_s join_d : string -> string -> string.
Variable flag : bool.

(** Lines 157, 182 and 217: a source directory. *)
Lemma diff_source_without_self s_items destination ps pd logs :
  excluded fnmatch patterns pd = false ->
  dict_mem "." s_items = false ->
  diffTrees fnmatch patterns join_s join_d flag
    (PyDict s_items) destination ps pd logs = (Raise (KeyError "."), logs).
Proof.
  intros Hex Hm. rewrite diffTrees_unfold. unfold diffTrees_body.
  rewrite Hex. destruct destination; unfold bind, getitem, pop;
    rewrite ?(dict_not_mem_get _ _ Hm), ?(dict_not_mem_pop _ _ Hm);
    reflexivity.
Qed.

(** Line 75: a destination directory without source. *)
Lemma diff_destination_without_self d_items ps pd logs :
  excluded fnmatch patterns pd = false ->
  dict_mem "." d_items = false ->
  diffTrees fnmatch patterns join_s join_d flag
    PyNone (PyDict d_items) ps pd logs = (Raise (KeyError "."), logs).
Proof.
  intros Hex Hm. rewrite diffTrees_unfold. unfold diffTrees_body.
  rewrite Hex. unfold bind, getitem. rewrite (dict_not_mem_get _ _ Hm).
  reflexivity.
Qed.

(** Line 229: a destination directory against a source directory; the loop
    of lines 218-228 runs first and may raise on its own. *)
Lemma diff_both_without_self s_items d_items ps pd logs v logs' :
  excluded fnmatch patterns pd = false ->
  dict_mem "." d_items = false ->
  diffTrees fnmatch patterns join_s join_d flag
    (PyDict s_items) (PyDict d_items) ps pd logs <> (Ret v, logs').
Proof.
  intros Hex Hm H. rewrite diffTrees_unfold in H. unfold diffTrees_body in H.
  rewrite Hex in H. inv_run H.
  apply loop_both_seen in Hc0. destruct Hc0 as [_ ->].
  apply dict_pop_mem, pop_keys_mem_sub in Hc1.
  rewrite Hm in Hc1. discriminate Hc1.
Qed.
End WithoutSelf.

(** ** The matcher leaves the groups alone that a pattern does not name *)

Lemma run_frame r :
  forall s pos g (k : cont) res,
    run r s pos g k = Some res ->
    exists s' pos' g',
      k s' pos' g' = Some res
      /\ forall n, ~ In n (writes r) -> g' n = g n.
Proof.
  induction r as [| p | r1 IH1 r2 IH2 | r1 IH1 r2 IH2 | r1 IH1
                  | name r1 IH1 | name r1 IH1 r2 IH2 | |];
    simpl; intros s pos g k res H.
  - eauto.
  - destruct s as [| c s']; [discriminate H |].
    destruct (p c); [eauto | discriminate H].
  - apply IH1 in H. destruct H as (s1 & pos1 & g1 & H & F1).
    apply IH2 in H. destruct H as (s2 & pos2 & g2 & H & F2).
    exists s2, pos2, g2. split; [exact H |].
    intros n Hn. rewrite in_app_iff in Hn.
    rewrite F2, F1 by tauto. reflexivity.
  - unfold or_else in H.
    destruct (run r1 s pos g k) as [x |] eqn:H1.
    + inversion H; subst. apply IH1 in H1.
      destruct H1 as (s1 & pos1 & g1 & H1 & F1).
      exists s1, pos1, g1. split; [exact H1 |].
      intros n Hn. rewrite in_app_iff in Hn. apply F1. tauto.
    + apply IH2 in H. destruct H as (s2 & pos2 & g2 & H & F2).
      exists s2, pos2, g2. split; [exact H |].
      intros n Hn. rewrite in_app_iff in Hn. apply F2. tauto.
  - revert H. generalize (List.length s). intros n. revert s pos g.
    induction n as [| n IHn]; intros s pos g H.
    + eauto.
    + unfold or_else in H.
      match type of H with
      | match ?x with _ => _ end = _ => destruct x as [y |] eqn:H1
      end.
      * inversion H; subst. apply IH1 in H1.
        destruct H1 as (s1 & pos1 & g1 & H1 & F1).
        destruct (List.length s1 <? List.length s)%nat; [| discriminate H1].
        apply IHn in H1. destruct H1 as (s2 & pos2 & g2 & H2 & F2).
        exists s2, pos2, g2. split; [exact H2 |].
        intros m Hm. rewrite F2, F1 by assumption. reflexivity.
      * eauto.
  - apply IH1 in H. destruct H as (s1 & pos1 & g1 & H & F1).
    eexists s1, pos1, _. split; [exact H |].
    intros n Hn. unfold set_group.
    destruct (String.eqb n name) eqn:Hname.
    + apply String.eqb_eq in Hname. subst. exfalso. apply Hn. left. reflexivity.
    + apply F1. intros Hin. apply Hn. right. exact Hin.
  - destruct (g name).
    + apply IH1 in H. destruct H as (s1 & pos1 & g1 & H & F1).
      exists s1, pos1, g1. split; [exact H |].
      intros n Hn. rewrite in_app_iff in Hn. apply F1. tauto.
    + apply IH2 in H. destruct H as (s2 & pos2 & g2 & H & F2).
      exists s2, pos2, g2. split; [exact H |].
      intros n Hn. rewrite in_app_iff in Hn. apply F2. tauto.
  - destruct (pos =? 0)%nat; [eauto | discriminate H].
  - destruct s as [| c [| c' s']]; [eauto | | discriminate H].
    destruct (Ascii.eqb c newline); [eauto | discriminate H].
Qed.

Lemma end_of_line_inv s pos g res : end_of_line s pos g = Some res -> res = g.
Proof.
  unfold end_of_line. destruct s; intros H; inversion H. reflexivity.
Qed.

(** ** The three parts of [RE_LS_TO_STAT] *)

Ltac type_found :=
  let H := fresh "H" in
  let Hk := fresh "Hk" in
  intros H; simpl in H;
  match type of H with
  | match ?x with _ => _ end = _ =>
      destruct x eqn:Hk;
      [ inversion H; subst; do 3 eexists;
        split; [| split; [reflexivity | exact Hk]]; simpl; tauto
      | discriminate H ]
  | _ =>
      do 3 eexists;
      split; [| split; [reflexivity | exact H]]; simpl; tauto
  end.

Lemma run_ls_type s pos g (k : cont) res :
  run ls_type s pos g k = Some res ->
  exists name c s',
    In (name, c) ls_types
    /\ s = c :: s'
    /\ k s' (S pos) (set_group name [c] g) = Some res.
Proof.
  unfold ls_type, chr. cbn [run]. destruct s as [| c s']; [discriminate |].
  replace (S pos - pos)%nat with 1%nat by lia. cbn [firstn].
  unfold or_else, ls_types.
  destruct (Ascii.eqb_spec "-" c) as [<- | _]; [type_found |].
  destruct (Ascii.eqb_spec "b" c) as [<- | _]; [type_found |].
  destruct (Ascii.eqb_spec "c" c) as [<- | _]; [type_found |].
  destruct (Ascii.eqb_spec "d" c) as [<- | _]; [type_found |].
  destruct (Ascii.eqb_spec "l" c) as [<- | _]; [type_found |].
  destruct (Ascii.eqb_spec "p" c) as [<- | _]; [type_found |].
  destruct (Ascii.eqb_spec "s" c) as [<- | _]; [type_found | discriminate].
Qed.

Lemma run_Cond name yes no s pos g k :
  run (Cond name yes no) s pos g k =
  match g name with
  | Some _ => run yes s pos g k
  | None => run no s pos g k
  end.
Proof. reflexivity. Qed.

Lemma run_Grp name r s pos g k :
  run (Grp name r) s pos g k =
  run r s pos g
    (fun s' pos' g' => k s' pos' (set_group name (firstn (pos' - pos) s) g')).
Proof. reflexivity. Qed.

Lemma run_Seq r1 r2 s pos g k :
  run (Seq r1 r2) s pos g k =
  run r1 s pos g (fun s' pos' g' => run r2 s' pos' g' k).
Proof. reflexivity. Qed.

Lemma run_Bol s g k : run Bol s 0 g k = k s 0%nat g.
Proof. reflexivity. Qed.

Lemma writes_ls_fields :
  writes ls_fields = ["dirsize"; "st_size"; "10"; "st_mtime"].
Proof. reflexivity. Qed.

Lemma type_name_not_written n :
  In n (map fst ls_types) ->
  ~ In n (writes ls_fields) /\ n <> "filename".
Proof.
  rewrite writes_ls_fields. simpl.
  intros [<- | [<- | [<- | [<- | [<- | [<- | [<- | []]]]]]]];
    (split; [intros [H | [H | [H | [H | []]]]]; discriminate H
            | discriminate]).
Qed.

(** Lines 52-53 after the rest: the name is captured for every type but the
    link. *)
Lemma run_ls_name s pos g res :
  g "filename" = None ->
  run (Seq ls_name Eol) s pos g end_of_line = Some res ->
  (forall n, n <> "filename" -> res n = g n)
  /\ match g "S_IFLNK" with
     | Some _ => res "filename" = None
     | None => exists text, res "filename" = Some text
     end.
Proof.
  intros Hnone H. rewrite run_Seq in H. unfold ls_name in H.
  rewrite run_Cond in H. destruct (g "S_IFLNK").
  - apply run_frame in H. destruct H as (s1 & pos1 & g1 & H & F1).
    apply run_frame in H. destruct H as (s2 & pos2 & g2 & H & F2).
    apply end_of_line_inv in H. subst res.
    assert (Hall : forall n, g2 n = g n).
    { intros n. rewrite F2, F1 by (simpl; tauto). reflexivity. }
    split; [intros n _; apply Hall | rewrite Hall; exact Hnone].
  - rewrite run_Grp in H.
    apply run_frame in H. destruct H as (s1 & pos1 & g1 & H & F1).
    apply run_frame in H. destruct H as (s2 & pos2 & g2 & H & F2).
    apply end_of_line_inv in H. subst res. split.
    + intros n Hn. rewrite F2 by (simpl; tauto). unfold set_group.
      apply String.eqb_neq in Hn. rewrite Hn. apply F1. simpl. tauto.
    + eexists. rewrite F2 by (simpl; tauto). unfold set_group. simpl.
      reflexivity.
Qed.

(** What a line accepted by [RE_LS_TO_STAT] leaves in the groups. *)
Lemma fullmatch_ls_to_stat line g :
  fullmatch RE_LS_TO_STAT line = Some g ->
  exists name c rest,
    In (name, c) ls_types
    /\ list_ascii_of_string line = c :: rest
    /\ (forall n, In n (map fst ls_types) ->
        g n = set_group name [c] no_groups n)
    /\ (name = "S_IFLNK" -> g "filename" = None)
    /\ (name <> "S_IFLNK" -> exists text, g "filename" = Some text).
Proof.
  unfold fullmatch, RE_LS_TO_STAT. intros H.
  rewrite run_Seq, run_Bol in H. cbv beta in H. rewrite run_Seq in H.
  apply run_ls_type in H. destruct H as (name & c & s' & Hin & Hline & H).
  cbv beta in H. rewrite run_Seq in H.
  apply run_frame in H. destruct H as (s2 & pos2 & g2 & H & F2).
  cbv beta in H.
  assert (Htypes : forall n, In n (map fst ls_types) ->
                             g2 n = set_group name [c] no_groups n).
  { intros n Hn. apply F2. apply type_name_not_written. exact Hn. }
  assert (Hname : In name (map fst ls_types)).
  { apply in_map_iff. exists (name, c). split; [reflexivity | exact Hin]. }
  assert (Hfile : g2 "filename" = None).
  { rewrite F2 by (rewrite writes_ls_fields; simpl;
                   intros [E | [E | [E | [E | []]]]]; discriminate E).
    unfold set_group, no_groups.
    destruct (String.eqb_spec "filename" name) as [E | _]; [| reflexivity].
    subst name. destruct (type_name_not_written _ Hname) as [_ Hne].
    congruence. }
  apply (run_ls_name _ _ _ _ Hfile) in H. destruct H as [Hrest Hlink].
  exists name, c, s'. split; [exact Hin |]. split; [exact Hline |]. split.
  { intros n Hn. rewrite Hrest by (apply type_name_not_written; exact Hn).
    apply Htypes. exact Hn. }
  rewrite (Htypes "S_IFLNK") in Hlink by (simpl; tauto).
  unfold set_group, no_groups in Hlink.
  destruct (String.eqb_spec "S_IFLNK" name) as [E | Hne].
  - split; [intros _; exact Hlink | intros Hn; congruence].
  - split; [intros E; congruence | intros _; exact Hlink].
Qed.

(** ** [lsToStat] *)

Lemma mode_of_type g name c :
  In (name, c) ls_types ->
  (forall n, In n (map fst ls_types) -> g n = set_group name [c] no_groups n) ->
  S_ISLNK
    (add_type g "S_IFSOCK" S_IFSOCK
       (add_type g "S_IFLNK" S_IFLNK
          (add_type g "S_IFIFO" S_IFIFO
             (add_type g "S_IFDIR" S_IFDIR
                (add_type g "S_IFCHR" S_IFCHR
                   (add_type g "S_IFBLK" S_IFBLK
                      (add_type g "S_IFREG" S_IFREG
                         (Z.lor (Z.lor (Z.lor (Z.lor S_IRWXU S_IRGRP) S_IXGRP)
                                   S_IROTH) S_IXOTH))))))))
  = Ascii.eqb c "l".
Proof.
  intros Hin Hg. unfold add_type, group_true.
  rewrite !Hg by (simpl; tauto). simpl in Hin.
  destruct Hin as [E | [E | [E | [E | [E | [E | [E | []]]]]]]];
    inversion E; subst; reflexivity.
Qed.

Section LsToStat.
Variable strptime_timestamp : list ascii -> option Q.

Lemma lsToStat_inv line logs name st logs' :
  lsToStat strptime_timestamp line logs = (Ret (name, st), logs') ->
  exists g,
    fullmatch RE_LS_TO_STAT line = Some g
    /\ name = option_map string_of_list_ascii (g "filename")
    /\ st_mode st =
       add_type g "S_IFSOCK" S_IFSOCK
         (add_type g "S_IFLNK" S_IFLNK
            (add_type g "S_IFIFO" S_IFIFO
               (add_type g "S_IFDIR" S_IFDIR
                  (add_type g "S_IFCHR" S_IFCHR
                     (add_type g "S_IFBLK" S_IFBLK
                        (add_type g "S_IFREG" S_IFREG
                           (Z.lor (Z.lor (Z.lor (Z.lor S_IRWXU S_IRGRP)
                                            S_IXGRP) S_IROTH) S_IXOTH))))))).
Proof.
  unfold lsToStat. intros H.
  destruct (matches RE_NO_SUCH_FILE line); [discriminate H |].
  destruct (matches RE_LS_NOT_A_DIRECTORY line); [discriminate H |].
  destruct (fullmatch RE_LS_TO_STAT line) as [g |]; [| discriminate H].
  exists g. split; [reflexivity |].
  inv_bind H. inv_bind H. apply ret_inv in H. destruct H as [H _].
  inversion H; subst. split; reflexivity.
Qed.
End LsToStat.

(** ** Any two trees: a call returns, misses a ["."] entry, or exits *)

Lemma returns_or_stops_bind flag {A B} (c : M A) (f : A -> M B) logs :
  returns_or_stops flag (c logs) ->
  (forall a logs',
      c logs = (Ret a, logs') -> returns_or_stops flag (f a logs')) ->
  returns_or_stops flag (bind c f logs).
Proof.
  unfold returns_or_stops at 1, bind. intros Hc Hf.
  destruct (c logs) as [[a | e |] logs1]; simpl in Hc.
  - apply Hf. reflexivity.
  - exact Hc.
  - contradiction.
Qed.

Lemma returns_or_stops_getitem flag d logs :
  returns_or_stops flag (getitem "." d logs).
Proof.
  unfold getitem. destruct (dict_get "." d); [exact I |].
  left. reflexivity.
Qed.

Lemma returns_or_stops_pop flag d logs :
  returns_or_stops flag (pop "." d logs).
Proof.
  unfold pop. destruct (dict_pop "." d); [exact I |].
  left. reflexivity.
Qed.

Lemma returns_or_stops_conflict flag m1 m2 logs :
  returns_or_stops flag (conflict flag m1 m2 logs).
Proof.
  unfold conflict. destruct flag; [| exact I].
  right. split; reflexivity.
Qed.

Section LoopsStop.
Variables join_s join_d : string -> string -> string.
Variable flag : bool.
Variable rec : tree -> tree -> string -> string -> M diffed.
Variable n : nat.
Hypothesis rec_ok :
  forall s d ps pd logs,
    (tree_height s < n)%nat -> (tree_height d < n)%nat ->
    returns_or_stops flag (rec s d ps pd logs).

Lemma loop_destination_stops ps pd items :
  forall del una exc seen logs,
    Forall (fun kv => (tree_height (snd kv) < n)%nat) items ->
    returns_or_stops flag
      (loop_destination join_s join_d rec ps pd items del una exc seen logs).
Proof.
  induction items as [| [key value] rest IH]; simpl; intros * HF.
  - exact I.
  - inversion HF as [| ? ? Hv HF']; subst. simpl in Hv.
    apply returns_or_stops_bind.
    + apply rec_ok; [simpl; lia | exact Hv].
    + intros [[d s'] v'] logs' _. apply IH. exact HF'.
Qed.

Lemma loop_source_stops ps pd items :
  forall cop exc seen logs,
    Forall (fun kv => (tree_height (snd kv) < n)%nat) items ->
    returns_or_stops flag
      (loop_source join_s join_d rec ps pd items cop exc seen logs).
Proof.
  induction items as [| [key value] rest IH]; simpl; intros * HF.
  - exact I.
  - inversion HF as [| ? ? Hv HF']; subst. simpl in Hv.
    apply returns_or_stops_bind.
    + apply rec_ok; [exact Hv | simpl; lia].
    + intros [[d s'] v'] logs' _. apply IH. exact HF'.
Qed.

Lemma loop_both_stops ps pd items :
  forall destination del cop exs una exd seen logs,
    Forall (fun kv => (tree_height (snd kv) < n)%nat) items ->
    Forall (fun kv => (tree_height (snd kv) < n)%nat) destination ->
    returns_or_stops flag
      (loop_both join_s join_d rec ps pd items destination
         del cop exs una exd seen logs).
Proof.
  induction items as [| [key value] rest IH]; cbn [loop_both];
    intros * HF HD.
  - exact I.
  - inversion HF as [| ? ? Hv HF']; subst. simpl in Hv.
    assert (H0 : (tree_height PyNone < n)%nat) by (simpl; lia).
    destruct (pop_default_Forall (fun t => (tree_height t < n)%nat)
                key destination H0 HD) as [Hp HD'].
    destruct (pop_default key destination) as [value_d destination1].
    simpl in Hp, HD'.
    apply returns_or_stops_bind.
    + apply rec_ok; assumption.
    + intros [[d s'] v'] logs' _. apply IH; assumption.
Qed.
End LoopsStop.

Section BodyStops.
Variable fnmatch : string -> string -> bool.
Variable patterns : list string.
Variables join_s join_d : string -> string -> string.
Variable flag : bool.

Lemma body_stops rec n :
  (forall s d ps pd logs,
      (tree_height s < n)%nat -> (tree_height d < n)%nat ->
      returns_or_stops flag (rec s d ps pd logs)) ->
  forall source destination ps pd logs,
    (tree_height source < S n)%nat -> (tree_height destination < S n)%nat ->
    returns_or_stops flag
      (diffTrees_body fnmatch patterns join_s join_d flag rec
         source destination ps pd logs).
Proof.
  intros Hrec source destination ps pd logs Hs Hd. unfold diffTrees_body.
  destruct source as [| sa sm | s_items], destination as [| da dm | d_items];
    destruct (excluded fnmatch patterns pd);
    try exact I;
    try (destruct (dm <? sm); exact I).
  - (* absent, directory *)
    pose proof (tree_height_children _ _ Hd) as HF.
    apply returns_or_stops_bind; [apply returns_or_stops_getitem |].
    intros self logs1 _.
    apply returns_or_stops_bind; [apply returns_or_stops_pop |].
    intros [v rest] logs2 Hp. apply pop_inv in Hp. destruct Hp as [Hp _].
    apply returns_or_stops_bind.
    + apply (loop_destination_stops _ _ _ _ n Hrec).
      exact (proj2 (dict_pop_Forall (fun t => (tree_height t < n)%nat)
                      _ _ _ _ Hp HF)).
    + intros [[[? ?] ?] ?] logs3 _. exact I.
  - (* file, directory *)
    apply returns_or_stops_bind; [apply returns_or_stops_conflict |].
    intros. exact I.
  - (* directory, absent *)
    pose proof (tree_height_children _ _ Hs) as HF.
    apply returns_or_stops_bind; [apply returns_or_stops_getitem |].
    intros self logs1 _.
    apply returns_or_stops_bind; [apply returns_or_stops_pop |].
    intros [v rest] logs2 Hp. apply pop_inv in Hp. destruct Hp as [Hp _].
    apply returns_or_stops_bind.
    + apply (loop_source_stops _ _ _ _ n Hrec).
      exact (proj2 (dict_pop_Forall (fun t => (tree_height t < n)%nat)
                      _ _ _ _ Hp HF)).
    + intros [[? ?] ?] logs3 _. exact I.
  - (* directory, file *)
    pose proof (tree_height_children _ _ Hs) as HF.
    apply returns_or_stops_bind; [| intros [? ?] ? _; exact I].
    apply returns_or_stops_bind; [apply returns_or_stops_getitem |].
    intros self logs1 _.
    apply returns_or_stops_bind; [apply returns_or_stops_pop |].
    intros [v rest] logs2 Hp. apply pop_inv in Hp. destruct Hp as [Hp _].
    apply returns_or_stops_bind.
    + apply (loop_source_stops _ _ _ _ n Hrec).
      exact (proj2 (dict_pop_Forall (fun t => (tree_height t < n)%nat)
                      _ _ _ _ Hp HF)).
    + intros [[? ?] ?] logs3 _.
      apply returns_or_stops_bind; [apply returns_or_stops_conflict |].
      intros. exact I.
  - (* directory, directory *)
    pose proof (tree_height_children _ _ Hs) as HF.
    pose proof (tree_height_children _ _ Hd) as HF'.
    apply returns_or_stops_bind; [apply returns_or_stops_pop |].
    intros [v rest] logs2 Hp. apply pop_inv in Hp. destruct Hp as [Hp _].
    pose proof (proj2 (dict_pop_Forall (fun t => (tree_height t < n)%nat)
                         _ _ _ _ Hp HF)) as HFrest.
    apply returns_or_stops_bind.
    + apply (loop_both_stops _ _ _ _ n Hrec); assumption.
    + intros [[[[[[del cop] exs] una] exd] seen] d_left] logs3 Hl.
      apply loop_both_seen in Hl. destruct Hl as [_ ->]. simpl snd.
      apply returns_or_stops_bind; [apply returns_or_stops_pop |].
      intros [v' rest'] logs4 Hp'. apply pop_inv in Hp'.
      destruct Hp' as [Hp' _].
      apply returns_or_stops_bind.
      * apply (loop_destination_stops _ _ _ _ n Hrec).
        refine (proj2 (dict_pop_Forall (fun t => (tree_height t < n)%nat)
                         _ _ _ _ Hp' _)).
        destruct n as [| m].
        -- destruct rest as [| kv rest0].
           ++ exact HF'.
           ++ inversion HFrest; subst. lia.
        -- apply (pop_keys_Forall (fun t => (tree_height t < S m)%nat));
             [simpl; lia | exact HF'].
      * intros [[[? ?] ?] ?] logs5 _. exact I.
Qed.

Lemma diffTrees_fuel_stops fuel :
  forall source destination ps pd logs,
    (tree_height source < fuel)%nat -> (tree_height destination < fuel)%nat ->
    returns_or_stops flag
      (diffTrees_fuel fnmatch patterns join_s join_d flag fuel
         source destination ps pd logs).
Proof.
  induction fuel as [| n IH]; intros * Hs Hd.
  - lia.
  - simpl. apply (body_stops _ n); assumption.
Qed.

(** Any two trees: the call returns, raises [KeyError(".")], or exits,
    which takes the flag. *)
Lemma diffTrees_stops source destination ps pd logs :
  returns_or_stops flag
    (diffTrees fnmatch patterns join_s join_d flag
       source destination ps pd logs).
Proof. unfold diffTrees. apply diffTrees_fuel_stops; lia. Qed.

(** A destination directory without ["."] against a source directory. *)
Lemma diff_both_without_self_stops s_items d_items ps pd logs :
  excluded fnmatch patterns pd = false ->
  dict_mem "." d_items = false ->
  fst (diffTrees fnmatch patterns join_s join_d flag
         (PyDict s_items) (PyDict d_items) ps pd logs) = Raise (KeyError ".")
  \/ (fst (diffTrees fnmatch patterns join_s join_d flag
             (PyDict s_items) (PyDict d_items) ps pd logs) = Raise SystemExit
      /\ flag = true).
Proof.
  intros Hex Hm.
  pose proof (diffTrees_stops (PyDict s_items) (PyDict d_items) ps pd logs)
    as Hstops.
  pose proof (diff_both_without_self fnmatch patterns join_s join_d flag
                s_items d_items ps pd logs) as Hnot.
  unfold returns_or_stops in Hstops.
  destruct (diffTrees fnmatch patterns join_s join_d flag
              (PyDict s_items) (PyDict d_items) ps pd logs)
    as [[v | e |] logs'] eqn:Hr; simpl in *.
  - exfalso. exact (Hnot v logs' Hex Hm eq_refl).
  - destruct Hstops as [-> | [-> Hf]]; [left | right; split]; trivial.
  - contradiction.
Qed.
End BodyStops.

(** ** What a call leaves of its arguments, value by value *)

Lemma dict_pop_map (f : string -> tree -> tree) key (d : dict) :
  dict_pop key (map (fun kv => (fst kv, f (fst kv) (snd kv))) d) =
  option_map
    (fun r => (f key (fst r),
               map (fun kv => (fst kv, f (fst kv) (snd kv))) (snd r)))
    (dict_pop key d).
Proof.
  induction d as [| [k v] rest IH]; simpl; [reflexivity |].
  destruct (String.eqb k key) eqn:Hk.
  - apply String.eqb_eq in Hk. subst k. reflexivity.
  - rewrite IH. destruct (dict_pop key rest) as [[x rest'] |]; reflexivity.
Qed.

Section OpenedLoops.
Variable fnmatch : string -> string -> bool.
Variable patterns : list string.
Variables join_s join_d : string -> string -> string.
Variable rec : tree -> tree -> string -> string -> M diffed.
Hypothesis rec_ok :
  forall s d ps pd logs r s' d' logs',
    rec s d ps pd logs = (Ret (r, s', d'), logs') ->
    s' = opened fnmatch patterns join_d pd s
    /\ d' = destination_left fnmatch patterns join_d pd s d.

Lemma opened_pop s_items self rest pd :
  dict_pop "." s_items = Some (self, rest) ->
  excluded fnmatch patterns pd = false ->
  opened fnmatch patterns join_d pd (PyDict s_items) =
  PyDict (map (opened_entry fnmatch patterns join_d pd) rest).
Proof.
  intros Hp Hex. cbn [opened]. rewrite Hex. unfold pop_default.
  rewrite (dict_pop_map (fun k v => opened fnmatch patterns join_d
                                      (join_d pd k) v)), Hp.
  reflexivity.
Qed.

Lemma loop_destination_opened ps pd items :
  forall del una exc seen logs del' una' exc' seen' logs',
    loop_destination join_s join_d rec ps pd items del una exc seen logs =
    (Ret (del', una', exc', seen'), logs') ->
    seen' = (seen ++ map (opened_entry fnmatch patterns join_d pd) items)%list.
Proof.
  induction items as [| [key value] rest IH]; simpl; intros * H.
  - apply ret_inv in H. destruct H as [H _]. inversion H; subst.
    rewrite app_nil_r. reflexivity.
  - inv_bind H. destruct a as [[d src'] value'].
    apply rec_ok in Hc. destruct Hc as [_ ->].
    apply IH in H. rewrite H, <- app_assoc. reflexivity.
Qed.

Lemma loop_source_opened ps pd items :
  forall cop exc seen logs cop' exc' seen' logs',
    loop_source join_s join_d rec ps pd items cop exc seen logs =
    (Ret (cop', exc', seen'), logs') ->
    seen' = (seen ++ map (opened_entry fnmatch patterns join_d pd) items)%list.
Proof.
  induction items as [| [key value] rest IH]; simpl; intros * H.
  - apply ret_inv in H. destruct H as [H _]. inversion H; subst.
    rewrite app_nil_r. reflexivity.
  - inv_bind H. destruct a as [[d value'] dst'].
    apply rec_ok in Hc. destruct Hc as [-> _].
    apply IH in H. rewrite H, <- app_assoc. reflexivity.
Qed.

Lemma loop_both_opened ps pd items :
  forall destination del cop exs una exd seen logs
         del' cop' exs' una' exd' seen' destination' logs',
    loop_both join_s join_d rec ps pd items destination
      del cop exs una exd seen logs =
    (Ret (del', cop', exs', una', exd', seen', destination'), logs') ->
    seen' = (seen ++ map (opened_entry fnmatch patterns join_d pd) items)%list.
Proof.
  induction items as [| [key value] rest IH]; cbn [loop_both]; intros * H.
  - apply ret_inv in H. destruct H as [H _]. inversion H; subst.
    rewrite app_nil_r. reflexivity.
  - destruct (pop_default key destination) as [value_d destination1].
    inv_bind H. destruct a as [[d value'] dst'].
    apply rec_ok in Hc. destruct Hc as [-> _].
    apply IH in H. rewrite H, <- app_assoc. reflexivity.
Qed.

Ltac name_pops :=
  repeat match goal with
         | Hp : dict_pop _ _ = Some ?p |- _ =>
             is_var p; let v := fresh "self" in
                       let rest := fresh "rest" in destruct p as [v rest]
         end.

Lemma body_opened flag source destination ps pd logs
    d source' destination' logs' :
  diffTrees_body fnmatch patterns join_s join_d flag rec
    source destination ps pd logs = (Ret (d, source', destination'), logs') ->
  source' = opened fnmatch patterns join_d pd source
  /\ destination' =
     destination_left fnmatch patterns join_d pd source destination.
Proof.
  unfold diffTrees_body, destination_left. intros H.
  destruct (excluded fnmatch patterns pd) eqn:Hex.
  { destruct source, destination; cbn [opened]; rewrite ?Hex;
      inv_run H; inversion H; subst; try (inversion Hc; subst);
      split; reflexivity. }
  destruct source as [| sa sm | s_items],
           destination as [| da dm | d_items];
    inv_run H; inversion H; subst; try (split; reflexivity).
  - (* absent, directory *)
    apply loop_destination_opened in Hc1. subst. name_pops.
    split; [reflexivity |]. symmetry. eapply opened_pop; eassumption.
  - (* directory, absent *)
    apply loop_source_opened in Hc1. subst. name_pops.
    split; [| reflexivity]. symmetry. eapply opened_pop; eassumption.
  - (* directory, file *)
    inv_run Hc. inversion Hc; subst.
    apply loop_source_opened in Hc2. subst. name_pops.
    split; [| reflexivity]. symmetry. eapply opened_pop; eassumption.
  - (* directory, directory *)
    pose proof Hc0 as Hseen. apply loop_both_opened in Hseen.
    apply loop_both_seen in Hc0. destruct Hc0 as [_ Hleft].
    apply loop_destination_opened in Hc2. subst. name_pops. simpl in *.
    split; [symmetry; eapply opened_pop; eassumption |].
    unfold pop_default at 2. rewrite Hc. simpl snd.
    unfold pop_default, opened_entry.
    rewrite (dict_pop_map (fun k v => opened fnmatch patterns join_d
                                        (join_d pd k) v)), Hc1.
    reflexivity.
Qed.
End OpenedLoops.

Lemma diffTrees_fuel_opened fnmatch patterns join_s join_d flag fuel :
  forall source destination ps pd logs d source' destination' logs',
    diffTrees_fuel fnmatch patterns join_s join_d flag fuel
      source destination ps pd logs =
    (Ret (d, source', destination'), logs') ->
    source' = opened fnmatch patterns join_d pd source
    /\ destination' =
       destination_left fnmatch patterns join_d pd source destination.
Proof.
  induction fuel as [| n IH]; intros * H; [discriminate H |].
  simpl in H. eapply body_opened; [exact IH | exact H].
Qed.

(** ** The snapshot builder, node by node *)

Lemma dict_setitem_Forall_entry {A} (P : string * A -> Prop) key v d :
  P (key, v) -> Forall P d -> Forall P (dict_setitem key v d).
Proof.
  intros Hv. induction d as [| [k x] rest IH]; simpl; intros HF.
  - constructor; [exact Hv | constructor].
  - inversion HF; subst. destruct (String.eqb k key) eqn:Hk.
    + apply String.eqb_eq in Hk. subst k. constructor; assumption.
    + constructor; [assumption |]. apply IH. assumption.
Qed.

Section BuiltNodes.
Context {fs : FileSystem}.
Variable followLinks : bool.

Lemma listing_loop_built rec root self :
  (forall path st logs t logs',
      rec path st logs = (Ret t, logs') -> built followLinks path st t) ->
  forall steps tree_ logs r logs',
    listing_loop rec root steps tree_ logs = (Ret r, logs') ->
    (forall step, In step steps -> In step (lstat_inDir root)) ->
    dict_get "." tree_ = Some self ->
    distinct_keys tree_ = true ->
    Forall
      (fun kv =>
         fst kv = "."
         \/ exists step statObject_child logs0 logs1,
              In step (lstat_inDir root)
              /\ step logs0 = (Ret (Some (fst kv), statObject_child), logs1)
              /\ built followLinks (joinPaths root (fst kv))
                   statObject_child (snd kv))
      tree_ ->
    dict_get "." r = Some self
    /\ distinct_keys r = true
    /\ Forall
         (fun kv =>
            fst kv = "."
            \/ exists step statObject_child logs0 logs1,
                 In step (lstat_inDir root)
                 /\ step logs0 = (Ret (Some (fst kv), statObject_child), logs1)
                 /\ built followLinks (joinPaths root (fst kv))
                      statObject_child (snd kv))
         r.
Proof.
  intros Hrec. induction steps as [| step rest IH]; cbn [listing_loop];
    intros tree_ logs r logs' H Hsub Hget Hdist HF.
  - apply ret_inv in H. destruct H as [<- _]. repeat split; assumption.
  - inv_bind H. destruct a as [[filename |] st]; cbn [fst snd] in H;
      [| discriminate H].
    assert (Hsub' : forall s, In s rest -> In s (lstat_inDir root)).
    { intros s Hs. apply Hsub. right. exact Hs. }
    destruct (String.eqb filename "." || String.eqb filename "..") eqn:Hdot.
    + exact (IH _ _ _ _ H Hsub' Hget Hdist HF).
    + inv_bind H. apply Hrec in Hc0.
      apply orb_false_iff in Hdot. destruct Hdot as [Hdot _].
      apply (IH _ _ _ _ H Hsub').
      * rewrite dict_setitem_get_other; assumption.
      * apply dict_setitem_distinct. exact Hdist.
      * apply dict_setitem_Forall_entry; [| exact HF].
        right. exists step, st, logs, logs0. cbn [fst snd].
        split; [apply Hsub; left; reflexivity |].
        split; [exact Hc | exact Hc0].
Qed.

Lemma getFilesTree_body_built rec root st logs t logs' :
  (forall path st logs t logs',
      rec path st logs = (Ret t, logs') -> built followLinks path st t) ->
  getFilesTree_body rec root st followLinks logs = (Ret t, logs') ->
  built followLinks root st t.
Proof.
  intros Hrec H. unfold getFilesTree_body in H.
  destruct (S_ISLNK (st_mode st)) eqn:Hlnk.
  - destruct followLinks eqn:Hfollow; cbn [negb] in H.
    + inv_bind H. inv_bind H. destruct a0 as [[p s] |].
      * unfold try_except in Hc0.
        destruct (bind (realPath root) _ logs0) as [[v | e |] logs2] eqn:Hb.
        -- inversion Hc0; subst. inv_bind Hb. inv_bind Hb.
           apply ret_inv in Hb. destruct Hb as [Hb <-]. inversion Hb; subst.
           apply Hrec in H.
           exact (built_followed true root st p s t _ _ _ Hlnk eq_refl
                    Hc1 Hc2 H).
        -- destruct e; try discriminate Hc0; inv_bind Hc0;
             apply ret_inv in Hc0; destruct Hc0 as [Hc0 _]; discriminate Hc0.
        -- discriminate Hc0.
      * apply ret_inv in H. destruct H as [<- _].
        apply built_skipped. exact Hlnk.
    + inv_bind H. apply ret_inv in H. destruct H as [<- _].
      apply built_skipped. exact Hlnk.
  - destruct (S_ISDIR (st_mode st)) eqn:Hdir.
    + inv_bind H. apply ret_inv in H. destruct H as [<- _].
      apply (listing_loop_built rec root (bucketed_times st) Hrec) in Hc.
      * destruct Hc as (H1 & H2 & H3).
        apply built_directory; assumption.
      * intros step Hs. exact Hs.
      * reflexivity.
      * reflexivity.
      * constructor; [left; reflexivity | constructor].
    + destruct (S_ISREG (st_mode st)) eqn:Hreg; [| discriminate H].
      apply ret_inv in H. destruct H as [<- _].
      apply built_file; assumption.
Qed.

Lemma getFilesTree_built fuel :
  forall root st logs t logs',
    _getFilesTree fuel root st followLinks logs = (Ret t, logs') ->
    built followLinks root st t.
Proof.
  induction fuel as [| n IH]; simpl; intros root st logs t logs' H;
    [discriminate H |].
  apply getFilesTree_body_built in H; [exact H |]. exact IH.
Qed.
End BuiltNodes.

(** ** What a match consumes *)

Lemma firstn_consumed {A} (text rest : list A) pos :
  firstn (pos + List.length text - pos) (text ++ rest) = text.
Proof.
  replace (pos + List.length text - pos)%nat with (List.length text) by lia.
  rewrite firstn_app, firstn_all, Nat.sub_diag. simpl.
  apply app_nil_r.
Qed.

Lemma run_consumes r :
  forall s pos g (k : cont) res,
    run r s pos g k = Some res ->
    exists text s' g',
      s = (text ++ s')%list
      /\ k s' (pos + List.length text)%nat g' = Some res
      /\ forall n, ~ In n (writes r) -> g' n = g n.
Proof.
  induction r as [| p | r1 IH1 r2 IH2 | r1 IH1 r2 IH2 | r1 IH1
                  | name r1 IH1 | name r1 IH1 r2 IH2 | |];
    simpl; intros s pos g k res H.
  - exists [], s, g. rewrite Nat.add_0_r. auto.
  - destruct s as [| c s']; [discriminate H |].
    destruct (p c); [| discriminate H].
    exists [c], s', g. simpl. rewrite Nat.add_1_r. auto.
  - apply IH1 in H. destruct H as (t1 & s1 & g1 & -> & H & F1).
    apply IH2 in H. destruct H as (t2 & s2 & g2 & -> & H & F2).
    exists (t1 ++ t2)%list, s2, g2.
    rewrite <- app_assoc, length_app, Nat.add_assoc.
    split; [reflexivity |]. split; [exact H |].
    intros n Hn. rewrite in_app_iff in Hn.
    rewrite F2, F1 by tauto. reflexivity.
  - unfold or_else in H.
    destruct (run r1 s pos g k) as [x |] eqn:H1.
    + inversion H; subst. apply IH1 in H1.
      destruct H1 as (t1 & s1 & g1 & -> & H1 & F1).
      exists t1, s1, g1. split; [reflexivity |]. split; [exact H1 |].
      intros n Hn. rewrite in_app_iff in Hn. apply F1. tauto.
    + apply IH2 in H. destruct H as (t2 & s2 & g2 & -> & H & F2).
      exists t2, s2, g2. split; [reflexivity |]. split; [exact H |].
      intros n Hn. rewrite in_app_iff in Hn. apply F2. tauto.
  - revert H. generalize (List.length s). intros n. revert s pos g.
    induction n as [| n IHn]; intros s pos g H.
    + exists [], s, g. rewrite Nat.add_0_r. auto.
    + unfold or_else in H.
      match type of H with
      | match ?x with _ => _ end = _ => destruct x as [y |] eqn:H1
      end.
      * inversion H; subst. apply IH1 in H1.
        destruct H1 as (t1 & s1 & g1 & -> & H1 & F1).
        destruct (List.length s1 <? List.length (t1 ++ s1))%nat;
          [| discriminate H1].
        apply IHn in H1. destruct H1 as (t2 & s2 & g2 & -> & H2 & F2).
        exists (t1 ++ t2)%list, s2, g2.
        rewrite <- app_assoc, length_app, Nat.add_assoc.
        split; [reflexivity |]. split; [exact H2 |].
        intros m Hm. rewrite F2, F1 by assumption. reflexivity.
      * exists [], s, g. rewrite Nat.add_0_r. auto.
  - apply IH1 in H. destruct H as (t1 & s1 & g1 & -> & H & F1).
    rewrite firstn_consumed in H.
    eexists t1, s1, _. split; [reflexivity |]. split; [exact H |].
    intros n Hn. unfold set_group.
    destruct (String.eqb n name) eqn:Hname.
    + apply String.eqb_eq in Hname. subst. exfalso. apply Hn. left. reflexivity.
    + apply F1. intros Hin. apply Hn. right. exact Hin.
  - destruct (g name).
    + apply IH1 in H. destruct H as (t1 & s1 & g1 & -> & H & F1).
      exists t1, s1, g1. split; [reflexivity |]. split; [exact H |].
      intros n Hn. rewrite in_app_iff in Hn. apply F1. tauto.
    + apply IH2 in H. destruct H as (t2 & s2 & g2 & -> & H & F2).
      exists t2, s2, g2. split; [reflexivity |]. split; [exact H |].
      intros n Hn. rewrite in_app_iff in Hn. apply F2. tauto.
  - destruct (pos =? 0)%nat; [| discriminate H].
    exists [], s, g. rewrite Nat.add_0_r. auto.
  - exists [], s, g. rewrite Nat.add_0_r.
    destruct s as [| c [| c' s']]; [auto | | discriminate H].
    destruct (Ascii.eqb c newline); [auto | discriminate H].
Qed.

(** A group holds the text that its pattern has consumed. *)
Lemma run_Grp_consumes name r s pos g (k : cont) res :
  run (Grp name r) s pos g k = Some res ->
  exists text s' g',
    s = (text ++ s')%list
    /\ k s' (pos + List.length text)%nat (set_group name text g') = Some res
    /\ forall n, ~ In n (writes r) -> g' n = g n.
Proof.
  rewrite run_Grp. intros H. apply run_consumes in H.
  destruct H as (text & s' & g' & -> & H & F).
  rewrite firstn_consumed in H. exists text, s', g'. auto.
Qed.

(** ** The date and the name of a line of [ls -l] *)

(** Lines 30-51: the fields end with the date and time, sixteen characters
    that the group [st_mtime] holds, and one blank. *)
Lemma run_ls_fields s pos g (k : cont) res :
  run ls_fields s pos g k = Some res ->
  exists fields date s' pos' g',
    s = (fields ++ date ++ " "%char :: s')%list
    /\ List.length date = 16%nat
    /\ g' "st_mtime" = Some date
    /\ (forall n, ~ In n (writes ls_fields) -> g' n = g n)
    /\ k s' pos' g' = Some res.
Proof.
  intros H. unfold ls_fields in H.
  match type of H with
  | run (seq ?rs) _ _ _ _ = _ =>
      change (run (seq (firstn 20 rs)) s pos g
                (fun s1 pos1 g1 => run (seq (skipn 20 rs)) s1 pos1 g1 k)
              = Some res) in H
  end.
  apply run_consumes in H. destruct H as (fields & s1 & g1 & -> & H & F1).
  cbn [skipn seq] in H. rewrite run_Seq, run_Grp in H.
  cbn [run digit chr space] in H.
  do 16 (destruct s1 as [| ? s1]; [discriminate H |];
         match type of H with
         | (if ?b then _ else None) = _ => destruct b; [| discriminate H]
         end).
  destruct s1 as [| c s3]; [discriminate H |].
  destruct (Ascii.eqb_spec " " c) as [<- | _]; [| discriminate H].
  match type of H with
  | context [firstn ?n _] => replace n with 16%nat in H by lia
  end.
  cbn [firstn] in H.
  match type of H with
  | context [set_group "st_mtime" ?date ?g0] =>
      eexists fields, date, s3, _, (set_group "st_mtime" date g0)
  end.
  split; [reflexivity |]. split; [reflexivity |].
  split; [reflexivity |]. split; [| exact H].
  intros n Hn. rewrite writes_ls_fields in Hn. unfold set_group.
  destruct (String.eqb_spec n "st_mtime") as [-> | _].
  - exfalso. apply Hn. simpl. tauto.
  - apply F1. simpl in *. tauto.
Qed.

(** Lines 52-53 after the rest: for every type but the link the name is
    all that is left of the line. *)
Lemma run_ls_name_rest s pos g res :
  g "S_IFLNK" = None ->
  run (Seq ls_name Eol) s pos g end_of_line = Some res ->
  res "filename" = Some s.
Proof.
  intros Hlink H. rewrite run_Seq in H. unfold ls_name in H.
  rewrite run_Cond, Hlink in H.
  apply run_Grp_consumes in H. destruct H as (text & s' & g' & -> & H & _).
  cbn [run] in H. destruct s' as [| c [| c' s']]; [| | discriminate H].
  - apply end_of_line_inv in H. subst res. rewrite app_nil_r.
    unfold set_group. reflexivity.
  - destruct (Ascii.eqb c newline); discriminate H.
Qed.

(** What a line accepted by [RE_LS_TO_STAT] is made of. *)
Lemma fullmatch_ls_to_stat_parts line g :
  fullmatch RE_LS_TO_STAT line = Some g ->
  exists name c fields date rest,
    In (name, c) ls_types
    /\ list_ascii_of_string line =
       (c :: fields ++ date ++ " "%char :: rest)%list
    /\ List.length date = 16%nat
    /\ (forall n, In n (map fst ls_types) ->
        g n = set_group name [c] no_groups n)
    /\ g "st_mtime" = Some date
    /\ (name = "S_IFLNK" -> g "filename" = None)
    /\ (name <> "S_IFLNK" -> g "filename" = Some rest).
Proof.
  unfold fullmatch, RE_LS_TO_STAT. intros H.
  rewrite run_Seq, run_Bol in H. cbv beta in H. rewrite run_Seq in H.
  apply run_ls_type in H. destruct H as (name & c & s' & Hin & Hline & H).
  cbv beta in H. rewrite run_Seq in H.
  apply run_ls_fields in H.
  destruct H as (fields & date & s2 & pos2 & g2 & -> & Hlen & Hdate & F2 & H).
  assert (Htypes : forall n, In n (map fst ls_types) ->
                             g2 n = set_group name [c] no_groups n).
  { intros n Hn. apply F2. apply type_name_not_written. exact Hn. }
  assert (Hname : In name (map fst ls_types)).
  { apply in_map_iff. exists (name, c). split; [reflexivity | exact Hin]. }
  assert (Hfile : g2 "filename" = None).
  { rewrite F2 by (rewrite writes_ls_fields; simpl;
                   intros [E | [E | [E | [E | []]]]]; discriminate E).
    unfold set_group, no_groups.
    destruct (String.eqb_spec "filename" name) as [E | _]; [| reflexivity].
    subst name. destruct (type_name_not_written _ Hname) as [_ Hne].
    congruence. }
  pose proof H as Hrest.
  apply (run_ls_name _ _ _ _ Hfile) in H. destruct H as [Hother Hlink].
  exists name, c, fields, date, s2.
  split; [exact Hin |]. split; [exact Hline |]. split; [exact Hlen |]. split.
  { intros n Hn. rewrite Hother by (apply type_name_not_written; exact Hn).
    apply Htypes. exact Hn. }
  split; [rewrite Hother by discriminate; exact Hdate |].
  rewrite (Htypes "S_IFLNK") in Hlink by (simpl; tauto).
  unfold set_group, no_groups in Hlink.
  destruct (String.eqb_spec "S_IFLNK" name) as [E | Hne].
  - split; [intros _; exact Hlink | intros Hn; congruence].
  - split; [intros E; congruence | intros _].
    apply run_ls_name_rest in Hrest; [exact Hrest |].
    rewrite (Htypes "S_IFLNK") by (simpl; tauto).
    unfold set_group, no_groups.
    destruct (String.eqb_spec "S_IFLNK" name) as [E | _];
      [congruence | reflexivity].
Qed.

(** ** Strings and their characters *)

Lemma string_of_list_ascii_app (a b : list ascii) :
  string_of_list_ascii (a ++ b) =
  string_of_list_ascii a ++ string_of_list_ascii b.
Proof. induction a as [| c a IH]; simpl; [| rewrite IH]; reflexivity. Qed.

Lemma length_string_of_list_ascii (a : list ascii) :
  String.length (string_of_list_ascii a) = List.length a.
Proof. induction a as [| c a IH]; simpl; [| rewrite IH]; reflexivity. Qed.

Section LsToStatParts.
Variable strptime_timestamp : list ascii -> option Q.

(** The modification time of the record is read off the group [st_mtime]. *)
Lemma lsToStat_inv_mtime line logs name st logs' g :
  lsToStat strptime_timestamp line logs = (Ret (name, st), logs') ->
  fullmatch RE_LS_TO_STAT line = Some g ->
  exists date t,
    g "st_mtime" = Some date
    /\ strptime_timestamp date = Some t
    /\ st_mtime st = inject_Z (py_int t).
Proof.
  unfold lsToStat. intros H Hg.
  destruct (matches RE_NO_SUCH_FILE line); [discriminate H |].
  destruct (matches RE_LS_NOT_A_DIRECTORY line); [discriminate H |].
  rewrite Hg in H. inv_bind H. inv_bind H.
  destruct (g "st_mtime") as [date |]; [| discriminate Hc0].
  destruct (strptime_timestamp date) as [t |] eqn:Ht; [| discriminate Hc0].
  apply ret_inv in Hc0. destruct Hc0 as [<- _].
  apply ret_inv in H. destruct H as [H _]. inversion H; subst.
  exists date, t. split; [reflexivity |]. split; [exact Ht | reflexivity].
Qed.
End LsToStatParts.

(** ** Root-level behaviour of [diffTrees] *)

Section DiffRoot.
Variable fnmatch : string -> string -> bool.
Variable patterns : list string.
Variables join_s join_d : string -> string -> string.
Variable flag : bool.

(** File against file, lines 106-125. *)
Lemma diff_file_file sa sm da dm ps pd logs :
  diffTrees fnmatch patterns join_s join_d flag
    (PyTuple sa sm) (PyTuple da dm) ps pd logs =
  (Ret (if excluded fnmatch patterns pd then
          mkDiff PyNone PyNone (PyTuple sa sm) PyNone (PyTuple da dm)
        else if dm <? sm then
          mkDiff (PyTuple da dm) (PyTuple sa sm) PyNone PyNone PyNone
        else mkDiff PyNone PyNone PyNone PyNone PyNone,
        PyTuple sa sm, PyTuple da dm), logs).
Proof.
  unfold diffTrees. simpl. unfold diffTrees_body.
  destruct (excluded fnmatch patterns pd); [reflexivity |].
  destruct (dm <? sm); reflexivity.
Qed.

(** File against directory, lines 126-143. *)
Lemma diff_file_dir sa sm items ps pd logs :
  excluded fnmatch patterns pd = false ->
  diffTrees fnmatch patterns join_s join_d flag
    (PyTuple sa sm) (PyDict items) ps pd logs =
  if flag then
    (Raise SystemExit,
     (logs ++ [ (CRITICAL,
                 format2 "Refusing to overwrite directory '" pd
                   "' with file '" ps "'");
                (CRITICAL, "Use --force if you are sure!");
                (CRITICAL, "Exiting") ])%list)
  else
    (Ret (mkDiff (PyDict items) (PyTuple sa sm) PyNone
            (PyDict [(".", PyNone)]) (PyDict [(".", PyNone)]),
          PyTuple sa sm, PyDict items),
     (logs ++ [ (WARNING,
                 format2 "Overwriting directory '" pd
                   "' with file '" ps "'") ])%list).
Proof.
  intros Hex. unfold diffTrees. simpl. unfold diffTrees_body. rewrite Hex.
  unfold conflict, format2. destruct flag.
  - unfold bind, criticalLogExit, bind, logging_log, raise. simpl.
    rewrite <- !app_assoc. reflexivity.
  - reflexivity.
Qed.
End DiffRoot.

(** C5.  For two file nodes at a path that no exclusion pattern matches,
    [diffTrees] returns no delete and no copy entry when the source mtime is
    at most the destination mtime, whatever the two atimes are (a size is not
    even part of a node); when the source mtime is strictly greater it returns
    the destination file as delete and the source file as copy. *)
Theorem C5_mtime_tie_break :
  forall fnmatch patterns join_s join_d flag sa sm da dm ps pd logs,
    excluded fnmatch patterns pd = false ->
    exists d,
      diffTrees fnmatch patterns join_s join_d flag
        (PyTuple sa sm) (PyTuple da dm) ps pd logs =
      (Ret (d, PyTuple sa sm, PyTuple da dm), logs)
      /\ (sm <= dm -> delete d = PyNone /\ copy d = PyNone)
      /\ (sm > dm -> delete d = PyTuple da dm /\ copy d = PyTuple sa sm).
Proof.
  intros fnmatch patterns join_s join_d flag sa sm da dm ps pd logs Hex.
  rewrite diff_file_file, Hex.
  destruct (Z.ltb_spec dm sm) as [Hlt | Hge]; eexists; (split; [reflexivity |]);
    simpl; split; intros H; try lia; split; reflexivity.
Qed.

Lemma C5_mtime_tie_break_witness :
  exists d,
    diffTrees literal_fnmatch ["/sdcard/skip"] slash_join slash_join true
      (PyTuple 0 60) (PyTuple 3600 60) "/home/a" "/sdcard/a" [] =
    (Ret (d, PyTuple 0 60, PyTuple 3600 60), [])
    /\ (60 <= 60 -> delete d = PyNone /\ copy d = PyNone)
    /\ (60 > 60 -> delete d = PyTuple 3600 60 /\ copy d = PyTuple 0 60).
Proof.
  apply (C5_mtime_tie_break literal_fnmatch ["/sdcard/skip"] slash_join
           slash_join true 0 60 3600 60 "/home/a" "/sdcard/a" []).
  reflexivity.
Defined.

(** C4.  A source file against a destination directory at a path that no
    exclusion pattern matches: with [folderFileOverwriteError] set the call
    logs the refusal and "Use --force if you are sure!" at critical level and
    exits; with the flag cleared it returns the whole destination directory as
    delete and the source file as copy, after logging one warning. *)
Theorem C4_file_over_directory :
  forall fnmatch patterns join_s join_d sa sm items ps pd logs,
    excluded fnmatch patterns pd = false ->
    diffTrees fnmatch patterns join_s join_d true
      (PyTuple sa sm) (PyDict items) ps pd logs =
    (Raise SystemExit,
     (logs ++ [ (CRITICAL,
                 format2 "Refusing to overwrite directory '" pd
                   "' with file '" ps "'");
                (CRITICAL, "Use --force if you are sure!");
                (CRITICAL, "Exiting") ])%list)
    /\
    diffTrees fnmatch patterns join_s join_d false
      (PyTuple sa sm) (PyDict items) ps pd logs =
    (Ret (mkDiff (PyDict items) (PyTuple sa sm) PyNone
            (PyDict [(".", PyNone)]) (PyDict [(".", PyNone)]),
          PyTuple sa sm, PyDict items),
     (logs ++ [ (WARNING,
                 format2 "Overwriting directory '" pd
                   "' with file '" ps "'") ])%list).
Proof.
  intros fnmatch patterns join_s join_d sa sm items ps pd logs Hex.
  split.
  - rewrite (diff_file_dir fnmatch patterns join_s join_d true) by exact Hex.
    reflexivity.
  - rewrite (diff_file_dir fnmatch patterns join_s join_d false) by exact Hex.
    reflexivity.
Qed.

Lemma C4_file_over_directory_witness :
  diffTrees literal_fnmatch [] slash_join slash_join true
    (PyTuple 60 60) (PyDict [("x", PyTuple 0 0)]) "src" "dst" [] =
  (Raise SystemExit,
   [ (CRITICAL, "Refusing to overwrite directory 'dst' with file 'src'");
     (CRITICAL, "Use --force if you are sure!");
     (CRITICAL, "Exiting") ])
  /\
  diffTrees literal_fnmatch [] slash_join slash_join false
    (PyTuple 60 60) (PyDict [("x", PyTuple 0 0)]) "src" "dst" [] =
  (Ret (mkDiff (PyDict [("x", PyTuple 0 0)]) (PyTuple 60 60) PyNone
          (PyDict [(".", PyNone)]) (PyDict [(".", PyNone)]),
        PyTuple 60 60, PyDict [("x", PyTuple 0 0)]),
   [ (WARNING, "Overwriting directory 'dst' with file 'src'") ]).
Proof.
  apply (C4_file_over_directory literal_fnmatch [] slash_join slash_join
           60 60 [("x", PyTuple 0 0)] "src" "dst" []).
  reflexivity.
Defined.

(** ** Exclusion of a destination file *)

Section ExcludedFile.
Variable fnmatch : string -> string -> bool.
Variable patterns : list string.
Variables join_s join_d : string -> string -> string.
Variable flag : bool.

(** Lines 51-57 and 106-112: with an absent or a file source, the excluded
    destination file is returned as [excluded_destination]. *)
Lemma excluded_file_kept source da dm ps pd logs :
  excluded fnmatch patterns pd = true ->
  source = PyNone \/ (exists sa sm, source = PyTuple sa sm) ->
  exists d,
    returned (diffTrees fnmatch patterns join_s join_d flag
                source (PyTuple da dm) ps pd logs) = Some d
    /\ excluded_destination d = PyTuple da dm
    /\ unaccounted_destination d = PyNone.
Proof.
  intros Hex [-> | (sa & sm & ->)]; unfold diffTrees; simpl;
    unfold diffTrees_body; rewrite Hex; eexists;
    (split; [reflexivity | split; reflexivity]).
Qed.

(** Lines 173-179 and 203: with a directory source, line 203 resets what
    line 179 has just stored. *)
Lemma excluded_file_dropped s_items da dm ps pd logs :
  excluded fnmatch patterns pd = true ->
  exists d,
    returned (diffTrees fnmatch patterns join_s join_d flag
                (PyDict s_items) (PyTuple da dm) ps pd logs) = Some d
    /\ excluded_destination d = PyNone
    /\ unaccounted_destination d = PyNone.
Proof.
  intros Hex. unfold diffTrees. simpl. unfold diffTrees_body. rewrite Hex.
  eexists. split; [reflexivity | split; reflexivity].
Qed.
End ExcludedFile.

(** C2, at the input where the code departs from it.  The destination file
    [/sdcard/keep.txt] matches the exclusion pattern and the source has a
    directory of that name: the call returns [None] as
    [excluded_destination] (and as [unaccounted_destination]), so the file is
    in neither tree. *)
Theorem C2_directory_source_drops_excluded_file :
  diffTrees literal_fnmatch ["/sdcard/keep.txt"] slash_join slash_join true
    (PyDict [(".", PyTuple 60 60)]) (PyTuple 0 0)
    "/home/keep.txt" "/sdcard/keep.txt" [] =
  (Ret (mkDiff PyNone (PyDict [(".", PyNone)]) (PyDict [(".", PyTuple 60 60)])
          PyNone PyNone,
        PyDict [(".", PyTuple 60 60)], PyTuple 0 0),
   []).
Proof. reflexivity. Qed.

(** ** The concrete scenarios *)

(** C6.  With [unaccounted = {a: {b: File}}] and [excluded = {a: {c: File}}],
    [removeExludedFoldersFromUnaccountedTree] returns [{a: {b: File}}]:
    directory [a] and its child [b] are both still there. *)
Theorem C6_ancestor_of_excluded_kept :
  forall b_atime b_mtime c_atime c_mtime,
    removeExludedFoldersFromUnaccountedTree
      (PyDict [("a", PyDict [("b", PyTuple b_atime b_mtime)])])
      (PyDict [("a", PyDict [("c", PyTuple c_atime c_mtime)])]) =
    Ret (PyDict [("a", PyDict [("b", PyTuple b_atime b_mtime)])]).
Proof. intros. reflexivity. Qed.

(** C1 fails on the code.  On the two trees as the scenario writes them the
    root dicts have no ["."] entry and the call raises [KeyError]; on the
    snapshots with their root entries the pruned delete tree is not empty
    but holds the stale destination file [a.txt]. *)
Lemma C1_counterexample :
  main_plan literal_fnmatch slash_join slash_join default_args
    scenario_source scenario_destination "src" "dst" [] [] =
  (Raise (KeyError "."), [])
  /\
  main_plan literal_fnmatch slash_join slash_join default_args
    snapshot_source snapshot_destination "src" "dst" [] [] =
  (Ret (mkPlan
          (PyDict [("a.txt", PyTuple 60 60)])
          (PyDict [ ("a.txt", PyTuple 120 120);
                    ("sub", PyDict [ (".", PyTuple 60 60);
                                     ("b.txt", PyTuple 180 180) ]) ])
          PyNone
          (PyDict [("old.txt", PyTuple 60 60)])
          PyNone
          (PyDict [("old.txt", PyTuple 60 60)])),
   [])
  /\ PyDict [("a.txt", PyTuple 60 60)] <> PyNone.
Proof. repeat split; try reflexivity. discriminate. Qed.

(** C1, amended.  For source [{".": 60, a.txt: 120, sub: {".": 60, b.txt:
    180}}] and destination [{".": 60, a.txt: 60, old.txt: 60}], without
    exclusion patterns, [diffTrees] followed by pruning gives
    copy [{a.txt: 120, sub: {".": 60, b.txt: 180}}],
    delete [{a.txt: 60}] (the stale destination file),
    unaccounted_destination [{old.txt: 60}], and nothing excluded. *)
Theorem C1_scenario_plan :
  exists p,
    main_plan literal_fnmatch slash_join slash_join default_args
      snapshot_source snapshot_destination "src" "dst" [] [] = (Ret p, [])
    /\ tree_copy p =
         PyDict [ ("a.txt", PyTuple 120 120);
                  ("sub", PyDict [ (".", PyTuple 60 60);
                                   ("b.txt", PyTuple 180 180) ]) ]
    /\ tree_delete p = PyDict [("a.txt", PyTuple 60 60)]
    /\ tree_unaccounted_destination p = PyDict [("old.txt", PyTuple 60 60)]
    /\ tree_excluded_source p = PyNone
    /\ tree_excluded_destination p = PyNone.
Proof. eexists. repeat split; reflexivity. Qed.

(** C3 fails on the code: after the call on the two snapshots of the
    scenario, the source has lost the ["."] entries of its two directories,
    and the destination has lost its ["."] entry and [a.txt]. *)
Lemma C3_counterexample :
  source_after
    (diffTrees literal_fnmatch [] slash_join slash_join true
       snapshot_source snapshot_destination "src" "dst" []) =
  Some (PyDict [ ("a.txt", PyTuple 120 120);
                 ("sub", PyDict [("b.txt", PyTuple 180 180)]) ])
  /\
  destination_after
    (diffTrees literal_fnmatch [] slash_join slash_join true
       snapshot_source snapshot_destination "src" "dst" []) =
  Some (PyDict [("old.txt", PyTuple 60 60)])
  /\ PyDict [ ("a.txt", PyTuple 120 120);
              ("sub", PyDict [("b.txt", PyTuple 180 180)]) ] <> snapshot_source
  /\ PyDict [("old.txt", PyTuple 60 60)] <> snapshot_destination.
Proof. repeat split; try reflexivity; discriminate. Qed.

(** C3, amended.  A call that returns leaves an argument as it was when the
    argument is [None] or a file, when the destination path is excluded, and
    when the source is a file (a destination directory is then handed over
    whole).  Otherwise it changes it: a source directory loses its ["."]
    entry; a destination directory diffed against an absent source loses its
    ["."] entry; one diffed against a source directory first loses every entry
    named like a source entry and then its ["."] entry.  The names that remain
    are the former ones, in their order, and the values that remain are what
    the calls on them have left: the source is left [opened], node by node,
    and the destination is left as [destination_left] tells. *)
Theorem C3_arguments_after_diffTrees :
  forall fnmatch patterns join_s join_d flag source destination ps pd logs
         d source' destination' logs',
    diffTrees fnmatch patterns join_s join_d flag source destination ps pd logs
    = (Ret (d, source', destination'), logs') ->
    (excluded fnmatch patterns pd = true ->
     source' = source /\ destination' = destination)
    /\ (is_dict source = false -> source' = source)
    /\ (is_dict destination = false -> destination' = destination)
    /\ (forall a m, source = PyTuple a m -> destination' = destination)
    /\ (excluded fnmatch patterns pd = false ->
        forall s_items, source = PyDict s_items ->
        exists items',
          source' = PyDict items'
          /\ Some (dict_keys items') = keys_without_self s_items)
    /\ (excluded fnmatch patterns pd = false ->
        forall d_items, source = PyNone -> destination = PyDict d_items ->
        exists items',
          destination' = PyDict items'
          /\ Some (dict_keys items') = keys_without_self d_items)
    /\ (excluded fnmatch patterns pd = false ->
        forall s_items d_items,
          source = PyDict s_items -> destination = PyDict d_items ->
          exists s_self s_rest items',
            dict_pop "." s_items = Some (s_self, s_rest)
            /\ destination' = PyDict items'
            /\ Some (dict_keys items') =
               keys_without_self (pop_keys (dict_keys s_rest) d_items))
    /\ source' = opened fnmatch patterns join_d pd source
    /\ destination' =
       destination_left fnmatch patterns join_d pd source destination.
Proof.
  intros fnmatch patterns join_s join_d flag source destination ps pd logs
         d source' destination' logs' H.
  unfold diffTrees in H.
  pose proof (diffTrees_fuel_opened _ _ _ _ _ _ _ _ _ _ _ _ _ _ _ H)
    as [Hsource Hdestination].
  simpl in H.
  split.
  { intros Hex.
    exact (body_excluded_unchanged _ _ _ _ _ _ _ _ _ _ _ _ _ _ _ H Hex). }
  destruct (body_leaf_unchanged _ _ _ _ _ _ _ _ _ _ _ _ _ _ _ H)
    as (H1 & H2 & H3).
  repeat (split; [assumption |]).
  split; [| split; [| split]].
  - intros Hex s_items ->.
    exact (body_source_dir _ _ _ _ _ _ _ _ _ _ _ _ _ _ _ H Hex).
  - intros Hex d_items -> ->.
    exact (body_destination_dir_absent _ _ _ _ _ _ _ _ _ _ _ _ _ _ H Hex).
  - intros Hex s_items d_items -> ->.
    exact (body_destination_dir_both _ _ _ _ _ _ _ _ _ _ _ _ _ _ _ H Hex).
  - split; assumption.
Qed.

Lemma C3_arguments_after_diffTrees_witness :
  diffTrees literal_fnmatch [] slash_join slash_join true
    snapshot_source snapshot_destination "src" "dst" [] =
  (Ret (mkDiff
          (PyDict [ (".", PyNone); ("a.txt", PyTuple 60 60); ("sub", PyNone);
                    ("old.txt", PyNone) ])
          (PyDict [ (".", PyNone); ("a.txt", PyTuple 120 120);
                    ("sub", PyDict [ (".", PyTuple 60 60);
                                     ("b.txt", PyTuple 180 180) ]) ])
          (PyDict [ (".", PyNone); ("a.txt", PyNone);
                    ("sub", PyDict [(".", PyNone); ("b.txt", PyNone)]) ])
          (PyDict [ (".", PyNone); ("a.txt", PyNone); ("sub", PyNone);
                    ("old.txt", PyTuple 60 60) ])
          (PyDict [ (".", PyNone); ("a.txt", PyNone); ("sub", PyNone);
                    ("old.txt", PyNone) ]),
        PyDict [ ("a.txt", PyTuple 120 120);
                 ("sub", PyDict [("b.txt", PyTuple 180 180)]) ],
        PyDict [("old.txt", PyTuple 60 60)]),
   [])
  /\ (exists items',
        PyDict [ ("a.txt", PyTuple 120 120);
                 ("sub", PyDict [("b.txt", PyTuple 180 180)]) ] = PyDict items'
        /\ Some (dict_keys items') =
           keys_without_self
             [ (".", PyTuple 60 60); ("a.txt", PyTuple 120 120);
               ("sub", PyDict [ (".", PyTuple 60 60);
                                ("b.txt", PyTuple 180 180) ]) ])
  /\ PyDict [ ("a.txt", PyTuple 120 120);
              ("sub", PyDict [("b.txt", PyTuple 180 180)]) ] =
     opened literal_fnmatch [] slash_join "dst" snapshot_source
  /\ PyDict [("old.txt", PyTuple 60 60)] =
     destination_left literal_fnmatch [] slash_join "dst"
       snapshot_source snapshot_destination.
Proof.
  split; [reflexivity |].
  destruct (C3_arguments_after_diffTrees literal_fnmatch [] slash_join
              slash_join true snapshot_source snapshot_destination
              "src" "dst" []
              (mkDiff
                 (PyDict [ (".", PyNone); ("a.txt", PyTuple 60 60);
                           ("sub", PyNone); ("old.txt", PyNone) ])
                 (PyDict [ (".", PyNone); ("a.txt", PyTuple 120 120);
                           ("sub", PyDict [ (".", PyTuple 60 60);
                                            ("b.txt", PyTuple 180 180) ]) ])
                 (PyDict [ (".", PyNone); ("a.txt", PyNone);
                           ("sub", PyDict [(".", PyNone); ("b.txt", PyNone)]) ])
                 (PyDict [ (".", PyNone); ("a.txt", PyNone); ("sub", PyNone);
                           ("old.txt", PyTuple 60 60) ])
                 (PyDict [ (".", PyNone); ("a.txt", PyNone); ("sub", PyNone);
                           ("old.txt", PyNone) ]))
              (PyDict [ ("a.txt", PyTuple 120 120);
                        ("sub", PyDict [("b.txt", PyTuple 180 180)]) ])
              (PyDict [("old.txt", PyTuple 60 60)])
              [] eq_refl)
    as (_ & _ & _ & _ & Hkeys & _ & _ & Hsource & Hdestination).
  split; [exact (Hkeys eq_refl _ eq_refl) |].
  split; [exact Hsource | exact Hdestination].
Defined.

(** ** Bucketing and snapshots *)

(** C7 fails on the code for a timestamp before the epoch with a fraction:
    [int] truncates toward zero, so half a second before the epoch lands in
    bucket [0], while [60 * floor(t / 60)] is [-60]. *)
Lemma C7_counterexample :
  bucket (-1 # 2) = 0
  /\ 60 * Qfloor ((-1 # 2) / 60) = -60
  /\ bucket (-1 # 2) <> 60 * Qfloor ((-1 # 2) / 60).
Proof. repeat split. discriminate. Qed.

(** C7, amended.  The snapshot builder turns a timestamp [t] into
    [60 * (int(t) // 60)]: that is [60 * floor(t / 60)] for every [t >= 0]
    and for every integral [t].  Every file node of a snapshot holds the
    buckets of the atime and of the mtime of one stat result, and so does the
    ["."] entry of every directory node; at the root it is the stat result
    the builder was given, and at every node below it is the stat result that
    the listing of the parent directory yields for the name of the node
    ([built]).  Raw mtimes 100 and 119 both fall into bucket 60, and
    [diffTrees] on two file nodes with these mtimes returns neither a delete
    nor a copy, in either direction. *)
Theorem C7_bucketing :
  (forall t : Q, (0 <= t)%Q -> bucket t = 60 * Qfloor (t / 60))
  /\ (forall z : Z, bucket (inject_Z z) = 60 * Qfloor (inject_Z z / 60))
  /\ (forall (fs : FileSystem) fuel root st followLinks logs t logs',
        _getFilesTree fuel root st followLinks logs = (Ret t, logs') ->
        snapshot t
        /\ (S_ISLNK (st_mode st) = false -> S_ISDIR (st_mode st) = true ->
            exists items,
              t = PyDict items
              /\ dict_get "." items =
                 Some (PyTuple (bucket (st_atime st)) (bucket (st_mtime st))))
        /\ (S_ISLNK (st_mode st) = false -> S_ISDIR (st_mode st) = false ->
            t = PyTuple (bucket (st_atime st)) (bucket (st_mtime st))))
  /\ (forall (fs : FileSystem) fuel root st followLinks logs t logs',
        _getFilesTree fuel root st followLinks logs = (Ret t, logs') ->
        built followLinks root st t)
  /\ bucket 100 = 60
  /\ bucket 119 = 60
  /\ (forall fnmatch patterns join_s join_d flag a1 a2 ps pd logs,
        (exists d,
            returned (diffTrees fnmatch patterns join_s join_d flag
                        (PyTuple a1 (bucket 100)) (PyTuple a2 (bucket 119))
                        ps pd logs) = Some d
            /\ delete d = PyNone /\ copy d = PyNone)
        /\ (exists d,
            returned (diffTrees fnmatch patterns join_s join_d flag
                        (PyTuple a2 (bucket 119)) (PyTuple a1 (bucket 100))
                        ps pd logs) = Some d
            /\ delete d = PyNone /\ copy d = PyNone)).
Proof.
  split; [exact bucket_floor |].
  split; [exact bucket_floor_int |].
  split.
  { intros fs fuel root st followLinks logs t logs' H.
    destruct fuel as [| n]; [discriminate H |]. simpl in H.
    apply getFilesTree_body_snapshot in H; [exact H |].
    intros. eapply getFilesTree_snapshot. eassumption. }
  split.
  { intros fs fuel root st followLinks logs t logs' H.
    exact (getFilesTree_built followLinks fuel root st logs t logs' H). }
  split; [reflexivity |]. split; [reflexivity |].
  intros fnmatch patterns join_s join_d flag a1 a2 ps pd logs.
  rewrite !diff_file_file. unfold returned. simpl.
  destruct (excluded fnmatch patterns pd);
    split; eexists; (split; [reflexivity | split; reflexivity]).
Qed.

Lemma C7_bucketing_witness :
  (0 <= 239 # 2)%Q
  /\ bucket (239 # 2) = 60 * Qfloor ((239 # 2) / 60)
  /\ @_getFilesTree sample_device 2 "/sdcard/Music"
       (mk_stat_result 16877 1 0 1 (-2) (-2) None
          (inject_Z 1577934240) (inject_Z 1577934240) (inject_Z 1577934240))
       false [] =
     (Ret (PyDict [ (".", PyTuple 1577934240 1577934240);
                    ("song.mp3", PyTuple 1577934300 1577934300) ]), [])
  /\ snapshot (PyDict [ (".", PyTuple 1577934240 1577934240);
                        ("song.mp3", PyTuple 1577934300 1577934300) ])
  /\ built (fs := sample_device) false "/sdcard/Music"
       (mk_stat_result 16877 1 0 1 (-2) (-2) None
          (inject_Z 1577934240) (inject_Z 1577934240) (inject_Z 1577934240))
       (PyDict [ (".", PyTuple 1577934240 1577934240);
                 ("song.mp3", PyTuple 1577934300 1577934300) ]).
Proof.
  destruct C7_bucketing as (Hfloor & _ & Hsnap & Hbuilt & _).
  assert (H0 : (0 <= 239 # 2)%Q) by (unfold Qle; simpl; lia).
  split; [exact H0 |]. split; [exact (Hfloor (239 # 2) H0) |].
  split; [reflexivity |].
  split.
  - exact (proj1 (Hsnap sample_device 2%nat "/sdcard/Music"
                    (mk_stat_result 16877 1 0 1 (-2) (-2) None
                       (inject_Z 1577934240) (inject_Z 1577934240)
                       (inject_Z 1577934240))
                    false []
                    (PyDict [ (".", PyTuple 1577934240 1577934240);
                              ("song.mp3", PyTuple 1577934300 1577934300) ])
                    [] eq_refl)).
  - exact (Hbuilt sample_device 2%nat "/sdcard/Music"
             (mk_stat_result 16877 1 0 1 (-2) (-2) None
                (inject_Z 1577934240) (inject_Z 1577934240)
                (inject_Z 1577934240))
             false []
             (PyDict [ (".", PyTuple 1577934240 1577934240);
                       ("song.mp3", PyTuple 1577934300 1577934300) ])
             [] eq_refl).
Defined.

(** ** The ["."] entries that [diffTrees] pops *)

(** C9 fails on the code as it stands: a destination directory without
    ["."] against a source directory is popped only after the entries of the
    source are diffed.  Here the source holds a file [x] where the
    destination holds a directory [x], and with the flag set the call exits
    on this conflict: it raises [SystemExit], not [KeyError]. *)
Lemma C9_counterexample :
  dict_mem "." [("x", PyDict [(".", PyTuple 60 60)])] = false
  /\ excluded literal_fnmatch [] "dst" = false
  /\ diffTrees literal_fnmatch [] slash_join slash_join true
       (PyDict [(".", PyTuple 60 60); ("x", PyTuple 60 60)])
       (PyDict [("x", PyDict [(".", PyTuple 60 60)])]) "src" "dst" [] =
     (Raise SystemExit,
      [ (CRITICAL, "Refusing to overwrite directory 'dst/x' with file 'src/x'");
        (CRITICAL, "Use --force if you are sure!");
        (CRITICAL, "Exiting") ])
  /\ Raise (A := diffed) SystemExit <> Raise (KeyError ".").
Proof. repeat split. discriminate. Qed.

(** C9, amended.  Every tree that [_getFilesTree] or [getFilesTree] returns
    is a snapshot: each of its directory nodes carries a ["."] entry holding
    a pair of bucketed timestamps.  On two trees whose directory nodes all
    carry a ["."] entry [diffTrees] never raises [KeyError]: it returns, or
    exits on a conflict when the flag is set.  On a directory node without
    ["."] that it recurses into (at a path not excluded) it raises
    [KeyError(".")] for a source directory, and for a destination directory
    without source; for a destination directory against a source directory
    it never returns a diff: it raises [KeyError(".")], or, with the flag
    set, it may exit on a conflict first. *)
Theorem C9_self_entries :
  (forall (fs : FileSystem) fuel root st followLinks logs t logs',
      _getFilesTree fuel root st followLinks logs = (Ret t, logs') ->
      snapshot t /\ has_self_entries t = true)
  /\ (forall (fs : FileSystem) fuel root followLinks logs t logs',
        getFilesTree fuel root followLinks logs = (Ret t, logs') ->
        snapshot t /\ has_self_entries t = true)
  /\ (forall fnmatch patterns join_s join_d flag source destination ps pd logs,
        has_self_entries source = true ->
        has_self_entries destination = true ->
        returns_or_exits flag
          (diffTrees fnmatch patterns join_s join_d flag
             source destination ps pd logs)
        /\ forall key,
             fst (diffTrees fnmatch patterns join_s join_d flag
                    source destination ps pd logs) <> Raise (KeyError key))
  /\ (forall fnmatch patterns join_s join_d flag s_items destination ps pd logs,
        excluded fnmatch patterns pd = false ->
        dict_mem "." s_items = false ->
        diffTrees fnmatch patterns join_s join_d flag
          (PyDict s_items) destination ps pd logs
        = (Raise (KeyError "."), logs))
  /\ (forall fnmatch patterns join_s join_d flag d_items ps pd logs,
        excluded fnmatch patterns pd = false ->
        dict_mem "." d_items = false ->
        diffTrees fnmatch patterns join_s join_d flag
          PyNone (PyDict d_items) ps pd logs
        = (Raise (KeyError "."), logs))
  /\ (forall fnmatch patterns join_s join_d flag s_items d_items ps pd logs
             v logs',
        excluded fnmatch patterns pd = false ->
        dict_mem "." d_items = false ->
        diffTrees fnmatch patterns join_s join_d flag
          (PyDict s_items) (PyDict d_items) ps pd logs <> (Ret v, logs'))
  /\ (forall fnmatch patterns join_s join_d flag s_items d_items ps pd logs,
        excluded fnmatch patterns pd = false ->
        dict_mem "." d_items = false ->
        fst (diffTrees fnmatch patterns join_s join_d flag
               (PyDict s_items) (PyDict d_items) ps pd logs)
        = Raise (KeyError ".")
        \/ (fst (diffTrees fnmatch patterns join_s join_d flag
                   (PyDict s_items) (PyDict d_items) ps pd logs)
            = Raise SystemExit
            /\ flag = true)).
Proof.
  split.
  { intros fs fuel root st followLinks logs t logs' H.
    apply getFilesTree_snapshot in H.
    split; [exact H | exact (snapshot_has_self_entries t H)]. }
  split.
  { intros fs fuel root followLinks logs t logs' H.
    apply getFilesTree_public_snapshot in H.
    split; [exact H | exact (snapshot_has_self_entries t H)]. }
  split.
  { intros fnmatch patterns join_s join_d flag source destination ps pd logs
           Hs Hd.
    pose proof (diffTrees_returns fnmatch patterns join_s join_d flag
                  source destination ps pd logs Hs Hd) as H.
    split; [exact H |]. intros key Hk. unfold returns_or_exits in H.
    rewrite Hk in H. destruct H as [H _]. discriminate H. }
  split; [intros; apply diff_source_without_self; assumption |].
  split; [intros; apply diff_destination_without_self; assumption |].
  split; [intros; apply diff_both_without_self; assumption |].
  intros. apply diff_both_without_self_stops; assumption.
Qed.

Lemma C9_self_entries_witness :
  returns_or_exits true
    (diffTrees literal_fnmatch [] slash_join slash_join true
       snapshot_source snapshot_destination "src" "dst" [])
  /\ diffTrees literal_fnmatch [] slash_join slash_join true
       scenario_source scenario_destination "src" "dst" []
     = (Raise (KeyError "."), [])
  /\ has_self_entries
       (PyDict [ (".", PyTuple 1577934240 1577934240);
                 ("song.mp3", PyTuple 1577934300 1577934300) ]) = true
  /\ (fst (diffTrees literal_fnmatch [] slash_join slash_join false
             snapshot_source scenario_destination "src" "dst" [])
      = Raise (KeyError ".")
      \/ (fst (diffTrees literal_fnmatch [] slash_join slash_join false
                 snapshot_source scenario_destination "src" "dst" [])
          = Raise SystemExit
          /\ false = true)).
Proof.
  destruct C9_self_entries as (Hsnap & _ & Hsafe & Hsource & _ & _ & Hboth).
  split; [| split; [| split]].
  - exact (proj1 (Hsafe literal_fnmatch [] slash_join slash_join true
                    snapshot_source snapshot_destination "src" "dst" []
                    eq_refl eq_refl)).
  - exact (Hsource literal_fnmatch [] slash_join slash_join true
             [ ("a.txt", PyTuple 120 120);
               ("sub", PyDict [ (".", PyTuple 60 60);
                                ("b.txt", PyTuple 180 180) ]) ]
             scenario_destination "src" "dst" [] eq_refl eq_refl).
  - exact (proj2 (Hsnap sample_device 2%nat "/sdcard/Music"
                    (mk_stat_result 16877 1 0 1 (-2) (-2) None
                       (inject_Z 1577934240) (inject_Z 1577934240)
                       (inject_Z 1577934240))
                    false []
                    (PyDict [ (".", PyTuple 1577934240 1577934240);
                              ("song.mp3", PyTuple 1577934300 1577934300) ])
                    [] eq_refl)).
  - exact (Hboth literal_fnmatch [] slash_join slash_join false
             [ (".", PyTuple 60 60); ("a.txt", PyTuple 120 120);
               ("sub", PyDict [ (".", PyTuple 60 60);
                                ("b.txt", PyTuple 180 180) ]) ]
             [ ("a.txt", PyTuple 60 60); ("old.txt", PyTuple 60 60) ]
             "src" "dst" [] eq_refl eq_refl).
Defined.

(** ** Dry runs *)



(** ** The remote listing parser *)

(** C8.  Whenever [lsToStat] returns a pair for a line, the line starts with
    its type character, the stat record is a symlink exactly when that
    character is [l], and then the name of the pair is [None].  For every
    other type the name is captured: the line ends with the sixteen
    characters of the date and time, from which the modification time of the
    record is read, one blank, and the name of the pair, which is all the
    rest of the line. *)
Theorem C8_symlink_name_not_parsed :
  forall strptime_timestamp line logs name st logs',
    lsToStat strptime_timestamp line logs = (Ret (name, st), logs') ->
    exists c rest,
      line = String c rest
      /\ S_ISLNK (st_mode st) = Ascii.eqb c "l"
      /\ (S_ISLNK (st_mode st) = true -> name = None)
      /\ (S_ISLNK (st_mode st) = false ->
          exists fields date t filename,
            rest = fields ++ date ++ " " ++ filename
            /\ String.length date = 16%nat
            /\ strptime_timestamp (list_ascii_of_string date) = Some t
            /\ st_mtime st = inject_Z (py_int t)
            /\ name = Some filename).
Proof.
  intros strptime_timestamp line logs name st logs' H.
  pose proof H as Hinv. apply lsToStat_inv in Hinv.
  destruct Hinv as (g & Hmatch & -> & Hmode).
  destruct (lsToStat_inv_mtime _ _ _ _ _ _ _ H Hmatch)
    as (date' & t & Hdate' & Htime & Hmtime).
  apply fullmatch_ls_to_stat_parts in Hmatch.
  destruct Hmatch as (type & c & fields & date & rest & Hin & Hline & Hlen
                      & Hg & Hdate & Hlink & Hother).
  rewrite Hdate in Hdate'. inversion Hdate'; subst date'.
  pose proof (mode_of_type g type c Hin Hg) as Hl. rewrite <- Hmode in Hl.
  exists c, (string_of_list_ascii (fields ++ date ++ " "%char :: rest)).
  split.
  { rewrite <- (string_of_list_ascii_of_string line), Hline. reflexivity. }
  split; [exact Hl |].
  assert (Htype : Ascii.eqb c "l" = String.eqb type "S_IFLNK").
  { simpl in Hin.
    destruct Hin as [E | [E | [E | [E | [E | [E | [E | []]]]]]]];
      inversion E; subst; reflexivity. }
  rewrite Hl, Htype. split; intros E.
  - apply String.eqb_eq in E. rewrite (Hlink E). reflexivity.
  - apply String.eqb_neq in E. rewrite (Hother E).
    exists (string_of_list_ascii fields), (string_of_list_ascii date), t,
      (string_of_list_ascii rest).
    rewrite !string_of_list_ascii_app, length_string_of_list_ascii,
      list_ascii_of_string_of_list_ascii.
    repeat split; assumption || reflexivity.
Qed.

Lemma C8_symlink_name_not_parsed_witness :
  (lsToStat sample_strptime sample_link_line [] =
   (Ret (None,
         mk_stat_result 41453 1 0 1 (-2) (-2) None (inject_Z 1577934240)
           (inject_Z 1577934240) (inject_Z 1577934240)), [])
   /\ exists c rest,
        sample_link_line = String c rest
        /\ S_ISLNK 41453 = Ascii.eqb c "l"
        /\ (S_ISLNK 41453 = true -> @None string = None)
        /\ (S_ISLNK 41453 = false ->
            exists fields date t filename,
              rest = fields ++ date ++ " " ++ filename
              /\ String.length date = 16%nat
              /\ sample_strptime (list_ascii_of_string date) = Some t
              /\ inject_Z 1577934240 = inject_Z (py_int t)
              /\ @None string = Some filename))
  /\
  (lsToStat sample_strptime sample_file_line [] =
   (Ret (Some "song.mp3",
         mk_stat_result 33261 1 0 1 (-2) (-2) (Some 1234)
           (inject_Z 1577934300) (inject_Z 1577934300)
           (inject_Z 1577934300)), [])
   /\ exists c rest,
        sample_file_line = String c rest
        /\ S_ISLNK 33261 = Ascii.eqb c "l"
        /\ (S_ISLNK 33261 = true -> Some "song.mp3" = None)
        /\ (S_ISLNK 33261 = false ->
            exists fields date t filename,
              rest = fields ++ date ++ " " ++ filename
              /\ String.length date = 16%nat
              /\ sample_strptime (list_ascii_of_string date) = Some t
              /\ inject_Z 1577934300 = inject_Z (py_int t)
              /\ Some "song.mp3" = Some filename)).
Proof.
  split; (split; [reflexivity |]).
  - exact (C8_symlink_name_not_parsed sample_strptime sample_link_line
             [] None
             (mk_stat_result 41453 1 0 1 (-2) (-2) None (inject_Z 1577934240)
                (inject_Z 1577934240) (inject_Z 1577934240))
             [] eq_refl).
  - exact (C8_symlink_name_not_parsed sample_strptime sample_file_line
             [] (Some "song.mp3")
             (mk_stat_result 33261 1 0 1 (-2) (-2) (Some 1234)
                (inject_Z 1577934300) (inject_Z 1577934300)
                (inject_Z 1577934300))
             [] eq_refl).
Defined.

(** * Lemmas for the further properties *)

(** ** [pruneTree] *)

Lemma pruneTree_dict items :
  pruneTree (PyDict items) = dict_or_None (fold_left prune_step items []).
Proof. reflexivity. Qed.

Lemma dict_setitem_not_nil {A} key (v : A) d : dict_setitem key v d <> [].
Proof.
  destruct d as [| [k x] rest]; simpl; [discriminate |].
  destruct (String.eqb k key); discriminate.
Qed.

Lemma dict_setitem_fresh {A} key (v : A) d :
  dict_mem key d = false -> dict_setitem key v d = (d ++ [(key, v)])%list.
Proof.
  induction d as [| [k x] rest IH]; simpl; [reflexivity |].
  intros H. apply orb_false_iff in H. destruct H as [Hk Hrest].
  rewrite Hk, (IH Hrest). reflexivity.
Qed.

Lemma prune_fold_keeps items :
  forall acc,
    Forall (fun kv => pruneTree (snd kv) = PyNone) items ->
    fold_left prune_step items acc = acc.
Proof.
  induction items as [| kv rest IH]; simpl; intros acc HF; [reflexivity |].
  inversion HF as [| ? ? Hkv HF']; subst.
  unfold prune_step at 2. rewrite Hkv. apply IH. exact HF'.
Qed.

Lemma prune_fold_not_nil items :
  forall acc, acc <> [] -> fold_left prune_step items acc <> [].
Proof.
  induction items as [| kv rest IH]; simpl; intros acc Hacc; [exact Hacc |].
  apply IH. unfold prune_step. destruct (pruneTree (snd kv));
    try exact Hacc; apply dict_setitem_not_nil.
Qed.

Lemma prune_fold_pruned items :
  forall acc,
    Forall (fun kv => pruneTree (snd kv) = PyNone
                      \/ pruned (pruneTree (snd kv)) = true) items ->
    distinct_keys acc = true ->
    Forall (fun kv => pruned (snd kv) = true) acc ->
    distinct_keys (fold_left prune_step items acc) = true
    /\ Forall (fun kv => pruned (snd kv) = true)
         (fold_left prune_step items acc).
Proof.
  induction items as [| kv rest IH]; simpl; intros acc HF Hd Hp.
  - split; assumption.
  - inversion HF as [| ? ? Hkv HF']; subst. apply IH; [exact HF' | |];
      unfold prune_step; destruct Hkv as [Hkv | Hkv].
    + rewrite Hkv. exact Hd.
    + destruct (pruneTree (snd kv)); try exact Hd;
        apply dict_setitem_distinct; exact Hd.
    + rewrite Hkv. exact Hp.
    + destruct (pruneTree (snd kv)) eqn:E; try exact Hp;
        apply (dict_setitem_Forall (fun t => pruned t = true)); assumption.
Qed.

Lemma pruned_dict_or_None d :
  d <> [] ->
  distinct_keys d = true ->
  Forall (fun kv => pruned (snd kv) = true) d ->
  pruned (dict_or_None d) = true.
Proof.
  intros Hn Hd Hp. destruct d as [| kv rest]; [contradiction |].
  unfold dict_or_None. cbn [pruned]. rewrite Hd. cbn [andb].
  apply forallb_forall. rewrite Forall_forall in Hp. exact Hp.
Qed.

(** [pruneTree] gives [None] for a tree without times and a pruned tree for
    any other. *)
Lemma pruneTree_spec t :
  if has_times t then pruned (pruneTree t) = true else pruneTree t = PyNone.
Proof.
  induction t as [| a m | items IH] using tree_ind'; [reflexivity .. |].
  rewrite pruneTree_dict. cbn [has_times].
  assert (Hall : Forall (fun kv => pruneTree (snd kv) = PyNone
                                   \/ pruned (pruneTree (snd kv)) = true)
                   items).
  { eapply Forall_impl; [| exact IH]. intros kv H. cbv beta in H.
    destruct (has_times (snd kv)); [right | left]; exact H. }
  destruct (existsb (fun kv => has_times (snd kv)) items) eqn:Hex.
  - destruct (prune_fold_pruned items [] Hall eq_refl (Forall_nil _))
      as [Hd Hp].
    apply pruned_dict_or_None; try assumption.
    clear Hd Hp Hall.
    assert (Hgen : forall acc, fold_left prune_step items acc <> []).
    { induction items as [| kv rest IHr]; [discriminate Hex |].
      inversion IH as [| ? ? Hkv IH']; subst. simpl in Hex. intros acc.
      cbn [fold_left].
      destruct (has_times (snd kv)) eqn:Hkv'.
      - apply prune_fold_not_nil. unfold prune_step.
        destruct (pruneTree (snd kv)); try discriminate Hkv;
          apply dict_setitem_not_nil.
      - simpl in Hex. apply IHr; assumption. }
    apply Hgen.
  - rewrite prune_fold_keeps; [reflexivity |].
    apply Forall_forall. intros kv Hin.
    rewrite Forall_forall in IH. specialize (IH kv Hin). cbv beta in IH.
    assert (Hk : has_times (snd kv) = false).
    { destruct (has_times (snd kv)) eqn:E; [| reflexivity].
      rewrite <- Hex. symmetry. apply existsb_exists. exists kv.
      split; assumption. }
    rewrite Hk in IH. exact IH.
Qed.

Lemma prune_fold_pruned_items items :
  forall acc,
    Forall (fun kv => pruneTree (snd kv) = snd kv /\ pruned (snd kv) = true)
      items ->
    distinct_keys (acc ++ items) = true ->
    fold_left prune_step items acc = (acc ++ items)%list.
Proof.
  induction items as [| [k v] rest IH]; simpl; intros acc HF Hd.
  - symmetry. apply app_nil_r.
  - inversion HF as [| ? ? [Hv Hp] HF']; subst. simpl in Hv, Hp.
    assert (Hstep : prune_step acc (k, v) = (acc ++ [(k, v)])%list).
    { unfold prune_step. simpl. rewrite Hv.
      assert (Hfresh : dict_mem k acc = false).
      { clear - Hd. induction acc as [| [k' x] acc' IHa]; [reflexivity |].
        simpl in Hd. apply andb_true_iff in Hd. destruct Hd as [Hk Hd].
        simpl. rewrite (IHa Hd), orb_false_r.
        apply negb_true_iff in Hk.
        assert (Hmem : dict_mem k' (acc' ++ (k, v) :: rest) = false)
          by exact Hk.
        clear - Hmem. induction acc' as [| [k'' y] acc'' IHb]; simpl in *.
        - apply orb_false_iff in Hmem. destruct Hmem as [H _].
          rewrite String.eqb_sym. exact H.
        - apply orb_false_iff in Hmem. destruct Hmem as [_ H]. exact (IHb H). }
      destruct v; try discriminate Hp; apply dict_setitem_fresh; exact Hfresh. }
    rewrite Hstep, IH; [| exact HF' |]; rewrite <- app_assoc; [reflexivity |].
    exact Hd.
Qed.

(** A pruned tree is left as it is. *)
Lemma pruneTree_pruned t : pruned t = true -> pruneTree t = t.
Proof.
  induction t as [| a m | items IH] using tree_ind'; intros H;
    [discriminate H | reflexivity |].
  rewrite pruneTree_dict. cbn [pruned] in H.
  apply andb_true_iff in H. destruct H as [H Hall].
  apply andb_true_iff in H. destruct H as [Hne Hd].
  rewrite prune_fold_pruned_items.
  - simpl. destruct items; [discriminate Hne | reflexivity].
  - rewrite forallb_forall in Hall. apply Forall_forall. intros kv Hin.
    rewrite Forall_forall in IH. split; [apply IH |]; auto.
  - exact Hd.
Qed.

(** ** A tree against itself, against nothing, and nothing against a tree *)

Lemma has_times_dict items :
  Forall (fun kv => has_times (snd kv) = false) items ->
  has_times (PyDict items) = false.
Proof.
  intros H. cbn [has_times]. destruct (existsb _ items) eqn:E; [| reflexivity].
  apply existsb_exists in E. destruct E as (kv & Hin & Hkv).
  rewrite Forall_forall in H. rewrite (H kv Hin) in Hkv. discriminate Hkv.
Qed.

Lemma no_times_self_entry :
  Forall (fun kv => has_times (snd kv) = false) (self_entry PyNone).
Proof. repeat constructor. Qed.

Lemma distinct_keys_app_fresh {A} (acc : list (string * A)) key v rest :
  distinct_keys (acc ++ (key, v) :: rest) = true -> dict_mem key acc = false.
Proof.
  induction acc as [| [k x] acc' IH]; simpl; [reflexivity |].
  intros H. apply andb_true_iff in H. destruct H as [Hk Hd].
  rewrite (IH Hd), orb_false_r. apply negb_true_iff in Hk.
  clear - Hk. induction acc' as [| [k' y] acc'' IHa]; simpl in *.
  - apply orb_false_iff in Hk. destruct Hk as [H _].
    rewrite String.eqb_sym. exact H.
  - apply orb_false_iff in Hk. destruct Hk as [_ H]. exact (IHa H).
Qed.

(** Popping a key that is there, from a dict whose ["."] entry is known. *)
Lemma dict_pop_after_self (d : dict) self key v rest :
  dict_pop "." d = Some (self, (key, v) :: rest) ->
  distinct_keys d = true ->
  exists d',
    dict_pop key d = Some (v, d')
    /\ dict_pop "." d' = Some (self, rest)
    /\ distinct_keys d' = true.
Proof.
  destruct d as [| [k x] d1]; [discriminate |].
  intros Hp Hd. cbn [dict_pop] in Hp. cbn [distinct_keys] in Hd.
  apply andb_true_iff in Hd. destruct Hd as [Hk Hd1].
  apply negb_true_iff in Hk.
  destruct (String.eqb_spec k ".") as [-> | Hdot].
  - inversion Hp; subst. cbn [dict_mem distinct_keys] in Hk, Hd1.
    apply orb_false_iff in Hk. destruct Hk as [Hne Hk].
    apply andb_true_iff in Hd1. destruct Hd1 as [Hkey Hrest].
    exists ((".", self) :: rest). cbn [dict_pop distinct_keys].
    rewrite String.eqb_sym in Hne.
    rewrite Hne, !String.eqb_refl, Hk, Hrest.
    repeat split.
  - destruct (dict_pop "." d1) as [[y d2] |] eqn:Hp1; [| discriminate Hp].
    inversion Hp; subst. exists d1. cbn [dict_pop].
    rewrite String.eqb_refl. repeat split; assumption.
Qed.

Lemma dict_pop_only_self (d : dict) self :
  dict_pop "." d = Some (self, []) -> d = [(".", self)].
Proof.
  destruct d as [| [k x] d1]; simpl; [discriminate |].
  destruct (String.eqb_spec k ".") as [-> | _].
  - intros H. inversion H. reflexivity.
  - destruct (dict_pop "." d1) as [[y d2] |]; intros H; inversion H.
Qed.

Section SelfDiff.
Variable fnmatch : string -> string -> bool.
Variable patterns : list string.
Variables join_s join_d : string -> string -> string.
Variable flag : bool.

Lemma loop_both_self rec n ps pd self :
  (forall t ps pd logs, fits n t -> nothing_to_do (rec t t ps pd logs) logs) ->
  forall rest destination del cop exs una exd seen logs,
    dict_pop "." destination = Some (self, rest) ->
    distinct_keys destination = true ->
    Forall (fun kv => fits n (snd kv)) rest ->
    Forall (fun kv => has_times (snd kv) = false) del ->
    Forall (fun kv => has_times (snd kv) = false) cop ->
    Forall (fun kv => has_times (snd kv) = false) una ->
    exists del' cop' exs' una' exd' seen',
      loop_both join_s join_d rec ps pd rest destination
        del cop exs una exd seen logs =
      (Ret (del', cop', exs', una', exd', seen', [(".", self)]), logs)
      /\ Forall (fun kv => has_times (snd kv) = false) del'
      /\ Forall (fun kv => has_times (snd kv) = false) cop'
      /\ Forall (fun kv => has_times (snd kv) = false) una'.
Proof.
  intros Hrec. induction rest as [| [key v] rest IH]; cbn [loop_both];
    intros destination del cop exs una exd seen logs Hp Hd HF Hdel Hcop Huna.
  - apply dict_pop_only_self in Hp. subst destination.
    do 6 eexists. split; [reflexivity |]. repeat split; assumption.
  - destruct (dict_pop_after_self _ _ _ _ _ Hp Hd) as (d' & Hk & Hp' & Hd').
    unfold pop_default. rewrite Hk.
    inversion HF as [| ? ? Hv HF']; subst. simpl in Hv.
    destruct (Hrec v (join_s ps key) (join_d pd key) logs Hv)
      as (d & s' & t' & Hr & H1 & H2 & H3).
    unfold bind. rewrite Hr.
    apply IH; try assumption;
      apply (dict_setitem_Forall (fun t => has_times t = false));
      assumption.
Qed.

Lemma body_self rec n :
  (forall t ps pd logs, fits n t -> nothing_to_do (rec t t ps pd logs) logs) ->
  forall t ps pd logs,
    fits (S n) t ->
    nothing_to_do
      (diffTrees_body fnmatch patterns join_s join_d flag rec t t ps pd logs)
      logs.
Proof.
  intros Hrec t ps pd logs Ht. unfold diffTrees_body, nothing_to_do.
  destruct t as [| a m | items].
  - do 3 eexists. split; [reflexivity |]. repeat split.
  - destruct (excluded fnmatch patterns pd).
    + do 3 eexists. split; [reflexivity |]. repeat split.
    + rewrite Z.ltb_irrefl. do 3 eexists. split; [reflexivity |].
      repeat split.
  - destruct (excluded fnmatch patterns pd).
    + do 3 eexists. split; [reflexivity |]. repeat split.
    + destruct (fits_children _ _ Ht) as (Hm & Hk & HF & _).
      destruct (dict_mem_pop _ _ Hm) as [[self rest] Hp].
      unfold bind at 1. unfold pop. rewrite Hp. unfold ret at 1.
      cbn [snd].
      destruct (loop_both_self rec n ps pd self Hrec rest items
                  (self_entry PyNone) (self_entry PyNone) (self_entry PyNone)
                  (self_entry PyNone) (self_entry PyNone) [] logs
                  Hp Hk
                  (proj2 (dict_pop_Forall (fits n) _ _ _ _ Hp HF))
                  no_times_self_entry no_times_self_entry
                  no_times_self_entry)
        as (del & cop & exs & una & exd & seen & Hl & H1 & H2 & H3).
      unfold bind. rewrite Hl. simpl.
      do 3 eexists. split; [reflexivity |].
      repeat split; apply has_times_dict; assumption.
Qed.

Lemma diffTrees_fuel_self fuel :
  forall t ps pd logs,
    fits fuel t ->
    nothing_to_do
      (diffTrees_fuel fnmatch patterns join_s join_d flag fuel t t ps pd logs)
      logs.
Proof.
  induction fuel as [| n IH]; intros t ps pd logs Ht.
  - destruct Ht as [_ Ht]. lia.
  - simpl. apply (body_self _ n); assumption.
Qed.
End SelfDiff.

Lemma starts_children items n :
  starts (S n) (PyDict items) ->
  exists self rest,
    items = (".", self) :: rest
    /\ distinct_keys items = true
    /\ Forall (fun kv => starts n (snd kv)) rest.
Proof.
  intros [Hs Hh]. cbn [self_first] in Hs.
  apply andb_true_iff in Hs. destruct Hs as [Hs Hall].
  apply andb_true_iff in Hs. destruct Hs as [Hhead Hd].
  destruct items as [| [k self] rest]; [discriminate Hhead |].
  apply String.eqb_eq in Hhead. subst k. exists self, rest.
  split; [reflexivity |]. split; [exact Hd |].
  pose proof (tree_height_children _ _ Hh) as Hc.
  inversion Hc as [| ? ? _ Hc']; subst.
  cbn [forallb] in Hall. apply andb_true_iff in Hall.
  destruct Hall as [_ Hall]. rewrite forallb_forall in Hall.
  apply Forall_forall. intros kv Hin. rewrite Forall_forall in Hc'.
  split; [apply Hall | apply Hc']; exact Hin.
Qed.

Section OneSide.
Variable fnmatch : string -> string -> bool.
Variables join_s join_d : string -> string -> string.
Variable flag : bool.

Lemma loop_source_copies rec n ps pd :
  (forall t ps pd logs,
      starts n t -> copies_all t (rec t PyNone ps pd logs) logs) ->
  forall rest cop exc seen logs,
    Forall (fun kv => starts n (snd kv)) rest ->
    distinct_keys (cop ++ rest) = true ->
    Forall (fun kv => has_times (snd kv) = false) exc ->
    exists exc' seen',
      loop_source join_s join_d rec ps pd rest cop exc seen logs =
      (Ret ((cop ++ rest)%list, exc', seen'), logs)
      /\ Forall (fun kv => has_times (snd kv) = false) exc'.
Proof.
  intros Hrec. induction rest as [| [key v] rest IH]; cbn [loop_source];
    intros cop exc seen logs HF Hd Hexc.
  - rewrite app_nil_r. do 2 eexists. split; [reflexivity | exact Hexc].
  - inversion HF as [| ? ? Hv HF']; subst. simpl in Hv.
    destruct (Hrec v (join_s ps key) (join_d pd key) logs Hv)
      as (d & s' & Hr & Hc & _ & _ & _ & He).
    unfold bind. rewrite Hr. rewrite Hc.
    rewrite (dict_setitem_fresh key v cop)
      by exact (distinct_keys_app_fresh cop key v rest Hd).
    replace (cop ++ (key, v) :: rest)%list
      with ((cop ++ [(key, v)]) ++ rest)%list
      by (rewrite <- app_assoc; reflexivity).
    apply IH; [exact HF' | rewrite <- app_assoc; exact Hd |].
    apply (dict_setitem_Forall (fun t => has_times t = false)); assumption.
Qed.

Lemma loop_destination_unaccounted rec n ps pd :
  (forall t ps pd logs,
      starts n t -> unaccounted_all t (rec PyNone t ps pd logs) logs) ->
  forall rest del una exc seen logs,
    Forall (fun kv => starts n (snd kv)) rest ->
    distinct_keys (una ++ rest) = true ->
    Forall (fun kv => has_times (snd kv) = false) del ->
    Forall (fun kv => has_times (snd kv) = false) exc ->
    exists del' exc' seen',
      loop_destination join_s join_d rec ps pd rest del una exc seen logs =
      (Ret (del', (una ++ rest)%list, exc', seen'), logs)
      /\ Forall (fun kv => has_times (snd kv) = false) del'
      /\ Forall (fun kv => has_times (snd kv) = false) exc'.
Proof.
  intros Hrec. induction rest as [| [key v] rest IH]; cbn [loop_destination];
    intros del una exc seen logs HF Hd Hdel Hexc.
  - rewrite app_nil_r. do 3 eexists. split; [reflexivity |].
    split; assumption.
  - inversion HF as [| ? ? Hv HF']; subst. simpl in Hv.
    destruct (Hrec v (join_s ps key) (join_d pd key) logs Hv)
      as (d & t' & Hr & Hu & _ & _ & H1 & H2).
    unfold bind. rewrite Hr. rewrite Hu.
    rewrite (dict_setitem_fresh key v una)
      by exact (distinct_keys_app_fresh una key v rest Hd).
    replace (una ++ (key, v) :: rest)%list
      with ((una ++ [(key, v)]) ++ rest)%list
      by (rewrite <- app_assoc; reflexivity).
    apply IH; [exact HF' | rewrite <- app_assoc; exact Hd | |];
      apply (dict_setitem_Forall (fun t => has_times t = false)); assumption.
Qed.

Lemma diffTrees_fuel_copies fuel :
  forall t ps pd logs,
    starts fuel t ->
    copies_all t
      (diffTrees_fuel fnmatch [] join_s join_d flag fuel t PyNone ps pd logs)
      logs.
Proof.
  induction fuel as [| n IH]; intros t ps pd logs Ht.
  - destruct Ht as [_ Ht]. lia.
  - simpl. unfold diffTrees_body, copies_all. cbn [excluded existsb].
    destruct t as [| a m | items].
    + do 2 eexists. split; [reflexivity |]. repeat split.
    + do 2 eexists. split; [reflexivity |]. repeat split.
    + destruct (starts_children _ _ Ht) as (self & rest & -> & Hd & HF).
      unfold bind at 1, getitem. cbn [dict_get String.eqb Ascii.eqb Bool.eqb].
      unfold ret at 1. unfold bind at 1, pop.
      cbn [dict_pop String.eqb Ascii.eqb Bool.eqb]. unfold ret at 1.
      cbn [snd].
      destruct (loop_source_copies _ n ps pd IH rest (self_entry self)
                  (self_entry PyNone) [] logs HF Hd no_times_self_entry)
        as (exc' & seen' & Hl & He).
      unfold bind. rewrite Hl. do 2 eexists. split; [reflexivity |].
      repeat split. apply has_times_dict. exact He.
Qed.

Lemma diffTrees_fuel_unaccounted fuel :
  forall t ps pd logs,
    starts fuel t ->
    unaccounted_all t
      (diffTrees_fuel fnmatch [] join_s join_d flag fuel PyNone t ps pd logs)
      logs.
Proof.
  induction fuel as [| n IH]; intros t ps pd logs Ht.
  - destruct Ht as [_ Ht]. lia.
  - simpl. unfold diffTrees_body, unaccounted_all. cbn [excluded existsb].
    destruct t as [| a m | items].
    + do 2 eexists. split; [reflexivity |]. repeat split.
    + do 2 eexists. split; [reflexivity |]. repeat split.
    + destruct (starts_children _ _ Ht) as (self & rest & -> & Hd & HF).
      unfold bind at 1, getitem. cbn [dict_get String.eqb Ascii.eqb Bool.eqb].
      unfold ret at 1. unfold bind at 1, pop.
      cbn [dict_pop String.eqb Ascii.eqb Bool.eqb]. unfold ret at 1.
      cbn [snd].
      destruct (loop_destination_unaccounted _ n ps pd IH rest
                  (self_entry PyNone) (self_entry self) (self_entry PyNone)
                  [] logs HF Hd no_times_self_entry no_times_self_entry)
        as (del' & exc' & seen' & Hl & H1 & H2).
      unfold bind. rewrite Hl. do 2 eexists. split; [reflexivity |].
      repeat split; apply has_times_dict; assumption.
Qed.
End OneSide.

Lemma bind_returns {A B} (c : M A) (f : A -> M B) logs a logs' :
  c logs = (Ret a, logs') -> bind c f logs = f a logs'.
Proof. intros H. unfold bind. rewrite H. reflexivity. Qed.

Lemma bind_raises {A B} (c : M A) (f : A -> M B) logs e logs' :
  c logs = (Raise e, logs') -> bind c f logs = (Raise e, logs').
Proof. intros H. unfold bind. rewrite H. reflexivity. Qed.

Lemma getitem_returns key d v logs :
  dict_get key d = Some v -> getitem key d logs = (Ret v, logs).
Proof. intros H. unfold getitem. rewrite H. reflexivity. Qed.

Lemma pop_returns key d r logs :
  dict_pop key d = Some r -> pop key d logs = (Ret r, logs).
Proof. intros H. unfold pop. rewrite H. reflexivity. Qed.

Section ExcludedRoot.
Variable fnmatch : string -> string -> bool.
Variable patterns : list string.
Variables join_s join_d : string -> string -> string.
Variable flag : bool.

(** Lines 52-57, 65-70, 94-99, 107-112, 127-132, 149-154, 174-179 and
    205-210: the branches taken when the path is excluded. *)
Lemma diff_excluded source destination ps pd logs :
  excluded fnmatch patterns pd = true ->
  exists d,
    diffTrees fnmatch patterns join_s join_d flag
      source destination ps pd logs = (Ret (d, source, destination), logs)
    /\ has_times (delete d) = false
    /\ has_times (copy d) = false
    /\ has_times (unaccounted_destination d) = false.
Proof.
  intros Hex. rewrite diffTrees_unfold. unfold diffTrees_body. rewrite Hex.
  destruct source, destination; eexists; (split; [reflexivity |]);
    repeat split.
Qed.

Lemma loop_source_absent_returns rec n ps pd :
  (forall t ps pd logs,
      fits n t -> exists v, rec t PyNone ps pd logs = (Ret v, logs)) ->
  forall rest cop exc seen logs,
    Forall (fun kv => fits n (snd kv)) rest ->
    exists v,
      loop_source join_s join_d rec ps pd rest cop exc seen logs =
      (Ret v, logs).
Proof.
  intros Hrec. induction rest as [| [key t] rest IH]; cbn [loop_source];
    intros cop exc seen logs HF.
  - eexists. reflexivity.
  - inversion HF as [| ? ? Ht HF']; subst. simpl in Ht.
    destruct (Hrec t (join_s ps key) (join_d pd key) logs Ht) as [v Hv].
    unfold bind. rewrite Hv. destruct v as [[d s'] t']. apply IH. exact HF'.
Qed.

(** Against an absent destination no conflict can arise: the call returns
    whatever the flag is, and logs nothing. *)
Lemma diffTrees_fuel_absent_returns fuel :
  forall t ps pd logs,
    fits fuel t ->
    exists v,
      diffTrees_fuel fnmatch patterns join_s join_d flag fuel
        t PyNone ps pd logs = (Ret v, logs).
Proof.
  induction fuel as [| n IH]; intros t ps pd logs Ht.
  - destruct Ht as [_ Ht]. lia.
  - simpl. unfold diffTrees_body.
    destruct t as [| a m | items];
      destruct (excluded fnmatch patterns pd);
      try (eexists; reflexivity).
    destruct (fits_children _ _ Ht) as (Hm & Hk & HF & _).
    destruct (dict_mem_get _ _ Hm) as [self Hg].
    destruct (dict_mem_pop _ _ Hm) as [[self' rest] Hp].
    unfold bind at 1, getitem. rewrite Hg. unfold ret at 1.
    unfold bind at 1, pop. rewrite Hp. unfold ret at 1. cbn [snd].
    destruct (loop_source_absent_returns _ n ps pd IH rest (self_entry self)
                (self_entry PyNone) [] logs
                (proj2 (dict_pop_Forall (fits n) _ _ _ _ Hp HF)))
      as [[[cop exc] seen] Hl].
    unfold bind. rewrite Hl. eexists. reflexivity.
Qed.

(** Directory over file, lines 180-202, with the flag set: the children are
    diffed, then the call exits. *)
Lemma diff_dir_file_exits s_items da dm ps pd logs :
  flag = true ->
  excluded fnmatch patterns pd = false ->
  has_self_entries (PyDict s_items) = true ->
  diffTrees fnmatch patterns join_s join_d flag
    (PyDict s_items) (PyTuple da dm) ps pd logs =
  (Raise SystemExit,
   (logs ++ [ (CRITICAL,
               format2 "Refusing to overwrite file '" pd
                 "' with directory '" ps "'");
              (CRITICAL, "Use --force if you are sure!");
              (CRITICAL, "Exiting") ])%list).
Proof.
  intros Hflag Hex Hs. rewrite diffTrees_unfold. unfold diffTrees_body.
  rewrite Hex.
  assert (Ht : fits (S (Nat.max (tree_height (PyDict s_items))
                          (tree_height (PyTuple da dm))))
                 (PyDict s_items)).
  { split; [exact Hs | lia]. }
  destruct (fits_children _ _ Ht) as (Hm & Hk & HF & _).
  destruct (dict_mem_get _ _ Hm) as [self Hg].
  destruct (dict_mem_pop _ _ Hm) as [[self' rest] Hp].
  destruct (loop_source_absent_returns _ _ ps pd
              (diffTrees_fuel_absent_returns _) rest (self_entry self)
              (self_entry PyNone) [] logs
              (proj2 (dict_pop_Forall (fits _) _ _ _ _ Hp HF)))
    as [[[cop exc] seen] Hl].
  apply bind_raises.
  rewrite (bind_returns _ _ _ _ _ (getitem_returns _ _ _ logs Hg)).
  rewrite (bind_returns _ _ _ _ _ (pop_returns _ _ _ logs Hp)).
  cbn [snd]. rewrite (bind_returns _ _ _ _ _ Hl).
  apply bind_raises. unfold conflict. rewrite Hflag.
  unfold bind, criticalLogExit, bind, logging_log, raise. simpl.
  rewrite <- !app_assoc. reflexivity.
Qed.
End ExcludedRoot.

(** ** The snapshot builder: where the entry of a directory goes *)

Lemma self_first_intro self rest :
  distinct_keys ((".", self) :: rest) = true ->
  Forall (fun kv => self_first (snd kv) = true) ((".", self) :: rest) ->
  self_first (PyDict ((".", self) :: rest)) = true.
Proof.
  intros Hd HF. cbn [self_first]. rewrite Hd. cbn [String.eqb Ascii.eqb
    Bool.eqb andb]. apply forallb_forall. rewrite Forall_forall in HF.
  exact HF.
Qed.

Section SnapshotOrder.
Context {fs : FileSystem}.

Lemma listing_loop_self_first rec :
  (forall root st logs t logs',
      rec root st logs = (Ret t, logs') -> self_first t = true) ->
  forall steps root self rest logs r logs',
    listing_loop rec root steps ((".", self) :: rest) logs = (Ret r, logs') ->
    distinct_keys ((".", self) :: rest) = true ->
    Forall (fun kv => self_first (snd kv) = true) ((".", self) :: rest) ->
    self_first (PyDict r) = true.
Proof.
  intros Hrec. induction steps as [| step steps' IH]; cbn [listing_loop];
    intros root self rest logs r logs' H Hd HF.
  - apply ret_inv in H. destruct H as [<- _].
    apply self_first_intro; assumption.
  - inv_bind H. destruct a as [[filename |] st]; cbn [fst snd] in H;
      [| discriminate H].
    destruct (String.eqb filename "." || String.eqb filename "..") eqn:Hdot.
    + exact (IH _ _ _ _ _ _ H Hd HF).
    + inv_bind H. apply Hrec in Hc0.
      apply orb_false_iff in Hdot. destruct Hdot as [Hdot _].
      assert (Hset : dict_setitem filename a ((".", self) :: rest) =
                     (".", self) :: dict_setitem filename a rest).
      { cbn [dict_setitem]. rewrite String.eqb_sym, Hdot. reflexivity. }
      pose proof (dict_setitem_distinct filename a _ Hd) as Hd'.
      pose proof (dict_setitem_Forall (fun t => self_first t = true)
                    filename a _ Hc0 HF) as HF'.
      rewrite Hset in H, Hd', HF'.
      exact (IH _ _ _ _ _ _ H Hd' HF').
Qed.

Lemma getFilesTree_body_self_first rec root st followLinks logs t logs' :
  (forall root st logs t logs',
      rec root st logs = (Ret t, logs') -> self_first t = true) ->
  getFilesTree_body rec root st followLinks logs = (Ret t, logs') ->
  self_first t = true.
Proof.
  intros Hrec H. unfold getFilesTree_body in H.
  destruct (S_ISLNK (st_mode st)).
  - destruct (negb followLinks).
    + inv_bind H. apply ret_inv in H. destruct H as [<- _]. reflexivity.
    + inv_bind H. inv_bind H. destruct a0 as [[p s] |].
      * exact (Hrec _ _ _ _ _ H).
      * apply ret_inv in H. destruct H as [<- _]. reflexivity.
  - destruct (S_ISDIR (st_mode st)).
    + inv_bind H. apply ret_inv in H. destruct H as [<- _].
      apply (listing_loop_self_first rec Hrec) in Hc; [exact Hc | |].
      * reflexivity.
      * repeat constructor.
    + destruct (S_ISREG (st_mode st)); [| discriminate H].
      apply ret_inv in H. destruct H as [<- _]. reflexivity.
Qed.

Lemma getFilesTree_fuel_self_first fuel :
  forall root st followLinks logs t logs',
    _getFilesTree fuel root st followLinks logs = (Ret t, logs') ->
    self_first t = true.
Proof.
  induction fuel as [| n IH]; simpl;
    intros root st followLinks logs t logs' H; [discriminate H |].
  apply getFilesTree_body_self_first in H; [exact H |].
  intros. eapply IH. eassumption.
Qed.

Lemma getFilesTree_self_first fuel root followLinks logs t logs' :
  getFilesTree fuel root followLinks logs = (Ret t, logs') ->
  self_first t = true.
Proof.
  unfold getFilesTree. intros H. inv_bind H.
  exact (getFilesTree_fuel_self_first _ _ _ _ _ _ _ H).
Qed.
End SnapshotOrder.

(** ** A first synchronisation *)

Lemma diffTrees_copies fnmatch join_s join_d flag t ps pd logs :
  self_first t = true ->
  copies_all t
    (diffTrees fnmatch [] join_s join_d flag t PyNone ps pd logs) logs.
Proof.
  intros H.
  apply (diffTrees_fuel_copies fnmatch join_s join_d flag
           (S (Nat.max (tree_height t) (tree_height PyNone)))).
  split; [exact H | simpl; lia].
Qed.

Lemma diffTrees_unaccounted fnmatch join_s join_d flag t ps pd logs :
  self_first t = true ->
  unaccounted_all t
    (diffTrees fnmatch [] join_s join_d flag PyNone t ps pd logs) logs.
Proof.
  intros H.
  apply (diffTrees_fuel_unaccounted fnmatch join_s join_d flag
           (S (Nat.max (tree_height PyNone) (tree_height t)))).
  split; [exact H | simpl; lia].
Qed.

Section SnapshotParent.
Context {fs : FileSystem}.

Lemma listing_loop_no_parent rec :
  (forall root st logs t logs',
      rec root st logs = (Ret t, logs') -> no_parent_entry t = true) ->
  forall steps root tree_ logs r logs',
    listing_loop rec root steps tree_ logs = (Ret r, logs') ->
    no_parent_entry (PyDict tree_) = true ->
    no_parent_entry (PyDict r) = true.
Proof.
  intros Hrec. induction steps as [| step steps' IH]; cbn [listing_loop];
    intros root tree_ logs r logs' H Ht.
  - apply ret_inv in H. destruct H as [<- _]. exact Ht.
  - inv_bind H. destruct a as [[filename |] st]; cbn [fst snd] in H;
      [| discriminate H].
    destruct (String.eqb filename "." || String.eqb filename "..") eqn:Hdot.
    + exact (IH _ _ _ _ _ H Ht).
    + inv_bind H. apply Hrec in Hc0. apply (IH _ _ _ _ _ H).
      apply orb_false_iff in Hdot. destruct Hdot as [_ Hdot].
      cbn [no_parent_entry] in Ht |- *.
      apply andb_true_iff in Ht. destruct Ht as [Hm Hall].
      rewrite dict_setitem_mem, Hdot. cbn [orb]. rewrite Hm. cbn [andb].
      apply forallb_forall. apply Forall_forall.
      apply (dict_setitem_Forall (fun t => no_parent_entry t = true));
        [exact Hc0 |].
      apply Forall_forall. rewrite forallb_forall in Hall. exact Hall.
Qed.

Lemma getFilesTree_body_no_parent rec root st followLinks logs t logs' :
  (forall root st logs t logs',
      rec root st logs = (Ret t, logs') -> no_parent_entry t = true) ->
  getFilesTree_body rec root st followLinks logs = (Ret t, logs') ->
  no_parent_entry t = true.
Proof.
  intros Hrec H. unfold getFilesTree_body in H.
  destruct (S_ISLNK (st_mode st)).
  - destruct (negb followLinks).
    + inv_bind H. apply ret_inv in H. destruct H as [<- _]. reflexivity.
    + inv_bind H. inv_bind H. destruct a0 as [[p s] |].
      * exact (Hrec _ _ _ _ _ H).
      * apply ret_inv in H. destruct H as [<- _]. reflexivity.
  - destruct (S_ISDIR (st_mode st)).
    + inv_bind H. apply ret_inv in H. destruct H as [<- _].
      apply (listing_loop_no_parent rec Hrec) in Hc; [exact Hc |].
      reflexivity.
    + destruct (S_ISREG (st_mode st)); [| discriminate H].
      apply ret_inv in H. destruct H as [<- _]. reflexivity.
Qed.

Lemma getFilesTree_fuel_no_parent fuel :
  forall root st followLinks logs t logs',
    _getFilesTree fuel root st followLinks logs = (Ret t, logs') ->
    no_parent_entry t = true.
Proof.
  induction fuel as [| n IH]; simpl;
    intros root st followLinks logs t logs' H; [discriminate H |].
  apply getFilesTree_body_no_parent in H; [exact H |].
  intros. eapply IH. eassumption.
Qed.

Lemma getFilesTree_no_parent fuel root followLinks logs t logs' :
  getFilesTree fuel root followLinks logs = (Ret t, logs') ->
  no_parent_entry t = true.
Proof.
  unfold getFilesTree. intros H. inv_bind H.
  exact (getFilesTree_fuel_no_parent _ _ _ _ _ _ _ H).
Qed.
End SnapshotParent.

(** ** [removeExludedFoldersFromUnaccountedTree] *)

Lemma removeExluded_dict items excluded_ :
  excluded_ <> PyNone ->
  removeExludedFoldersFromUnaccountedTree (PyDict items) excluded_ =
  bind_outcome (fold_left (remove_step excluded_) items (Ret []))
    (fun d => Ret (PyDict d)).
Proof. intros H. destruct excluded_; [contradiction | reflexivity ..]. Qed.

Lemma remove_fold_raises excluded_ items e :
  fold_left (remove_step excluded_) items (Raise e) = Raise e.
Proof. induction items as [| kv rest IH]; simpl; [reflexivity | exact IH]. Qed.

Lemma remove_fold_out_of_fuel excluded_ items :
  fold_left (remove_step excluded_) items OutOfFuel = OutOfFuel.
Proof. induction items as [| kv rest IH]; simpl; [reflexivity | exact IH]. Qed.

(** What one round does when the whole loop returns. *)
Lemma remove_fold_step excluded_ kv rest acc r :
  fold_left (remove_step excluded_) (kv :: rest) (Ret acc) = Ret r ->
  exists acc',
    remove_step excluded_ (Ret acc) kv = Ret acc'
    /\ fold_left (remove_step excluded_) rest (Ret acc') = Ret r.
Proof.
  cbn [fold_left].
  destruct (remove_step excluded_ (Ret acc) kv) as [acc' | e |] eqn:E.
  - eauto.
  - rewrite remove_fold_raises. discriminate.
  - rewrite remove_fold_out_of_fuel. discriminate.
Qed.

Lemma remove_step_inv excluded_ acc key v acc' :
  remove_step excluded_ (Ret acc) (key, v) = Ret acc' ->
  (String.eqb key "." = true /\ acc' = acc)
  \/ (String.eqb key "." = false
      /\ exists e v',
           get_default key excluded_ = Ret e
           /\ removeExludedFoldersFromUnaccountedTree v e = Ret v'
           /\ acc' = dict_setitem key v' acc).
Proof.
  unfold remove_step. cbn [bind_outcome fst snd].
  destruct (String.eqb key ".").
  - intros H. inversion H. left. split; reflexivity.
  - destruct (get_default key excluded_) as [e | x |]; cbn [bind_outcome];
      try discriminate.
    destruct (removeExludedFoldersFromUnaccountedTree v e) as [v' | x |]
      eqn:Hrec; cbn [bind_outcome]; try discriminate.
    intros H. inversion H. right. split; [reflexivity |].
    exists e, v'. split; [reflexivity |]. split; [exact Hrec | reflexivity].
Qed.

Lemma remove_fold_no_self excluded_ items :
  forall acc r,
    fold_left (remove_step excluded_) items (Ret acc) = Ret r ->
    dict_mem "." acc = false ->
    dict_mem "." r = false.
Proof.
  induction items as [| [key v] rest IH]; intros acc r H Hacc.
  - simpl in H. inversion H; subst. exact Hacc.
  - apply remove_fold_step in H. destruct H as (acc' & Hstep & H).
    apply (IH _ _ H).
    apply remove_step_inv in Hstep.
    destruct Hstep as [[_ ->] | (Hne & e & v' & _ & _ & ->)]; [exact Hacc |].
    rewrite dict_setitem_mem, Hne, Hacc. reflexivity.
Qed.

(** The folders that hold excluded items lose their own entry. *)
Lemma tree_None_dec (t : tree) : t = PyNone \/ t <> PyNone.
Proof. destruct t; [left; reflexivity | right; discriminate ..]. Qed.

Lemma removeExluded_no_self unaccounted excluded_ r :
  removeExludedFoldersFromUnaccountedTree unaccounted excluded_ = Ret r ->
  excluded_ <> PyNone ->
  exists items, r = PyDict items /\ dict_mem "." items = false.
Proof.
  intros H He. destruct unaccounted as [| a m | items].
  - destruct excluded_; [contradiction | discriminate H ..].
  - destruct excluded_; [contradiction | discriminate H ..].
  - rewrite (removeExluded_dict _ _ He) in H.
    destruct (fold_left (remove_step excluded_) items (Ret [])) as [d | x |]
      eqn:Hf; try discriminate H.
    simpl in H. inversion H; subst. exists d. split; [reflexivity |].
    exact (remove_fold_no_self _ _ _ _ Hf eq_refl).
Qed.

Lemma files_of_items_app (d1 d2 : dict) :
  files_of_items (d1 ++ d2)%list =
  (files_of_items d1 ++ files_of_items d2)%list.
Proof. unfold files_of_items. apply flat_map_app. Qed.

Lemma files_of_items_cons key v (rest : dict) :
  files_of_items ((key, v) :: rest) =
  ((if String.eqb key "." then []
    else map (fun f => (key :: fst f, snd f)) (files v))
   ++ files_of_items rest)%list.
Proof. reflexivity. Qed.

Lemma remove_fold_files excluded_ items :
  Forall (fun kv => forall e r,
              pruned (snd kv) = true ->
              removeExludedFoldersFromUnaccountedTree (snd kv) e = Ret r ->
              files r = files (snd kv)) items ->
  Forall (fun kv => pruned (snd kv) = true) items ->
  forall acc r,
    fold_left (remove_step excluded_) items (Ret acc) = Ret r ->
    distinct_keys items = true ->
    (forall key, dict_mem key acc = true -> dict_mem key items = false) ->
    files_of_items r = (files_of_items acc ++ files_of_items items)%list.
Proof.
  induction items as [| [key v] rest IH]; intros HIH Hp acc r H Hd Hdis.
  - simpl in H. inversion H; subst. symmetry. apply app_nil_r.
  - apply remove_fold_step in H. destruct H as (acc' & Hstep & H).
    inversion HIH as [| ? ? Hv HIH']; subst.
    inversion Hp as [| ? ? Hpv Hp']; subst. simpl in Hv, Hpv.
    cbn [distinct_keys] in Hd. apply andb_true_iff in Hd.
    destruct Hd as [Hfresh Hd]. apply negb_true_iff in Hfresh.
    assert (Hkey : dict_mem key acc = false).
    { destruct (dict_mem key acc) eqn:E; [| reflexivity].
      specialize (Hdis key E). simpl in Hdis.
      rewrite String.eqb_refl in Hdis. discriminate Hdis. }
    apply remove_step_inv in Hstep.
    destruct Hstep as [[Hdot ->] | (Hne & e & v' & _ & Hrec & ->)].
    + rewrite (IH HIH' Hp' _ _ H Hd).
      * rewrite files_of_items_cons, Hdot. reflexivity.
      * intros k Hk. specialize (Hdis k Hk). simpl in Hdis.
        apply orb_false_iff in Hdis. tauto.
    + rewrite (dict_setitem_fresh _ _ _ Hkey) in H.
      rewrite (IH HIH' Hp' _ _ H Hd).
      * rewrite files_of_items_app, <- app_assoc. f_equal.
        rewrite !files_of_items_cons, Hne, app_nil_r, (Hv _ _ Hpv Hrec).
        reflexivity.
      * intros k Hk.
        assert (Hk' : dict_mem k acc = true \/ String.eqb key k = true).
        { clear - Hk. induction acc as [| [k0 x] acc IHa]; simpl in *.
          - rewrite orb_false_r in Hk. right. exact Hk.
          - apply orb_true_iff in Hk. destruct Hk as [Hk | Hk].
            + left. rewrite Hk. reflexivity.
            + destruct (IHa Hk) as [H | H]; [left | right]; [| exact H].
              rewrite H. apply orb_true_r. }
        destruct Hk' as [Hk' | Hk'].
        -- specialize (Hdis k Hk'). simpl in Hdis.
           apply orb_false_iff in Hdis. tauto.
        -- apply String.eqb_eq in Hk'. subst k. exact Hfresh.
Qed.

(** No unaccounted file is lost or changed: only entries of directories are
    dropped. *)
Lemma removeExluded_files unaccounted :
  forall excluded_ r,
    pruned unaccounted = true ->
    removeExludedFoldersFromUnaccountedTree unaccounted excluded_ = Ret r ->
    files r = files unaccounted.
Proof.
  induction unaccounted as [| a m | items IH] using tree_ind';
    intros excluded_ r Hp H.
  - discriminate Hp.
  - destruct excluded_; [| discriminate H ..]. inversion H. reflexivity.
  - destruct (tree_None_dec excluded_) as [Hnone | He].
    + subst. inversion H. reflexivity.
    + rewrite (removeExluded_dict _ _ He) in H.
      destruct (fold_left (remove_step excluded_) items (Ret []))
        as [d | x |] eqn:Hf; try discriminate H.
      simpl in H. inversion H; subst. cbn [pruned] in Hp.
      apply andb_true_iff in Hp. destruct Hp as [Hp Hall].
      apply andb_true_iff in Hp. destruct Hp as [_ Hd].
      rewrite forallb_forall in Hall.
      change (files_of_items d = files_of_items items).
      rewrite (remove_fold_files excluded_ items IH
                 (proj2 (Forall_forall _ _) Hall) [] d Hf Hd);
        [reflexivity | discriminate].
Qed.

Lemma leaves_of_items_app (d1 d2 : dict) :
  leaves_of_items (d1 ++ d2)%list =
  (leaves_of_items d1 ++ leaves_of_items d2)%list.
Proof. unfold leaves_of_items. apply flat_map_app. Qed.

Lemma leaves_of_items_cons key v (rest : dict) :
  leaves_of_items ((key, v) :: rest) =
  (map (fun f => (key :: fst f, snd f)) (leaves v)
   ++ leaves_of_items rest)%list.
Proof. reflexivity. Qed.

Lemma leaves_of_items_single key v :
  leaves_of_items [(key, v)] =
  map (fun f => (key :: fst f, snd f)) (leaves v).
Proof. rewrite leaves_of_items_cons. apply app_nil_r. Qed.

Lemma dict_mem_app_fresh {A} key k (v : A) acc :
  dict_mem k (acc ++ [(key, v)]) = true ->
  dict_mem k acc = true \/ key = k.
Proof.
  induction acc as [| [k0 x] acc IHa]; simpl.
  - rewrite orb_false_r. intros H. right. apply String.eqb_eq. exact H.
  - intros H. apply orb_true_iff in H. destruct H as [H | H].
    + left. rewrite H. reflexivity.
    + destruct (IHa H) as [H' | H']; [left | right; exact H'].
      rewrite H'. apply orb_true_r.
Qed.

Lemma prune_fold_leaves items :
  Forall (fun kv => python_dicts (snd kv) = true ->
                    leaves (pruneTree (snd kv)) = leaves (snd kv)) items ->
  Forall (fun kv => python_dicts (snd kv) = true) items ->
  forall acc,
    distinct_keys items = true ->
    (forall key, dict_mem key acc = true -> dict_mem key items = false) ->
    leaves_of_items (fold_left prune_step items acc) =
    (leaves_of_items acc ++ leaves_of_items items)%list.
Proof.
  induction items as [| [key v] rest IH]; intros HIH Hp acc Hd Hdis.
  - simpl. symmetry. apply app_nil_r.
  - inversion HIH as [| ? ? Hv HIH']; subst.
    inversion Hp as [| ? ? Hpv Hp']; subst. simpl in Hv, Hpv.
    cbn [distinct_keys] in Hd. apply andb_true_iff in Hd.
    destruct Hd as [Hfresh Hd]. apply negb_true_iff in Hfresh.
    assert (Hkey : dict_mem key acc = false).
    { destruct (dict_mem key acc) eqn:E; [| reflexivity].
      specialize (Hdis key E). simpl in Hdis.
      rewrite String.eqb_refl in Hdis. discriminate Hdis. }
    assert (Hold : forall k, dict_mem k acc = true -> dict_mem k rest = false).
    { intros k Hk. specialize (Hdis k Hk). simpl in Hdis.
      apply orb_false_iff in Hdis. tauto. }
    cbn [fold_left]. rewrite leaves_of_items_cons, <- (Hv Hpv).
    unfold prune_step at 2. cbn [fst snd].
    destruct (pruneTree v) as [| a m | d] eqn:Hpr.
    + rewrite (IH HIH' Hp' _ Hd Hold). reflexivity.
    + rewrite (dict_setitem_fresh _ _ _ Hkey), IH; try assumption.
      * rewrite leaves_of_items_app, <- app_assoc, leaves_of_items_single.
        reflexivity.
      * intros k Hk. apply dict_mem_app_fresh in Hk.
        destruct Hk as [Hk | <-]; [apply Hold; exact Hk | exact Hfresh].
    + rewrite (dict_setitem_fresh _ _ _ Hkey), IH; try assumption.
      * rewrite leaves_of_items_app, <- app_assoc, leaves_of_items_single.
        reflexivity.
      * intros k Hk. apply dict_mem_app_fresh in Hk.
        destruct Hk as [Hk | <-]; [apply Hold; exact Hk | exact Hfresh].
Qed.

(** Pruning loses no entry: the pruned tree holds the same times under the
    same keys. *)
Lemma pruneTree_leaves t :
  python_dicts t = true -> leaves (pruneTree t) = leaves t.
Proof.
  induction t as [| a m | items IH] using tree_ind'; intros H;
    [reflexivity .. |].
  rewrite pruneTree_dict. cbn [python_dicts] in H.
  apply andb_true_iff in H. destruct H as [Hd Hall].
  rewrite forallb_forall in Hall.
  pose proof (prune_fold_leaves items IH (proj2 (Forall_forall _ _) Hall) []
                Hd (fun k (H : dict_mem k (@nil (string * tree)) = true) =>
                      False_ind _ (diff_false_true H))) as Hf.
  change (leaves (PyDict items)) with (leaves_of_items items).
  destruct (fold_left prune_step items []) as [| kv d] eqn:Hfold.
  - exact Hf.
  - exact Hf.
Qed.

(** ** [diffTrees] invents nothing *)

Lemma leaves_setitem key v (acc : dict) X :
  incl (leaves_of_items acc) X ->
  incl (map (fun f => (key :: fst f, snd f)) (leaves v)) X ->
  incl (leaves_of_items (dict_setitem key v acc)) X.
Proof.
  intros Hacc Hv. induction acc as [| [k x] rest IH]; cbn [dict_setitem].
  - rewrite leaves_of_items_single. exact Hv.
  - rewrite leaves_of_items_cons in Hacc. apply incl_app_inv in Hacc.
    destruct Hacc as [Hx Hrest].
    destruct (String.eqb_spec k key) as [-> | Hne];
      rewrite leaves_of_items_cons; apply incl_app; auto.
Qed.

Lemma leaves_item key value (items : dict) :
  In (key, value) items ->
  incl (map (fun f => (key :: fst f, snd f)) (leaves value))
    (leaves_of_items items).
Proof.
  intros Hin x Hx. unfold leaves_of_items. apply in_flat_map.
  exists (key, value). split; [exact Hin | exact Hx].
Qed.

Lemma leaves_items_incl (d1 d2 : dict) :
  incl d1 d2 -> incl (leaves_of_items d1) (leaves_of_items d2).
Proof.
  intros H x Hx. unfold leaves_of_items in *. apply in_flat_map in Hx.
  destruct Hx as (kv & Hin & Hx). apply in_flat_map. exists kv.
  split; [apply H; exact Hin | exact Hx].
Qed.

Lemma within_child key v value X :
  within v value ->
  incl (map (fun f => (key :: fst f, snd f)) (leaves value)) X ->
  incl (map (fun f : list string * (Z * Z) => (key :: fst f, snd f))
          (leaves v)) X.
Proof.
  intros Hv HX. eapply incl_tran; [| exact HX]. apply incl_map. exact Hv.
Qed.

Lemma dict_pop_In {A} key (d : list (string * A)) v rest :
  dict_pop key d = Some (v, rest) -> In (key, v) d /\ incl rest d.
Proof.
  revert v rest. induction d as [| [k x] d' IH]; intros v rest H;
    [discriminate H |].
  cbn [dict_pop] in H. destruct (String.eqb_spec k key) as [-> | Hne].
  - inversion H; subst. split; [left; reflexivity |].
    intros y Hy. right. exact Hy.
  - destruct (dict_pop key d') as [[v' rest'] |]; [| discriminate H].
    inversion H; subst. destruct (IH _ _ eq_refl) as [Hin Hsub].
    split; [right; exact Hin |].
    intros y [<- | Hy]; [left; reflexivity | right; apply Hsub; exact Hy].
Qed.

Lemma dict_get_In {A} key (d : list (string * A)) v :
  dict_get key d = Some v -> In (key, v) d.
Proof.
  induction d as [| [k x] d' IH]; [discriminate |].
  cbn [dict_get]. destruct (String.eqb_spec k key) as [-> | Hne].
  - intros H. inversion H. left. reflexivity.
  - intros H. right. exact (IH H).
Qed.

Lemma pop_default_In key (d : dict) v rest :
  pop_default key d = (v, rest) ->
  incl (map (fun f => (key :: fst f, snd f)) (leaves v)) (leaves_of_items d)
  /\ incl rest d.
Proof.
  unfold pop_default. destruct (dict_pop key d) as [[v' rest'] |] eqn:Hpop;
    intros H; inversion H; subst.
  - destruct (dict_pop_In _ _ _ _ Hpop) as [Hin Hsub].
    split; [apply leaves_item; exact Hin | exact Hsub].
  - split; [intros x [] | apply incl_refl].
Qed.

Lemma within_refl t : within t t.
Proof. apply incl_refl. Qed.

Lemma within_None t : within PyNone t.
Proof. intros x []. Qed.

Lemma within_self_None t : within (PyDict (self_entry PyNone)) t.
Proof. intros x []. Qed.

Section Invents.
Variable fnmatch : string -> string -> bool.
Variable patterns : list string.
Variables join_s join_d : string -> string -> string.
Variable flag : bool.

Section Loops.
Variable rec : tree -> tree -> string -> string -> M diffed.
Hypothesis rec_from_arguments :
  forall s t ps pd logs d s' t' logs',
    rec s t ps pd logs = (Ret (d, s', t'), logs') -> from_arguments s t d.

Lemma loop_destination_within ps pd X :
  forall items del una exc seen logs del' una' exc' seen' logs',
    loop_destination join_s join_d rec ps pd items del una exc seen logs =
    (Ret (del', una', exc', seen'), logs') ->
    incl (leaves_of_items items) X ->
    incl (leaves_of_items del) X ->
    incl (leaves_of_items una) X ->
    incl (leaves_of_items exc) X ->
    incl (leaves_of_items del') X
    /\ incl (leaves_of_items una') X
    /\ incl (leaves_of_items exc') X.
Proof.
  induction items as [| [key value] rest IH]; cbn [loop_destination];
    intros del una exc seen logs del' una' exc' seen' logs' H Hi Hd Hu He.
  - apply ret_inv in H. destruct H as [H _]. inversion H; subst. auto.
  - inv_bind H. destruct a as [[d src'] value'].
    apply rec_from_arguments in Hc.
    destruct Hc as (_ & _ & H1 & H2 & H3).
    rewrite leaves_of_items_cons in Hi. apply incl_app_inv in Hi.
    destruct Hi as [Hv Hrest].
    apply (IH _ _ _ _ _ _ _ _ _ _ H Hrest);
      apply leaves_setitem; try assumption;
      eapply within_child; eassumption.
Qed.

Lemma loop_source_within ps pd X :
  forall items cop exc seen logs cop' exc' seen' logs',
    loop_source join_s join_d rec ps pd items cop exc seen logs =
    (Ret (cop', exc', seen'), logs') ->
    incl (leaves_of_items items) X ->
    incl (leaves_of_items cop) X ->
    incl (leaves_of_items exc) X ->
    incl (leaves_of_items cop') X /\ incl (leaves_of_items exc') X.
Proof.
  induction items as [| [key value] rest IH]; cbn [loop_source];
    intros cop exc seen logs cop' exc' seen' logs' H Hi Hc' He.
  - apply ret_inv in H. destruct H as [H _]. inversion H; subst. auto.
  - inv_bind H. destruct a as [[d value'] dst'].
    apply rec_from_arguments in Hc.
    destruct Hc as (H1 & H2 & _).
    rewrite leaves_of_items_cons in Hi. apply incl_app_inv in Hi.
    destruct Hi as [Hv Hrest].
    apply (IH _ _ _ _ _ _ _ _ H Hrest);
      apply leaves_setitem; try assumption;
      eapply within_child; eassumption.
Qed.

Lemma loop_both_within ps pd Xs Xd :
  forall items destination del cop exs una exd seen logs
         del' cop' exs' una' exd' seen' destination' logs',
    loop_both join_s join_d rec ps pd items destination
      del cop exs una exd seen logs =
    (Ret (del', cop', exs', una', exd', seen', destination'), logs') ->
    incl (leaves_of_items items) Xs ->
    incl (leaves_of_items destination) Xd ->
    incl (leaves_of_items cop) Xs ->
    incl (leaves_of_items exs) Xs ->
    incl (leaves_of_items del) Xd ->
    incl (leaves_of_items una) Xd ->
    incl (leaves_of_items exd) Xd ->
    incl (leaves_of_items cop') Xs
    /\ incl (leaves_of_items exs') Xs
    /\ incl (leaves_of_items del') Xd
    /\ incl (leaves_of_items una') Xd
    /\ incl (leaves_of_items exd') Xd
    /\ incl (leaves_of_items destination') Xd.
Proof.
  induction items as [| [key value] rest IH]; cbn [loop_both];
    intros destination del cop exs una exd seen logs
           del' cop' exs' una' exd' seen' destination' logs'
           H Hi Hdst Hcop Hexs Hdel Huna Hexd.
  - apply ret_inv in H. destruct H as [H _]. inversion H; subst.
    repeat split; assumption.
  - destruct (pop_default key destination) as [value_d destination1] eqn:Hpop.
    apply pop_default_In in Hpop. destruct Hpop as [Hvd Hsub].
    inv_bind H. destruct a as [[d value'] dst'].
    apply rec_from_arguments in Hc.
    destruct Hc as (H1 & H2 & H3 & H4 & H5).
    rewrite leaves_of_items_cons in Hi. apply incl_app_inv in Hi.
    destruct Hi as [Hv Hrest].
    assert (Hvd' : incl (map (fun f : list string * (Z * Z) =>
                                (key :: fst f, snd f)) (leaves value_d)) Xd)
      by (eapply incl_tran; eassumption).
    apply (IH _ _ _ _ _ _ _ _ _ _ _ _ _ _ _ _ H Hrest);
      try (apply leaves_setitem; try assumption;
           eapply within_child; eassumption).
    eapply incl_tran; [apply leaves_items_incl; exact Hsub | exact Hdst].
Qed.

Ltac split_pops :=
  repeat match goal with
         | H : dict_pop _ _ = Some ?a |- _ =>
             is_var a; destruct a as [? ?]; cbn [snd] in *
         end.

Ltac within_leaf :=
  cbn [copy delete excluded_source unaccounted_destination
       excluded_destination];
  repeat split;
  first [apply within_refl | apply within_None | apply within_self_None].

Lemma body_from_arguments source destination ps pd logs d s' t' logs' :
  diffTrees_body fnmatch patterns join_s join_d flag rec
    source destination ps pd logs = (Ret (d, s', t'), logs') ->
  from_arguments source destination d.
Proof.
  unfold diffTrees_body, from_arguments. intros H.
  destruct (excluded fnmatch patterns pd) eqn:Hex.
  { destruct source, destination; inv_run H; inversion H; subst;
      try (inv_run Hc; inversion Hc; subst); within_leaf. }
  destruct source as [| sa sm | s_items],
           destination as [| da dm | d_items].
  - inv_run H. inversion H; subst. within_leaf.
  - inv_run H. inversion H; subst. within_leaf.
  - inv_run H. inversion H; subst. split_pops.
    destruct (dict_pop_In _ _ _ _ Hc0) as [_ Hsub].
    destruct (loop_destination_within _ _ (leaves_of_items d_items)
                _ _ _ _ _ _ _ _ _ _ _ Hc1) as (H1 & H2 & H3).
    + apply leaves_items_incl. exact Hsub.
    + intros x [].
    + unfold self_entry. rewrite leaves_of_items_single.
      apply leaves_item. apply dict_get_In. exact Hc.
    + intros x [].
    + cbn [copy delete excluded_source unaccounted_destination
           excluded_destination].
      repeat split; try apply within_None; assumption.
  - inv_run H. inversion H; subst. within_leaf.
  - inv_run H; inversion H; subst; within_leaf.
  - inv_run H. inversion H; subst. within_leaf.
  - inv_run H. inversion H; subst. split_pops.
    destruct (dict_pop_In _ _ _ _ Hc0) as [_ Hsub].
    destruct (loop_source_within _ _ (leaves_of_items s_items)
                _ _ _ _ _ _ _ _ _ Hc1) as (H1 & H2).
    + apply leaves_items_incl. exact Hsub.
    + unfold self_entry. rewrite leaves_of_items_single.
      apply leaves_item. apply dict_get_In. exact Hc.
    + intros x [].
    + cbn [copy delete excluded_source unaccounted_destination
           excluded_destination].
      repeat split; try apply within_None; assumption.
  - inv_run H. inversion H; subst. inv_run Hc. inversion Hc; subst.
    split_pops.
    destruct (dict_pop_In _ _ _ _ Hc1) as [_ Hsub].
    destruct (loop_source_within _ _ (leaves_of_items s_items)
                _ _ _ _ _ _ _ _ _ Hc2) as (H1 & H2).
    + apply leaves_items_incl. exact Hsub.
    + unfold self_entry. rewrite leaves_of_items_single.
      apply leaves_item. apply dict_get_In. exact Hc0.
    + intros x [].
    + cbn [copy delete excluded_source unaccounted_destination
           excluded_destination].
      repeat split;
        try apply within_None; try apply within_refl; assumption.
  - inv_run H. inversion H; subst. split_pops.
    destruct (dict_pop_In _ _ _ _ Hc) as [_ Hsub].
    destruct (loop_both_within _ _ (leaves_of_items s_items)
                (leaves_of_items d_items)
                _ _ _ _ _ _ _ _ _ _ _ _ _ _ _ _ _ Hc0)
      as (H1 & H2 & H3 & H4 & H5 & H6);
      try (intros x []); try apply incl_refl.
    { apply leaves_items_incl. exact Hsub. }
    destruct (dict_pop_In _ _ _ _ Hc1) as [_ Hsub'].
    destruct (loop_destination_within _ _ (leaves_of_items d_items)
                _ _ _ _ _ _ _ _ _ _ _ Hc2) as (H7 & H8 & H9);
      try assumption.
    { eapply incl_tran; [apply leaves_items_incl; exact Hsub' | exact H6]. }
    cbn [copy delete excluded_source unaccounted_destination
         excluded_destination].
    repeat split; assumption.
Qed.
End Loops.

Lemma diffTrees_fuel_from_arguments fuel :
  forall source destination ps pd logs d s' t' logs',
    diffTrees_fuel fnmatch patterns join_s join_d flag fuel
      source destination ps pd logs = (Ret (d, s', t'), logs') ->
    from_arguments source destination d.
Proof.
  induction fuel as [| n IH]; cbn [diffTrees_fuel];
    intros source destination ps pd logs d s' t' logs' H;
    [discriminate H |].
  exact (body_from_arguments _ IH _ _ _ _ _ _ _ _ _ H).
Qed.
End Invents.

(** ** [escapePath] *)

Lemma escapePath_cons c rest :
  escapePath (String c rest) =
  if needs_escape c then String backslash (String c (escapePath rest))
  else String c (escapePath rest).
Proof.
  destruct c as [[] [] [] [] [] [] [] []]; reflexivity.
Qed.

Lemma escapePath_escape_each path : escapePath path = escape_each path.
Proof.
  induction path as [| c rest IH]; [reflexivity |].
  rewrite escapePath_cons. cbn [escape_each]. rewrite IH. reflexivity.
Qed.

Lemma escape_each_injective p :
  forall q, escape_each p = escape_each q -> p = q.
Proof.
  induction p as [| c p' IH]; intros [| d q'] H.
  - reflexivity.
  - cbn [escape_each] in H. destruct (needs_escape d); discriminate H.
  - cbn [escape_each] in H. destruct (needs_escape c); discriminate H.
  - cbn [escape_each] in H.
    destruct (needs_escape c) eqn:Hc, (needs_escape d) eqn:Hd.
    + injection H as <- H. rewrite (IH _ H). reflexivity.
    + injection H as <- H. exfalso.
      destruct q' as [| e q'']; [discriminate H |].
      cbn [escape_each] in H. destruct (needs_escape e) eqn:He.
      * injection H as -> _. discriminate Hc.
      * injection H as -> _. rewrite Hc in He. discriminate He.
    + injection H as -> H. exfalso.
      destruct p' as [| e p'']; [discriminate H |].
      cbn [escape_each] in H. destruct (needs_escape e) eqn:He.
      * injection H as <- _. discriminate Hd.
      * injection H as <- _. rewrite Hd in He. discriminate He.
    + injection H as <- H. rewrite (IH _ H). reflexivity.
Qed.

(** ** Listings of an Android directory *)

Section ListingNames.
Context {fs : FileSystem}.

(** A listing that is read to its end named every entry. *)
Lemma listing_loop_names rec :
  forall steps root tree_ logs r logs',
    listing_loop rec root steps tree_ logs = (Ret r, logs') ->
    Forall (fun step => exists logs0 name st logs1,
                step logs0 = (Ret (Some name, st), logs1)) steps.
Proof.
  induction steps as [| step steps' IH]; cbn [listing_loop];
    intros root tree_ logs r logs' H; [constructor |].
  inv_bind H. destruct a as [[filename |] st]; cbn [fst snd] in H;
    [| discriminate H].
  constructor; [exists logs, filename, st, logs0; exact Hc |].
  destruct (String.eqb filename "." || String.eqb filename "..").
  - exact (IH _ _ _ _ _ H).
  - inv_bind H. exact (IH _ _ _ _ _ H).
Qed.
End ListingNames.

Lemma link_type name :
  In (name, "l"%char) ls_types -> name = "S_IFLNK".
Proof.
  simpl. intros [E | [E | [E | [E | [E | [E | [E | []]]]]]]];
    inversion E; reflexivity.
Qed.

Lemma lsToStat_link strptime_timestamp rest logs name st logs' :
  lsToStat strptime_timestamp (String "l" rest) logs
  = (Ret (name, st), logs') ->
  name = None.
Proof.
  intros H. apply lsToStat_inv in H. destruct H as (g & Hmatch & -> & _).
  apply fullmatch_ls_to_stat in Hmatch.
  destruct Hmatch as (type & c & s & Hin & Hline & _ & Hlink & _).
  cbn [list_ascii_of_string] in Hline. injection Hline as <- _.
  rewrite (Hlink (link_type _ Hin)). reflexivity.
Qed.

Lemma total_not_link rest : matches RE_TOTAL (String "l" rest) = false.
Proof. reflexivity. Qed.

Section AndroidListing.
Variable strptime_timestamp : list ascii -> option Q.
Variable adbShell : list string -> list string.
Variable os_path_join : string -> string -> string.
Variable os_path_normpath : string -> string.

Lemma android_directory_with_link fuel root st followLinks logs line :
  S_ISLNK (st_mode st) = false ->
  S_ISDIR (st_mode st) = true ->
  In line (adbShell ["ls"; "-la"; escapePath root]) ->
  link_line line ->
  forall t,
    fst (_getFilesTree
           (fs := AndroidFileSystem strptime_timestamp adbShell os_path_join
                    os_path_normpath)
           fuel root st followLinks logs) <> Ret t.
Proof.
  intros Hl Hd Hin [rest ->] t H.
  destruct fuel as [| n]; [discriminate H |].
  cbn [_getFilesTree] in H. unfold getFilesTree_body in H.
  rewrite Hl, Hd in H.
  destruct (bind _ _ logs) as [o logs'] eqn:E. cbn [fst] in H. subst o.
  inv_bind E. apply listing_loop_names in Hc.
  cbn [lstat_inDir AndroidFileSystem] in Hc. unfold Android_lstat_inDir in Hc.
  rewrite Forall_forall in Hc.
  destruct (Hc (lsToStat strptime_timestamp (String "l" rest)))
    as (logs1 & name & st' & logs2 & Hstep).
  { apply in_map. apply filter_In. split; [exact Hin |].
    rewrite total_not_link. reflexivity. }
  apply lsToStat_link in Hstep. discriminate Hstep.
Qed.
End AndroidListing.

(** ** What [lsToStat] makes of the type character *)

Lemma mode_of_line g name c :
  In (name, c) ls_types ->
  (forall n, In n (map fst ls_types) -> g n = set_group name [c] no_groups n) ->
  let mode :=
    add_type g "S_IFSOCK" S_IFSOCK
      (add_type g "S_IFLNK" S_IFLNK
         (add_type g "S_IFIFO" S_IFIFO
            (add_type g "S_IFDIR" S_IFDIR
               (add_type g "S_IFCHR" S_IFCHR
                  (add_type g "S_IFBLK" S_IFBLK
                     (add_type g "S_IFREG" S_IFREG
                        (Z.lor (Z.lor (Z.lor (Z.lor S_IRWXU S_IRGRP) S_IXGRP)
                                  S_IROTH) S_IXOTH))))))) in
  S_ISDIR mode = Ascii.eqb c "d"
  /\ S_ISREG mode = Ascii.eqb c "-"
  /\ Z.land mode 4095 = 493.
Proof.
  intros Hin Hg. unfold add_type, group_true.
  rewrite !Hg by (simpl; tauto). simpl in Hin.
  destruct Hin as [E | [E | [E | [E | [E | [E | [E | []]]]]]]];
    inversion E; subst; repeat split.
Qed.

Lemma lsToStat_mode strptime_timestamp line logs name st logs' :
  lsToStat strptime_timestamp line logs = (Ret (name, st), logs') ->
  exists c rest,
    line = String c rest
    /\ S_ISDIR (st_mode st) = Ascii.eqb c "d"
    /\ S_ISREG (st_mode st) = Ascii.eqb c "-"
    /\ Z.land (st_mode st) 4095 = 493.
Proof.
  intros H. apply lsToStat_inv in H. destruct H as (g & Hmatch & _ & Hmode).
  apply fullmatch_ls_to_stat in Hmatch.
  destruct Hmatch as (type & c & rest & Hin & Hline & Hg & _).
  exists c, (string_of_list_ascii rest). split.
  { rewrite <- (string_of_list_ascii_of_string line), Hline. reflexivity. }
  rewrite Hmode. exact (mode_of_line g type c Hin Hg).
Qed.

(** ** Lines that report a missing file *)

Lemma or_else_left {A} (a b : option A) : a <> None -> or_else a b <> None.
Proof. destruct a; [discriminate | contradiction]. Qed.

Lemma or_else_right {A} (a b : option A) : b <> None -> or_else a b <> None.
Proof. destruct a; [discriminate | exact (fun H => H)]. Qed.

(** A starred class can stop after any run of its characters. *)
Lemma run_Star_Cls p suffix g k :
  forall prefix pos,
    forallb p prefix = true ->
    k suffix (pos + List.length prefix)%nat g <> None ->
    run (Star (Cls p)) (prefix ++ suffix)%list pos g k <> None.
Proof.
  intros prefix pos Hp Hk. cbn [run].
  assert (Hn : (List.length prefix <= List.length (prefix ++ suffix))%nat)
    by (rewrite length_app; lia).
  revert Hn. generalize (List.length (prefix ++ suffix)%list) as n.
  intros n. revert prefix pos Hp Hk.
  induction n as [| n IH]; intros prefix pos Hp Hk Hn.
  - destruct prefix; [| simpl in Hn; lia].
    simpl in Hk. rewrite Nat.add_0_r in Hk. exact Hk.
  - destruct prefix as [| c prefix'].
    + apply or_else_right. simpl in Hk. rewrite Nat.add_0_r in Hk. exact Hk.
    + apply or_else_left. cbn [forallb] in Hp.
      apply andb_true_iff in Hp. destruct Hp as [Hc Hp].
      cbn [app]. rewrite Hc.
      replace (List.length (prefix' ++ suffix)
               <? List.length (c :: prefix' ++ suffix))%nat with true
        by (symmetry; apply Nat.ltb_lt; simpl; lia).
      apply IH; [exact Hp | | simpl in Hn; lia].
      cbn [List.length] in Hk. rewrite Nat.add_succ_r in Hk. exact Hk.
Qed.

Lemma list_ascii_of_string_app s1 s2 :
  list_ascii_of_string (s1 ++ s2) =
  (list_ascii_of_string s1 ++ list_ascii_of_string s2)%list.
Proof.
  induction s1 as [| c s1' IH]; simpl; [reflexivity |].
  rewrite IH. reflexivity.
Qed.

Lemma matches_no_such_file prefix :
  one_line prefix = true ->
  matches RE_NO_SUCH_FILE (prefix ++ ": No such file or directory") = true.
Proof.
  intros Hp. unfold matches, fullmatch.
  destruct (run RE_NO_SUCH_FILE _ 0%nat no_groups end_of_line) eqn:E;
    [reflexivity | exfalso].
  revert E. rewrite list_ascii_of_string_app.
  unfold RE_NO_SUCH_FILE. cbn [seq]. rewrite run_Seq, run_Bol. cbv beta.
  rewrite run_Seq. apply run_Star_Cls; [exact Hp |].
  generalize (0 + List.length (list_ascii_of_string prefix))%nat as pos.
  intros pos. discriminate.
Qed.

Section AndroidMissing.
Variable strptime_timestamp : list ascii -> option Q.
Variable adbShell : list string -> list string.
Variable os_path_join : string -> string -> string.
Variable os_path_normpath : string -> string.

Lemma lsToStat_no_such_file prefix logs :
  one_line prefix = true ->
  lsToStat strptime_timestamp (prefix ++ ": No such file or directory") logs
  = (Raise FileNotFoundError, logs).
Proof.
  intros Hp. unfold lsToStat. rewrite (matches_no_such_file _ Hp).
  reflexivity.
Qed.

Lemma android_missing_root fuel root followLinks logs prefix more :
  adbShell ["ls"; "-lad"; escapePath root] =
  (prefix ++ ": No such file or directory") :: more ->
  one_line prefix = true ->
  getFilesTree
    (fs := AndroidFileSystem strptime_timestamp adbShell os_path_join
             os_path_normpath)
    fuel root followLinks logs
  = (Raise FileNotFoundError, logs).
Proof.
  intros Hls Hp. unfold getFilesTree.
  cbn [lstat AndroidFileSystem]. unfold Android_lstat. rewrite Hls.
  unfold bind. rewrite (lsToStat_no_such_file _ _ Hp). reflexivity.
Qed.
End AndroidMissing.

(** ** [testConnection] *)

Lemma run_seq_cons r rest s pos g k :
  run (seq (r :: rest)) s pos g k =
  run r s pos g (fun s' pos' g' => run (seq rest) s' pos' g' k).
Proof. destruct rest; reflexivity. Qed.

(** A literal between [^] and [$] matches its own text only. *)
Lemma run_lit_Eol text :
  forall s pos g,
    run (Seq (lit text) Eol) s pos g end_of_line =
    if String.eqb text (string_of_list_ascii s) then Some g else None.
Proof.
  induction text as [| c text' IH]; intros s pos g.
  - destruct s as [| c1 [| c2 s']]; cbn; try reflexivity.
    destruct (Ascii.eqb c1 newline); reflexivity.
  - rewrite run_Seq. unfold lit. cbn [list_ascii_of_string map].
    rewrite run_seq_cons. destruct s as [| c' s']; [reflexivity |].
    cbn [run chr string_of_list_ascii String.eqb].
    destruct (Ascii.eqb c c'); [| reflexivity].
    exact (IH s' (S pos) g).
Qed.

Lemma matches_literal text line :
  matches (seq [Bol; lit text; Eol]) line = String.eqb text line.
Proof.
  unfold matches, fullmatch. cbn [seq]. rewrite run_Seq, run_Bol. cbv beta.
  rewrite run_lit_Eol, string_of_list_ascii_of_string.
  destruct (String.eqb text line); reflexivity.
Qed.

Lemma testConnection_loop_spec lines :
  testConnection_loop lines =
  negb (existsb (String.eqb "adb: no devices/emulators found") lines).
Proof.
  induction lines as [| line rest IH]; [reflexivity |].
  cbn [testConnection_loop existsb].
  unfold RE_TESTCONNECTION_NO_DEVICE at 1. rewrite matches_literal.
  destruct (String.eqb_spec "adb: no devices/emulators found" line)
    as [<- | Hne].
  - reflexivity.
  - rewrite IH. cbn [orb].
    destruct (matches RE_TESTCONNECTION_DAEMON_NOT_RUNNING line
              || matches RE_TESTCONNECTION_DAEMON_STARTED line); reflexivity.
Qed.

(** What the generator yields: the stripped lines before the first one that
    is empty once stripped. *)
Lemma adbShell_loop_In adbLine readlines :
  In adbLine (adbShell_loop readlines) <->
  exists before raw after,
    readlines = (before ++ raw :: after)%list
    /\ Forall (fun l => rstrip CRLF l <> "") before
    /\ rstrip CRLF raw = adbLine
    /\ adbLine <> "".
Proof.
  induction readlines as [| r rest IH]; cbn [adbShell_loop].
  - split; [intros [] |].
    intros (before & raw & after & H & _). destruct before; discriminate H.
  - destruct (rstrip CRLF r) as [| c stripped] eqn:Hr.
    + split; [intros [] |].
      intros (before & raw & after & H & HF & Hraw & Hne).
      destruct before as [| b before]; simpl in H; inversion H; subst.
      * rewrite Hr in Hne. apply Hne. reflexivity.
      * inversion HF; subst. contradiction.
    + cbn [In]. rewrite IH. split.
      * intros [<- | (before & raw & after & -> & HF & Hraw & Hne)].
        -- exists [], r, rest. repeat split; [constructor | exact Hr |].
           discriminate.
        -- exists (r :: before), raw, after.
           repeat split; try assumption.
           constructor; [| exact HF]. rewrite Hr. discriminate.
      * intros (before & raw & after & H & HF & Hraw & Hne).
        destruct before as [| b before]; simpl in H; inversion H; subst.
        -- left. symmetry. exact Hr.
        -- right. inversion HF; subst.
           exists before, raw, after. repeat split; assumption.
Qed.

(** ** The executor on pruned trees *)

Lemma infos_only_refl logs : infos_only logs logs.
Proof. exists []. split; [symmetry; apply app_nil_r | constructor]. Qed.

Lemma infos_only_trans l1 l2 l3 :
  infos_only l1 l2 -> infos_only l2 l3 -> infos_only l1 l3.
Proof.
  intros (n1 & -> & H1) (n2 & -> & H2). exists (n1 ++ n2)%list.
  split; [symmetry; apply app_assoc | apply Forall_app; split; assumption].
Qed.

Lemma infos_only_log logs msg : infos_only logs (logs ++ [(INFO, msg)])%list.
Proof. exists [(INFO, msg)]. split; [reflexivity | repeat constructor]. Qed.

Lemma pruned_truthy t : pruned t = true -> truthy t = true.
Proof.
  destruct t as [| a m | [| kv items]]; intros H;
    [discriminate H | reflexivity | discriminate H | reflexivity].
Qed.

Lemma pruned_children items n :
  pruned (PyDict items) = true ->
  (tree_height (PyDict items) < S n)%nat ->
  distinct_keys items = true
  /\ Forall (fun kv => pruned (snd kv) = true
                       /\ (tree_height (snd kv) < n)%nat) items.
Proof.
  intros Hp Hh. cbn [pruned] in Hp.
  apply andb_true_iff in Hp. destruct Hp as [Hp Hall].
  apply andb_true_iff in Hp. destruct Hp as [_ Hd].
  split; [exact Hd |].
  pose proof (tree_height_children _ _ Hh) as Hc.
  rewrite forallb_forall in Hall. rewrite Forall_forall in Hc.
  apply Forall_forall. intros kv Hin. split; [apply Hall | apply Hc]; exact Hin.
Qed.

(** What is left once the entry of the directory is popped. *)
Lemma pop_self_rest (P : tree -> Prop) items :
  distinct_keys items = true ->
  Forall (fun kv => P (snd kv)) items ->
  dict_mem "." (snd (pop_self items)) = false
  /\ Forall (fun kv => P (snd kv)) (snd (pop_self items))
  /\ files_of_items (snd (pop_self items)) = files_of_items items.
Proof.
  intros Hd HF. unfold pop_self.
  destruct (dict_pop "." items) as [[v rest] |] eqn:Hpop; cbn [snd].
  - split; [exact (dict_pop_distinct _ _ _ _ Hpop Hd) |].
    split; [exact (proj2 (dict_pop_Forall P _ _ _ _ Hpop HF)) |].
    clear Hd HF. revert v rest Hpop.
    induction items as [| [k x] items' IH]; intros v rest Hpop;
      [discriminate Hpop |].
    cbn [dict_pop] in Hpop. rewrite files_of_items_cons.
    destruct (String.eqb k ".") eqn:Hk.
    + inversion Hpop; subst. reflexivity.
    + destruct (dict_pop "." items') as [[v' rest'] |]; [| discriminate Hpop].
      inversion Hpop; subst. rewrite files_of_items_cons, Hk.
      rewrite (IH _ _ eq_refl). reflexivity.
  - split; [| split; [exact HF | reflexivity]].
    destruct (dict_mem "." items) eqn:Hm; [| reflexivity].
    destruct (dict_mem_pop _ _ Hm) as [r Hr]. congruence.
Qed.

Lemma pop_self_pruned items :
  dict_mem "." items = true ->
  Forall (fun kv => pruned (snd kv) = true) items ->
  fst (pop_self items) = true.
Proof.
  intros Hm HF. unfold pop_self.
  destruct (dict_mem_pop _ _ Hm) as [[v rest] Hr]. rewrite Hr. cbn [fst].
  apply pruned_truthy.
  exact (proj1 (dict_pop_Forall (fun t => pruned t = true) _ _ _ _ Hr HF)).
Qed.

Lemma unlinked_app c1 c2 :
  unlinked (c1 ++ c2) = (unlinked c1 ++ unlinked c2)%list.
Proof. unfold unlinked. apply flat_map_app. Qed.

Lemma file_calls_app c1 c2 :
  file_calls (c1 ++ c2) = (file_calls c1 ++ file_calls c2)%list.
Proof. unfold file_calls. apply filter_app. Qed.

Lemma Forall_weaken {A} (P Q : A -> Prop) l :
  Forall (fun x => P x /\ Q x) l -> Forall P l.
Proof. apply Forall_impl. intros x [H _]. exact H. Qed.

(** *** Dry runs, on any backend *)

Section DryRun.
Context {fs : FileSystem} {world : Type} {writer : FileSystemWriter world}.

Lemma removeTree_loop_dry rec n :
  (forall root t (w : world) logs,
      pruned t = true -> (tree_height t < n)%nat ->
      dry w logs (rec root t w logs)) ->
  forall items root w logs,
    Forall (fun kv => pruned (snd kv) = true
                      /\ (tree_height (snd kv) < n)%nat) items ->
    dry w logs (removeTree_loop rec root items w logs).
Proof.
  intros Hrec. induction items as [| [key v] rest IH];
    intros root w logs HF; cbn [removeTree_loop].
  - split; [reflexivity | apply infos_only_refl].
  - inversion HF as [| ? ? [Hp Hh] HF']; subst. cbn [snd] in Hp, Hh.
    destruct (Hrec (normPath (joinPaths root key)) v w logs Hp Hh)
      as [Hr Hl].
    destruct (rec _ v w logs) as [o logs1] eqn:E. cbn [fst snd] in Hr, Hl.
    subst o. rewrite (bind_returns _ _ _ _ _ E).
    destruct (IH root w logs1 HF') as [Hr' Hl'].
    split; [exact Hr' | exact (infos_only_trans _ _ _ Hl Hl')].
Qed.

Lemma removeTree_fuel_dry fuel :
  forall root t w logs,
    pruned t = true -> (tree_height t < fuel)%nat ->
    dry w logs (removeTree_fuel fuel root t true w logs).
Proof.
  induction fuel as [| n IH]; intros root t w logs Hp Hh; [lia |].
  cbn [removeTree_fuel]. destruct t as [| a m | items];
    [discriminate Hp | |].
  - split; [reflexivity | apply infos_only_log].
  - destruct (pruned_children _ _ Hp Hh) as [Hd HF].
    destruct (pop_self_rest
                (fun t => pruned t = true /\ (tree_height t < n)%nat)
                items Hd HF) as (_ & HF' & _).
    unfold removeTree_body.
    destruct (removeTree_loop_dry _ n IH _ root w logs HF') as [Hr Hl].
    destruct (removeTree_loop _ root _ w logs) as [o logs1] eqn:E.
    cbn [fst snd] in Hr, Hl. subst o. rewrite (bind_returns _ _ _ _ _ E).
    destruct (fst (pop_self items)).
    + split; [reflexivity |].
      exact (infos_only_trans _ _ _ Hl (infos_only_log _ _)).
    + split; [reflexivity | exact Hl].
Qed.

Section Push.
Variable join_s : string -> string -> string.
Variable norm_s : string -> string.
Variable join_d : string -> string -> string.
Variable norm_d : string -> string.

Lemma pushTreeHere_loop_dry rec n :
  (forall root t destination (w : world) logs,
      pruned t = true -> (tree_height t < n)%nat ->
      dry w logs (rec root t destination w logs)) ->
  forall items root destination w logs,
    Forall (fun kv => pruned (snd kv) = true
                      /\ (tree_height (snd kv) < n)%nat) items ->
    dry w logs
      (pushTreeHere_loop rec join_s norm_s join_d norm_d root destination
         items w logs).
Proof.
  intros Hrec. induction items as [| [key v] rest IH];
    intros root destination w logs HF; cbn [pushTreeHere_loop].
  - split; [reflexivity | apply infos_only_refl].
  - inversion HF as [| ? ? [Hp Hh] HF']; subst. cbn [snd] in Hp, Hh.
    destruct (Hrec (norm_s (join_s root key)) v
                (norm_d (join_d destination key)) w logs Hp Hh) as [Hr Hl].
    destruct (rec _ v _ w logs) as [o logs1] eqn:E. cbn [fst snd] in Hr, Hl.
    subst o. rewrite (bind_returns _ _ _ _ _ E).
    destruct (IH root destination w logs1 HF') as [Hr' Hl'].
    split; [exact Hr' | exact (infos_only_trans _ _ _ Hl Hl')].
Qed.

Lemma pushTreeHere_fuel_dry fuel :
  forall root t destination w logs,
    pruned t = true -> (tree_height t < fuel)%nat ->
    dry w logs
      (pushTreeHere_fuel fuel root t destination join_s norm_s join_d norm_d
         true w logs).
Proof.
  induction fuel as [| n IH]; intros root t destination w logs Hp Hh; [lia |].
  cbn [pushTreeHere_fuel]. destruct t as [| a m | items];
    [discriminate Hp | |].
  - split; [reflexivity | apply infos_only_log].
  - destruct (pruned_children _ _ Hp Hh) as [Hd HF].
    destruct (pop_self_rest
                (fun t => pruned t = true /\ (tree_height t < n)%nat)
                items Hd HF) as (_ & HF' & _).
    unfold pushTreeHere_body.
    destruct (fst (pop_self items)); cbv [bind logging_log ret negb].
    + match goal with
      | |- dry _ _ (pushTreeHere_loop _ _ _ _ _ _ _ _ _ ?l) =>
          destruct (pushTreeHere_loop_dry _ n IH _ root destination w l HF')
            as [Hr Hl]
      end.
      split; [exact Hr |].
      exact (infos_only_trans _ _ _ (infos_only_log _ _) Hl).
    + exact (pushTreeHere_loop_dry _ n IH _ root destination w logs HF').
Qed.
End Push.
End DryRun.

(** *** The calls of a run that is not dry *)

Lemma files_of_items_fresh key v (rest : dict) :
  dict_mem "." ((key, v) :: rest) = false ->
  files_of_items ((key, v) :: rest) =
  (map (fun f => (key :: fst f, snd f)) (files v)
   ++ files_of_items rest)%list
  /\ dict_mem "." rest = false.
Proof.
  cbn [dict_mem]. intros H. apply orb_false_iff in H. destruct H as [Hk Hr].
  rewrite files_of_items_cons, Hk. split; [reflexivity | exact Hr].
Qed.

Lemma flat_map_map {A B C} (f : B -> list C) (g : A -> B) l :
  flat_map f (map g l) = flat_map (fun x => f (g x)) l.
Proof.
  induction l as [| x l' IH]; simpl; [reflexivity |].
  rewrite IH. reflexivity.
Qed.

Section Recorded.
Context {fs : FileSystem}.

Lemma removeTree_loop_calls rec n :
  (forall root t w logs,
      pruned t = true -> (tree_height t < n)%nat ->
      exists calls logs',
        rec root t w logs = (Ret (w ++ calls)%list, logs')
        /\ unlinked calls =
           map (fun f => path_under joinPaths normPath root (fst f))
             (files t)) ->
  forall items root w logs,
    Forall (fun kv => pruned (snd kv) = true
                      /\ (tree_height (snd kv) < n)%nat) items ->
    dict_mem "." items = false ->
    exists calls logs',
      removeTree_loop (world := list call) rec root items w logs
      = (Ret (w ++ calls)%list, logs')
      /\ unlinked calls =
         map (fun f => path_under joinPaths normPath root (fst f))
           (files_of_items items).
Proof.
  intros Hrec. induction items as [| [key v] rest IH];
    intros root w logs HF Hm; cbn [removeTree_loop].
  - exists [], logs. rewrite app_nil_r. split; reflexivity.
  - inversion HF as [| ? ? [Hp Hh] HF']; subst. cbn [snd] in Hp, Hh.
    destruct (files_of_items_fresh _ _ _ Hm) as [-> Hm'].
    destruct (Hrec (normPath (joinPaths root key)) v w logs Hp Hh)
      as (c1 & logs1 & E1 & U1).
    rewrite (bind_returns _ _ _ _ _ E1).
    destruct (IH root (w ++ c1)%list logs1 HF' Hm')
      as (c2 & logs2 & E2 & U2).
    exists (c1 ++ c2)%list, logs2. rewrite app_assoc.
    split; [exact E2 |].
    rewrite unlinked_app, U1, U2, map_app, map_map. reflexivity.
Qed.

Lemma removeTree_fuel_calls fuel :
  forall root t w logs,
    pruned t = true -> (tree_height t < fuel)%nat ->
    exists calls logs',
      removeTree_fuel (writer := recorder) fuel root t false w logs
      = (Ret (w ++ calls)%list, logs')
      /\ unlinked calls =
         map (fun f => path_under joinPaths normPath root (fst f)) (files t)
      /\ (forall items,
             t = PyDict items -> dict_mem "." items = true ->
             exists before, calls = (before ++ [Rmdir root])%list).
Proof.
  induction fuel as [| n IH]; intros root t w logs Hp Hh; [lia |].
  cbn [removeTree_fuel]. destruct t as [| a m | items];
    [discriminate Hp | |].
  - exists [Unlink root]. eexists. split; [reflexivity |].
    split; [reflexivity | intros items H; discriminate H].
  - destruct (pruned_children _ _ Hp Hh) as [Hd HF].
    destruct (pop_self_rest
                (fun t => pruned t = true /\ (tree_height t < n)%nat)
                items Hd HF) as (Hm & HF' & Hfiles).
    unfold removeTree_body.
    destruct (removeTree_loop_calls _ n
                (fun root t w logs Hp Hh =>
                   match IH root t w logs Hp Hh with
                   | ex_intro _ c (ex_intro _ l (conj E (conj U _))) =>
                       ex_intro _ c (ex_intro _ l (conj E U))
                   end)
                _ root w logs HF' Hm) as (c & logs1 & E & U).
    rewrite (bind_returns _ _ _ _ _ E).
    change (files (PyDict items)) with (files_of_items items).
    rewrite <- Hfiles, <- U.
    destruct (fst (pop_self items)) eqn:Hself.
    + exists (c ++ [Rmdir root])%list. eexists.
      split; [rewrite app_assoc; reflexivity |].
      split; [rewrite unlinked_app; apply app_nil_r |].
      intros items' _ _. exists c. reflexivity.
    + exists c, logs1. split; [reflexivity |]. split; [reflexivity |].
      intros items' Heq Hmem. inversion Heq; subst items'.
      rewrite (pop_self_pruned items Hmem (Forall_weaken _ _ _ HF)) in Hself.
      discriminate Hself.
Qed.

Section Push.
Variable join_s : string -> string -> string.
Variable norm_s : string -> string.
Variable join_d : string -> string -> string.
Variable norm_d : string -> string.

Lemma pushTreeHere_loop_calls rec n :
  (forall root t destination w logs,
      pruned t = true -> (tree_height t < n)%nat ->
      exists calls logs',
        rec root t destination w logs = (Ret (w ++ calls)%list, logs')
        /\ file_calls calls =
           flat_map (copy_calls join_s norm_s join_d norm_d root destination)
             (files t)) ->
  forall items root destination w logs,
    Forall (fun kv => pruned (snd kv) = true
                      /\ (tree_height (snd kv) < n)%nat) items ->
    dict_mem "." items = false ->
    exists calls logs',
      pushTreeHere_loop (world := list call) rec join_s norm_s join_d norm_d
        root destination items w logs
      = (Ret (w ++ calls)%list, logs')
      /\ file_calls calls =
         flat_map (copy_calls join_s norm_s join_d norm_d root destination)
           (files_of_items items).
Proof.
  intros Hrec. induction items as [| [key v] rest IH];
    intros root destination w logs HF Hm; cbn [pushTreeHere_loop].
  - exists [], logs. rewrite app_nil_r. split; reflexivity.
  - inversion HF as [| ? ? [Hp Hh] HF']; subst. cbn [snd] in Hp, Hh.
    destruct (files_of_items_fresh _ _ _ Hm) as [-> Hm'].
    destruct (Hrec (norm_s (join_s root key)) v
                (norm_d (join_d destination key)) w logs Hp Hh)
      as (c1 & logs1 & E1 & U1).
    rewrite (bind_returns _ _ _ _ _ E1).
    destruct (IH root destination (w ++ c1)%list logs1 HF' Hm')
      as (c2 & logs2 & E2 & U2).
    exists (c1 ++ c2)%list, logs2. rewrite app_assoc.
    split; [exact E2 |].
    rewrite file_calls_app, U1, U2, flat_map_app, flat_map_map.
    reflexivity.
Qed.

Lemma pushTreeHere_fuel_calls fuel :
  forall root t destination w logs,
    pruned t = true -> (tree_height t < fuel)%nat ->
    exists calls logs',
      pushTreeHere_fuel (writer := recorder) fuel root t destination
        join_s norm_s join_d norm_d false w logs
      = (Ret (w ++ calls)%list, logs')
      /\ file_calls calls =
         flat_map (copy_calls join_s norm_s join_d norm_d root destination)
           (files t)
      /\ (forall items,
             t = PyDict items -> dict_mem "." items = true ->
             exists after, calls = Makedirs destination :: after).
Proof.
  induction fuel as [| n IH]; intros root t destination w logs Hp Hh; [lia |].
  cbn [pushTreeHere_fuel]. destruct t as [| a m | items];
    [discriminate Hp | |].
  - exists [PushFileHere root destination; Utime destination (a, m)].
    eexists. split.
    { cbv [pushTreeHere_body bind logging_log ret negb recorder pushFileHere
             utime]. rewrite <- app_assoc. reflexivity. }
    split; [reflexivity | intros items H; discriminate H].
  - destruct (pruned_children _ _ Hp Hh) as [Hd HF].
    destruct (pop_self_rest
                (fun t => pruned t = true /\ (tree_height t < n)%nat)
                items Hd HF) as (Hm & HF' & Hfiles).
    unfold pushTreeHere_body.
    change (files (PyDict items)) with (files_of_items items).
    rewrite <- Hfiles.
    pose proof (pushTreeHere_loop_calls _ n
                  (fun root t destination w logs Hp Hh =>
                     match IH root t destination w logs Hp Hh with
                     | ex_intro _ c (ex_intro _ l (conj E (conj U _))) =>
                         ex_intro _ c (ex_intro _ l (conj E U))
                     end)
                  (snd (pop_self items)) root destination) as Hloop.
    destruct (fst (pop_self items)) eqn:Hself;
      cbv [bind logging_log ret negb recorder makedirs].
    + match goal with
      | |- context [pushTreeHere_loop _ _ _ _ _ _ _ _ ?w' ?l] =>
          destruct (Hloop w' l HF' Hm) as (c & logs1 & E & U)
      end.
      exists (Makedirs destination :: c), logs1.
      rewrite <- app_assoc in E. split; [exact E |].
      split; [exact U |]. intros items' _ _. exists c. reflexivity.
    + destruct (Hloop w logs HF' Hm) as (c & logs1 & E & U).
      exists c, logs1. split; [exact E |]. split; [exact U |].
      intros items' Heq Hmem. inversion Heq; subst items'.
      rewrite (pop_self_pruned items Hmem (Forall_weaken _ _ _ HF)) in Hself.
      discriminate Hself.
Qed.
End Push.
End Recorded.

(** ** Bucketed times of a file and of its copy *)

Lemma py_int_le (t1 t2 : Q) : (t1 <= t2)%Q -> py_int t1 <= py_int t2.
Proof.
  destruct t1 as [n1 d1], t2 as [n2 d2]. unfold Qle, py_int. simpl.
  intros H.
  rewrite <- (Z.quot_mul_cancel_r n1 (Zpos d1) (Zpos d2)) by lia.
  rewrite <- (Z.quot_mul_cancel_r n2 (Zpos d2) (Zpos d1)) by lia.
  rewrite (Z.mul_comm (Zpos d2) (Zpos d1)).
  apply Z.quot_le_mono; lia.
Qed.

Lemma bucket_le (t1 t2 : Q) : (t1 <= t2)%Q -> bucket t1 <= bucket t2.
Proof.
  intros H. unfold bucket. apply Z.mul_le_mono_nonneg_l; [lia |].
  apply Z.div_le_mono; [lia | apply py_int_le; exact H].
Qed.

(** ** The plan of [main] *)

Lemma entry_setitem key key0 v (d : dict) :
  entry key (dict_setitem key0 v d) =
  if String.eqb key0 key then v else entry key d.
Proof.
  unfold entry. induction d as [| [k x] rest IH]; cbn [dict_setitem dict_get].
  - destruct (String.eqb key0 key); reflexivity.
  - destruct (String.eqb_spec k key0) as [-> | Hne]; cbn [dict_get].
    + destruct (String.eqb key0 key); reflexivity.
    + destruct (String.eqb_spec k key) as [-> | Hne'].
      * apply String.eqb_neq in Hne. rewrite String.eqb_sym, Hne.
        reflexivity.
      * exact IH.
Qed.

Lemma entry_absent key (d : dict) :
  dict_mem key d = false -> entry key d = PyNone.
Proof.
  intros H. unfold entry. rewrite (dict_not_mem_get _ _ H). reflexivity.
Qed.

Lemma matching_items_setitem key u e una exd :
  matching u e -> matching_items una exd ->
  matching_items (dict_setitem key u una) (dict_setitem key e exd).
Proof.
  intros Hue (H1 & H2 & H3). split; [| split].
  - apply dict_setitem_distinct. exact H1.
  - apply dict_setitem_distinct. exact H2.
  - intros k Hk. rewrite !entry_setitem.
    destruct (String.eqb key k); [exact Hue | exact (H3 k Hk)].
Qed.

Lemma matching_items_self self :
  matching_items (self_entry self) (self_entry PyNone).
Proof.
  split; [reflexivity |]. split; [reflexivity |]. intros key Hk.
  apply matching_nothing_excluded. unfold entry, self_entry. cbn [dict_get].
  destruct (String.eqb "." key); reflexivity.
Qed.

Section Matching.
Variable fnmatch : string -> string -> bool.
Variable patterns : list string.
Variables join_s join_d : string -> string -> string.
Variable flag : bool.

Section Loops.
Variable rec : tree -> tree -> string -> string -> M diffed.
Hypothesis rec_matching :
  forall s t ps pd logs d s' t' logs',
    rec s t ps pd logs = (Ret (d, s', t'), logs') ->
    matching (unaccounted_destination d) (excluded_destination d).

Lemma loop_destination_matching ps pd :
  forall items del una exc seen logs del' una' exc' seen' logs',
    loop_destination join_s join_d rec ps pd items del una exc seen logs =
    (Ret (del', una', exc', seen'), logs') ->
    matching_items una exc -> matching_items una' exc'.
Proof.
  induction items as [| [key value] rest IH]; cbn [loop_destination];
    intros del una exc seen logs del' una' exc' seen' logs' H Hm.
  - apply ret_inv in H. destruct H as [H _]. inversion H; subst. exact Hm.
  - inv_bind H. destruct a as [[d src'] value'].
    apply rec_matching in Hc.
    apply (IH _ _ _ _ _ _ _ _ _ _ H).
    apply matching_items_setitem; assumption.
Qed.

Lemma loop_both_matching ps pd :
  forall items destination del cop exs una exd seen logs
         del' cop' exs' una' exd' seen' destination' logs',
    loop_both join_s join_d rec ps pd items destination
      del cop exs una exd seen logs =
    (Ret (del', cop', exs', una', exd', seen', destination'), logs') ->
    matching_items una exd -> matching_items una' exd'.
Proof.
  induction items as [| [key value] rest IH]; cbn [loop_both];
    intros destination del cop exs una exd seen logs
           del' cop' exs' una' exd' seen' destination' logs' H Hm.
  - apply ret_inv in H. destruct H as [H _]. inversion H; subst. exact Hm.
  - destruct (pop_default key destination) as [value_d destination1].
    inv_bind H. destruct a as [[d value'] dst'].
    apply rec_matching in Hc.
    apply (IH _ _ _ _ _ _ _ _ _ _ _ _ _ _ _ _ H).
    apply matching_items_setitem; assumption.
Qed.

Lemma body_matching source destination ps pd logs d s' t' logs' :
  diffTrees_body fnmatch patterns join_s join_d flag rec
    source destination ps pd logs = (Ret (d, s', t'), logs') ->
  matching (unaccounted_destination d) (excluded_destination d).
Proof.
  unfold diffTrees_body. intros H.
  destruct (excluded fnmatch patterns pd) eqn:Hex.
  { destruct source, destination; inv_run H; inversion H; subst;
      try (inv_run Hc; inversion Hc; subst);
      apply matching_nothing_unaccounted; reflexivity. }
  destruct source as [| sa sm | s_items],
           destination as [| da dm | d_items].
  - inv_run H. inversion H; subst.
    apply matching_nothing_unaccounted; reflexivity.
  - inv_run H. inversion H; subst.
    apply matching_nothing_excluded; reflexivity.
  - inv_run H. inversion H; subst.
    destruct (loop_destination_matching _ _ _ _ _ _ _ _ _ _ _ _ _ Hc1
                (matching_items_self _)) as (H1 & H2 & H3).
    apply matching_dicts; assumption.
  - inv_run H. inversion H; subst.
    apply matching_nothing_unaccounted; reflexivity.
  - inv_run H; inversion H; subst;
      apply matching_nothing_unaccounted; reflexivity.
  - inv_run H. inversion H; subst.
    apply matching_nothing_unaccounted; reflexivity.
  - inv_run H. inversion H; subst.
    apply matching_nothing_unaccounted; reflexivity.
  - inv_run H. inversion H; subst. inv_run Hc. inversion Hc; subst.
    apply matching_nothing_unaccounted; reflexivity.
  - inv_run H. inversion H; subst.
    pose proof (loop_both_matching _ _ _ _ _ _ _ _ _ _ _ _ _ _ _ _ _ _ _ Hc0
                  (matching_items_self _)) as Hm.
    destruct (loop_destination_matching _ _ _ _ _ _ _ _ _ _ _ _ _ Hc2 Hm)
      as (H1 & H2 & H3).
    apply matching_dicts; assumption.
Qed.
End Loops.

Lemma diffTrees_fuel_matching fuel :
  forall source destination ps pd logs d s' t' logs',
    diffTrees_fuel fnmatch patterns join_s join_d flag fuel
      source destination ps pd logs = (Ret (d, s', t'), logs') ->
    matching (unaccounted_destination d) (excluded_destination d).
Proof.
  induction fuel as [| n IH]; cbn [diffTrees_fuel];
    intros source destination ps pd logs d s' t' logs' H;
    [discriminate H |].
  exact (body_matching _ IH _ _ _ _ _ _ _ _ _ H).
Qed.
End Matching.

Lemma entry_In key v (d : dict) :
  distinct_keys d = true -> In (key, v) d -> entry key d = v.
Proof.
  unfold entry. induction d as [| [k x] rest IH]; intros Hd Hin;
    [destruct Hin |].
  cbn [distinct_keys] in Hd. apply andb_true_iff in Hd.
  destruct Hd as [Hk Hd]. apply negb_true_iff in Hk.
  cbn [dict_get]. destruct Hin as [E | Hin].
  - inversion E; subst. rewrite String.eqb_refl. reflexivity.
  - destruct (String.eqb_spec k key) as [-> | Hne]; [| exact (IH Hd Hin)].
    exfalso. assert (Hm : dict_mem key rest = true).
    { apply dict_mem_keys. unfold dict_keys. apply in_map_iff.
      exists (key, v). split; [reflexivity | exact Hin]. }
    congruence.
Qed.

(** The entries of a pruned dict are the pruned entries of the dict. *)
Lemma prune_fold_entry items :
  forall acc,
    distinct_keys items = true ->
    (forall k, dict_mem k acc = true -> dict_mem k items = false) ->
    forall key,
      entry key (fold_left prune_step items acc) =
      if dict_mem key items then pruneTree (entry key items)
      else entry key acc.
Proof.
  induction items as [| [k v] rest IH]; intros acc Hd Hdis key;
    [reflexivity |].
  cbn [distinct_keys] in Hd. apply andb_true_iff in Hd.
  destruct Hd as [Hfresh Hd]. apply negb_true_iff in Hfresh.
  assert (Hkacc : dict_mem k acc = false).
  { destruct (dict_mem k acc) eqn:E; [| reflexivity].
    specialize (Hdis k E). cbn [dict_mem] in Hdis.
    rewrite String.eqb_refl in Hdis. discriminate Hdis. }
  cbn [fold_left]. rewrite IH; [| exact Hd |].
  - cbn [dict_mem]. unfold entry at 3. cbn [dict_get].
    destruct (String.eqb_spec k key) as [-> | Hne]; cbn [orb].
    + rewrite Hfresh. unfold prune_step. cbn [fst snd].
      destruct (pruneTree v) eqn:Hv.
      * apply entry_absent. exact Hkacc.
      * rewrite entry_setitem, String.eqb_refl. reflexivity.
      * rewrite entry_setitem, String.eqb_refl. reflexivity.
    + destruct (dict_mem key rest); [reflexivity |].
      unfold prune_step. cbn [fst snd]. apply String.eqb_neq in Hne.
      destruct (pruneTree v); [reflexivity | |];
        rewrite entry_setitem, Hne; reflexivity.
  - intros k' Hk'. unfold prune_step in Hk'. cbn [fst snd] in Hk'.
    assert (Hor : dict_mem k' acc = true \/ k = k').
    { destruct (pruneTree v); [left; exact Hk' | |];
        rewrite dict_setitem_mem in Hk'; apply orb_true_iff in Hk';
        (destruct Hk' as [Hk' | Hk'];
         [right; apply String.eqb_eq; exact Hk' | left; exact Hk']). }
    destruct Hor as [Hacc | <-]; [| exact Hfresh].
    specialize (Hdis k' Hacc). cbn [dict_mem] in Hdis.
    apply orb_false_iff in Hdis. tauto.
Qed.

Lemma pruneTree_entry items key :
  distinct_keys items = true ->
  entry key (fold_left prune_step items []) = pruneTree (entry key items).
Proof.
  intros Hd. rewrite (prune_fold_entry items [] Hd) by discriminate.
  destruct (dict_mem key items) eqn:Hm; [reflexivity |].
  rewrite (entry_absent _ _ Hm). reflexivity.
Qed.

(** What [pruneTree] makes of a dict. *)
Lemma pruneTree_dict_cases items :
  distinct_keys items = true ->
  pruneTree (PyDict items) = PyNone
  \/ exists pruned_items,
       pruneTree (PyDict items) = PyDict pruned_items
       /\ distinct_keys pruned_items = true
       /\ Forall (fun kv => pruned (snd kv) = true) pruned_items
       /\ forall key, entry key pruned_items = pruneTree (entry key items).
Proof.
  intros Hd. pose proof (pruneTree_spec (PyDict items)) as Hs.
  destruct (has_times (PyDict items)); [right | left; exact Hs].
  rewrite pruneTree_dict in Hs |- *.
  destruct (fold_left prune_step items []) as [| kv rest] eqn:Hf;
    [discriminate Hs |].
  exists (kv :: rest). split; [reflexivity |].
  cbn [dict_or_None pruned] in Hs.
  apply andb_true_iff in Hs. destruct Hs as [Hs Hall].
  cbn [andb] in Hs. split; [exact Hs |]. split.
  - apply Forall_forall. rewrite forallb_forall in Hall. exact Hall.
  - intros key. rewrite <- Hf. apply pruneTree_entry. exact Hd.
Qed.

Lemma remove_fold_returns excluded_ items :
  (forall key v,
      In (key, v) items -> String.eqb key "." = false ->
      exists e r,
        get_default key excluded_ = Ret e
        /\ removeExludedFoldersFromUnaccountedTree v e = Ret r) ->
  forall acc,
    exists r, fold_left (remove_step excluded_) items (Ret acc) = Ret r.
Proof.
  induction items as [| [key v] rest IH]; intros Hall acc.
  - exists acc. reflexivity.
  - cbn [fold_left]. unfold remove_step at 2. cbn [bind_outcome fst snd].
    destruct (String.eqb key ".") eqn:Hk.
    + apply IH. intros k x Hin. apply Hall. right. exact Hin.
    + destruct (Hall key v (or_introl eq_refl) Hk) as (e & r & He & Hr).
      rewrite He. cbn [bind_outcome]. rewrite Hr. cbn [bind_outcome].
      apply IH. intros k x Hin. apply Hall. right.
      exact Hin.
Qed.

Lemma removeExluded_None unaccounted :
  removeExludedFoldersFromUnaccountedTree unaccounted PyNone = Ret unaccounted.
Proof. destruct unaccounted; reflexivity. Qed.

(** On trees that go together [removeExludedFoldersFromUnaccountedTree]
    returns, once they are pruned. *)
Lemma matching_removeExluded u e :
  matching u e ->
  pruneTree u <> PyNone ->
  exists r,
    removeExludedFoldersFromUnaccountedTree (pruneTree u) (pruneTree e)
    = Ret r.
Proof.
  induction 1 as [u e Hu | u e He | u_items e_items Hdu Hde Hm IH];
    intros Hne.
  - pose proof (pruneTree_spec u) as Hs. rewrite Hu in Hs. contradiction.
  - pose proof (pruneTree_spec e) as Hs. rewrite He in Hs. rewrite Hs.
    eexists. apply removeExluded_None.
  - destruct (pruneTree_dict_cases e_items Hde)
      as [-> | (pe & -> & Hpe_d & _ & Hpe)];
      [eexists; apply removeExluded_None |].
    destruct (pruneTree_dict_cases u_items Hdu)
      as [Hnone | (pu & -> & Hpu_d & Hpu_p & Hpu)]; [contradiction |].
    rewrite removeExluded_dict by discriminate.
    destruct (remove_fold_returns (PyDict pe) pu)
      with (acc := @nil (string * tree)) as [r Hr].
    + intros key v Hin Hk. exists (entry key pe). cbn [get_default].
      assert (Hv : entry key pu = v) by (apply entry_In; assumption).
      assert (Hkey : key <> ".") by (apply String.eqb_neq; exact Hk).
      destruct (IH key Hkey) as [r Hr].
      * rewrite <- Hpu, Hv. rewrite Forall_forall in Hpu_p.
        specialize (Hpu_p (key, v) Hin). cbn [snd] in Hpu_p.
        intros E. rewrite E in Hpu_p. discriminate Hpu_p.
      * exists r. split; [reflexivity |].
        rewrite <- Hv, Hpu, Hpe. exact Hr.
    + exists (PyDict r).
      exact (f_equal (fun o => bind_outcome o (fun d => Ret (PyDict d)))
               Hr).
Qed.

Section PlanReturns.
Variable fnmatch : string -> string -> bool.
Variables join_s join_d : string -> string -> string.

Lemma main_plan_returns args source destination ps pd patterns logs :
  has_self_entries source = true ->
  has_self_entries destination = true ->
  returns_or_exits (negb (dryRun args) && negb (force args))
    (main_plan fnmatch join_s join_d args source destination ps pd patterns
       logs).
Proof.
  intros Hs Hd. unfold main_plan. apply returns_or_exits_bind.
  - unfold main_diffTrees. apply diffTrees_returns; assumption.
  - intros [[d s'] t'] logs' H. cbn [fst].
    unfold main_diffTrees in H. apply diffTrees_fuel_matching in H.
    destruct (pruneTree (unaccounted_destination d)) eqn:Hu.
    + exact I.
    + destruct (matching_removeExluded _ _ H) as [r Hr];
        [rewrite Hu; discriminate |].
      rewrite Hu in Hr. rewrite Hr. exact I.
    + destruct (matching_removeExluded _ _ H) as [r Hr];
        [rewrite Hu; discriminate |].
      rewrite Hu in Hr. rewrite Hr. exact I.
Qed.
End PlanReturns.

(** ** The plan holds entries of the snapshots only *)

Lemma within_trans t u v : within t u -> within u v -> within t v.
Proof. unfold within. apply incl_tran. Qed.

Lemma leaves_dict_or_None d :
  leaves (dict_or_None d) = leaves_of_items d.
Proof. destruct d; reflexivity. Qed.

Lemma prune_fold_within items X :
  Forall (fun kv => within (pruneTree (snd kv)) (snd kv)) items ->
  forall acc,
    incl (leaves_of_items items) X ->
    incl (leaves_of_items acc) X ->
    incl (leaves_of_items (fold_left prune_step items acc)) X.
Proof.
  induction 1 as [| [key v] rest Hv HF IH]; intros acc Hi Hacc;
    [exact Hacc |].
  cbn [fold_left]. rewrite leaves_of_items_cons in Hi.
  apply incl_app_inv in Hi. destruct Hi as [Hkv Hrest].
  apply IH; [exact Hrest |]. unfold prune_step. cbn [fst snd] in *.
  destruct (pruneTree v) eqn:E; [exact Hacc | |];
    apply leaves_setitem; try exact Hacc;
    eapply within_child; eassumption.
Qed.

Lemma pruneTree_within t : within (pruneTree t) t.
Proof.
  induction t as [| a m | items IH] using tree_ind';
    [apply within_refl .. |].
  unfold within. rewrite pruneTree_dict, leaves_dict_or_None.
  apply (prune_fold_within items _ IH); [apply incl_refl | intros x []].
Qed.

Lemma remove_fold_within excluded_ items X :
  Forall (fun kv => forall e r,
              removeExludedFoldersFromUnaccountedTree (snd kv) e = Ret r ->
              within r (snd kv)) items ->
  forall acc r,
    fold_left (remove_step excluded_) items (Ret acc) = Ret r ->
    incl (leaves_of_items items) X ->
    incl (leaves_of_items acc) X ->
    incl (leaves_of_items r) X.
Proof.
  induction 1 as [| [key v] rest Hv HF IH]; intros acc r H Hi Hacc.
  - simpl in H. inversion H; subst. exact Hacc.
  - apply remove_fold_step in H. destruct H as (acc' & Hstep & H).
    rewrite leaves_of_items_cons in Hi.
    apply incl_app_inv in Hi. destruct Hi as [Hkv Hrest].
    apply (IH _ _ H Hrest).
    apply remove_step_inv in Hstep.
    destruct Hstep as [[_ ->] | (_ & e & v' & _ & Hrec & ->)];
      [exact Hacc |].
    apply leaves_setitem; [exact Hacc |].
    eapply within_child; [exact (Hv _ _ Hrec) | exact Hkv].
Qed.

Lemma removeExluded_within unaccounted :
  forall excluded_ r,
    removeExludedFoldersFromUnaccountedTree unaccounted excluded_ = Ret r ->
    within r unaccounted.
Proof.
  induction unaccounted as [| a m | items IH] using tree_ind';
    intros excluded_ r H.
  - destruct excluded_; [| discriminate H ..]. inversion H.
    apply within_refl.
  - destruct excluded_; [| discriminate H ..]. inversion H.
    apply within_refl.
  - destruct (tree_None_dec excluded_) as [-> | He].
    + inversion H. apply within_refl.
    + rewrite (removeExluded_dict _ _ He) in H.
      destruct (fold_left (remove_step excluded_) items (Ret []))
        as [d | x |] eqn:Hf; try discriminate H.
      simpl in H. inversion H; subst.
      exact (remove_fold_within excluded_ items _ IH [] d Hf
               (incl_refl _) (fun x (F : In x []) => match F with end)).
Qed.

Section PlanWithin.
Variable fnmatch : string -> string -> bool.
Variables join_s join_d : string -> string -> string.

Lemma main_plan_within args source destination ps pd patterns logs p logs' :
  main_plan fnmatch join_s join_d args source destination ps pd patterns
    logs = (Ret p, logs') ->
  plan_from_snapshots source destination p.
Proof.
  unfold main_plan. intros H. inv_bind H. destruct a as [[d s'] t'].
  unfold main_diffTrees in Hc. apply diffTrees_fuel_from_arguments in Hc.
  destruct Hc as (H1 & H2 & H3 & H4 & H5). cbn [fst] in H.
  assert (Hcopy : within (pruneTree (copy d)) source)
    by (eapply within_trans; [apply pruneTree_within | exact H1]).
  assert (Hexs : within (pruneTree (excluded_source d)) source)
    by (eapply within_trans; [apply pruneTree_within | exact H2]).
  assert (Hdel : within (pruneTree (delete d)) destination)
    by (eapply within_trans; [apply pruneTree_within | exact H3]).
  assert (Huna : within (pruneTree (unaccounted_destination d)) destination)
    by (eapply within_trans; [apply pruneTree_within | exact H4]).
  assert (Hexd : within (pruneTree (excluded_destination d)) destination)
    by (eapply within_trans; [apply pruneTree_within | exact H5]).
  destruct (pruneTree (unaccounted_destination d)) eqn:Hu.
  - apply ret_inv in H. destruct H as [<- _].
    repeat split; assumption.
  - destruct (removeExludedFoldersFromUnaccountedTree _ _) as [r | e |]
      eqn:Hr; try discriminate H.
    apply ret_inv in H. destruct H as [<- _].
    repeat split; try assumption.
    cbn [tree_unaccounted_destination_non_excluded].
    eapply within_trans; [apply pruneTree_within |].
    eapply within_trans; [exact (removeExluded_within _ _ _ Hr) | exact Huna].
  - destruct (removeExludedFoldersFromUnaccountedTree _ _) as [r | e |]
      eqn:Hr; try discriminate H.
    apply ret_inv in H. destruct H as [<- _].
    repeat split; try assumption.
    cbn [tree_unaccounted_destination_non_excluded].
    eapply within_trans; [apply pruneTree_within |].
    eapply within_trans; [exact (removeExluded_within _ _ _ Hr) | exact Huna].
Qed.
End PlanWithin.

(** ** [diffTrees] forgets nothing *)

Lemma files_dict_In path times (items : dict) :
  In (path, times) (files (PyDict items)) <->
  exists key v rest,
    In (key, v) items /\ String.eqb key "." = false
    /\ path = key :: rest /\ In (rest, times) (files v).
Proof.
  cbn [files]. rewrite in_flat_map. split.
  - intros ([key v] & Hin & H). cbn [fst snd] in H.
    destruct (String.eqb key ".") eqn:Hk; [destruct H |].
    apply in_map_iff in H. destruct H as ([rest t] & E & H).
    cbn [fst snd] in E. inversion E; subst.
    exists key, v, rest. repeat split; assumption.
  - intros (key & v & rest & Hin & Hk & -> & H).
    exists (key, v). split; [exact Hin |]. cbn [fst snd]. rewrite Hk.
    apply in_map_iff. exists (rest, times). split; [reflexivity | exact H].
Qed.

Lemma In_setitem_same {A} key (v : A) d : In (key, v) (dict_setitem key v d).
Proof.
  induction d as [| [k x] rest IH]; cbn [dict_setitem]; [left; reflexivity |].
  destruct (String.eqb_spec k key) as [-> | Hne];
    [left; reflexivity | right; exact IH].
Qed.

Lemma In_setitem_other {A} key key0 (v v0 : A) d :
  In (key, v) d -> String.eqb key0 key = false ->
  In (key, v) (dict_setitem key0 v0 d).
Proof.
  intros Hin Hne. induction d as [| [k x] rest IH]; [destruct Hin |].
  cbn [dict_setitem]. destruct Hin as [E | Hin].
  - inversion E; subst. rewrite String.eqb_sym, Hne. left. reflexivity.
  - destruct (String.eqb k key0); right; [exact Hin | exact (IH Hin)].
Qed.

Lemma In_dict_mem {A} key (v : A) d : In (key, v) d -> dict_mem key d = true.
Proof.
  intros H. apply dict_mem_keys. unfold dict_keys. apply in_map_iff.
  exists (key, v). split; [reflexivity | exact H].
Qed.

Lemma pop_default_value key (d : dict) v rest :
  pop_default key d = (v, rest) ->
  (v = PyNone \/ In (key, v) d) /\ incl rest d.
Proof.
  unfold pop_default. destruct (dict_pop key d) as [[v' rest'] |] eqn:Hpop;
    intros H; inversion H; subst.
  - destruct (dict_pop_In _ _ _ _ Hpop) as [Hin Hsub].
    split; [right; exact Hin | exact Hsub].
  - split; [left; reflexivity | apply incl_refl].
Qed.

Lemma dict_pop_keeps_distinct {A} key (d : list (string * A)) v rest :
  dict_pop key d = Some (v, rest) ->
  distinct_keys d = true -> distinct_keys rest = true.
Proof.
  revert v rest. induction d as [| [k x] items IH]; intros v rest Hpop Hdist;
    [discriminate Hpop |].
  cbn [dict_pop] in Hpop. cbn [distinct_keys] in Hdist.
  apply andb_true_iff in Hdist. destruct Hdist as [Hk Hd].
  destruct (String.eqb k key); [inversion Hpop; subst; exact Hd |].
  destruct (dict_pop key items) as [[v' rest'] |] eqn:E;
    [| discriminate Hpop].
  inversion Hpop; subst. cbn [distinct_keys].
  rewrite (IH _ _ eq_refl Hd), andb_true_r.
  apply negb_true_iff. apply negb_true_iff in Hk.
  destruct (dict_mem k rest') eqn:Hm; [| reflexivity].
  rewrite (dict_pop_mem_sub _ _ _ _ _ E Hm) in Hk. discriminate Hk.
Qed.

Lemma dict_pop_keeps_In {A} key (d : list (string * A)) v rest k x :
  dict_pop key d = Some (v, rest) ->
  In (k, x) d -> String.eqb k key = false -> In (k, x) rest.
Proof.
  revert v rest. induction d as [| [k0 x0] items IH];
    intros v rest Hpop Hin Hk; [destruct Hin |].
  cbn [dict_pop] in Hpop. destruct (String.eqb k0 key) eqn:Hkd.
  - inversion Hpop; subst. destruct Hin as [E | Hin]; [| exact Hin].
    inversion E; subst. congruence.
  - destruct (dict_pop key items) as [[v' rest'] |] eqn:E;
      [| discriminate Hpop].
    inversion Hpop; subst. destruct Hin as [E' | Hin];
      [left; exact E' | right; exact (IH _ _ eq_refl Hin Hk)].
Qed.

Ltac pop_pairs :=
  repeat match goal with
         | H : dict_pop _ _ = Some ?a |- _ =>
             is_var a; destruct a as [? ?]; cbn [snd] in *
         end.

Section Forgets.
Variable fnmatch : string -> string -> bool.
Variable patterns : list string.
Variables join_s join_d : string -> string -> string.
Variable flag : bool.

Section Loops.
Variable rec : tree -> tree -> string -> string -> M diffed.

(** Where the results of the calls for the entries of the source end up. *)
Lemma loop_source_entries ps pd :
  forall items cop exc seen logs cop' exc' seen' logs',
    loop_source join_s join_d rec ps pd items cop exc seen logs =
    (Ret (cop', exc', seen'), logs') ->
    distinct_keys items = true ->
    (forall key x, In (key, x) cop -> dict_mem key items = false ->
                   In (key, x) cop')
    /\ (forall key x, In (key, x) exc -> dict_mem key items = false ->
                      In (key, x) exc')
    /\ (forall key v,
           In (key, v) items ->
           exists d s' t' ps' pd' l l',
             rec v PyNone ps' pd' l = (Ret (d, s', t'), l')
             /\ In (key, copy d) cop'
             /\ In (key, excluded_source d) exc').
Proof.
  induction items as [| [key value] rest IH]; cbn [loop_source];
    intros cop exc seen logs cop' exc' seen' logs' H Hd.
  - apply ret_inv in H. destruct H as [H _]. inversion H; subst.
    split; [auto |]. split; [auto |]. intros k v [].
  - cbn [distinct_keys] in Hd. apply andb_true_iff in Hd.
    destruct Hd as [Hfresh Hd]. apply negb_true_iff in Hfresh.
    inv_bind H. destruct a as [[d value'] dst'].
    destruct (IH _ _ _ _ _ _ _ _ H Hd) as (HA & HB & HC).
    split; [| split].
    + intros k x Hin Hm. cbn [dict_mem] in Hm.
      apply orb_false_iff in Hm. destruct Hm as [Hk Hm].
      apply HA; [| exact Hm]. apply In_setitem_other; assumption.
    + intros k x Hin Hm. cbn [dict_mem] in Hm.
      apply orb_false_iff in Hm. destruct Hm as [Hk Hm].
      apply HB; [| exact Hm]. apply In_setitem_other; assumption.
    + intros k v [E | Hin].
      * inversion E; subst. exists d, value', dst'. do 4 eexists.
        split; [exact Hc |]. split.
        -- apply HA; [apply In_setitem_same | exact Hfresh].
        -- apply HB; [apply In_setitem_same | exact Hfresh].
      * exact (HC k v Hin).
Qed.

Lemma loop_both_entries ps pd :
  forall items destination del cop exs una exd seen logs
         del' cop' exs' una' exd' seen' destination' logs',
    loop_both join_s join_d rec ps pd items destination
      del cop exs una exd seen logs =
    (Ret (del', cop', exs', una', exd', seen', destination'), logs') ->
    distinct_keys items = true ->
    (forall key x, In (key, x) cop -> dict_mem key items = false ->
                   In (key, x) cop')
    /\ (forall key x, In (key, x) exs -> dict_mem key items = false ->
                      In (key, x) exs')
    /\ (forall key v,
           In (key, v) items ->
           exists value_d d s' t' ps' pd' l l',
             (value_d = PyNone \/ In (key, value_d) destination)
             /\ rec v value_d ps' pd' l = (Ret (d, s', t'), l')
             /\ In (key, copy d) cop'
             /\ In (key, excluded_source d) exs').
Proof.
  induction items as [| [key value] rest IH]; cbn [loop_both];
    intros destination del cop exs una exd seen logs
           del' cop' exs' una' exd' seen' destination' logs' H Hd.
  - apply ret_inv in H. destruct H as [H _]. inversion H; subst.
    split; [auto |]. split; [auto |]. intros k v [].
  - cbn [distinct_keys] in Hd. apply andb_true_iff in Hd.
    destruct Hd as [Hfresh Hd]. apply negb_true_iff in Hfresh.
    destruct (pop_default key destination) as [value_d destination1] eqn:Hpop.
    apply pop_default_value in Hpop. destruct Hpop as [Hvd Hsub].
    inv_bind H. destruct a as [[d value'] dst'].
    destruct (IH _ _ _ _ _ _ _ _ _ _ _ _ _ _ _ _ H Hd) as (HA & HB & HC).
    split; [| split].
    + intros k x Hin Hm. cbn [dict_mem] in Hm.
      apply orb_false_iff in Hm. destruct Hm as [Hk Hm].
      apply HA; [| exact Hm]. apply In_setitem_other; assumption.
    + intros k x Hin Hm. cbn [dict_mem] in Hm.
      apply orb_false_iff in Hm. destruct Hm as [Hk Hm].
      apply HB; [| exact Hm]. apply In_setitem_other; assumption.
    + intros k v [E | Hin].
      * inversion E; subst. exists value_d, d, value', dst'. do 4 eexists.
        split; [exact Hvd |]. split; [exact Hc |]. split.
        -- apply HA; [apply In_setitem_same | exact Hfresh].
        -- apply HB; [apply In_setitem_same | exact Hfresh].
      * destruct (HC k v Hin)
          as (vd & d0 & s0 & t0 & ps0 & pd0 & l0 & l0' & Hv & Hr & H1 & H2).
        exists vd, d0, s0, t0, ps0, pd0, l0, l0'.
        split; [| split; [exact Hr | split; assumption]].
        destruct Hv as [-> | Hv]; [left; reflexivity |].
        right. apply Hsub. exact Hv.
Qed.

Hypothesis rec_accounts_for :
  forall s t ps pd logs d s' t' logs',
    rec s t ps pd logs = (Ret (d, s', t'), logs') ->
    has_self_entries s = true -> has_self_entries t = true ->
    accounts_for s t d.

(** A source directory against no destination, or against a file. *)
Lemma source_only_accounts_for s_items ps pd self rest cop0 exc0 seen0
    cop exc seen logs logs' destination d :
  has_self_entries (PyDict s_items) = true ->
  dict_pop "." s_items = Some (self, rest) ->
  loop_source join_s join_d rec ps pd rest cop0 exc0 seen0 logs
  = (Ret (cop, exc, seen), logs') ->
  copy d = PyDict cop -> excluded_source d = PyDict exc ->
  accounts_for (PyDict s_items) destination d.
Proof.
  intros Hs Hpop Hloop Hcopy Hexs path times Hin.
  destruct (has_self_entries_children _ Hs) as (_ & Hdist & Hall).
  apply files_dict_In in Hin.
  destruct Hin as (key & v & p & Hkv & Hk & -> & Hp).
  pose proof (dict_pop_keeps_distinct _ _ _ _ Hpop Hdist) as Hrest_d.
  pose proof (dict_pop_keeps_In _ _ _ _ _ _ Hpop Hkv Hk) as Hkv'.
  destruct (loop_source_entries _ _ _ _ _ _ _ _ _ _ _ Hloop Hrest_d)
    as (_ & _ & HC).
  destruct (HC key v Hkv')
    as (d0 & s0 & t0 & ps0 & pd0 & l0 & l0' & Hr & H1 & H2).
  rewrite Forall_forall in Hall.
  destruct (rec_accounts_for _ _ _ _ _ _ _ _ _ Hr (Hall (key, v) Hkv)
              eq_refl p times Hp) as [Hc | [He | (t' & [] & _)]].
  - left. rewrite Hcopy. apply files_dict_In.
    exists key, (copy d0), p. repeat split; assumption.
  - right. left. rewrite Hexs. apply files_dict_In.
    exists key, (excluded_source d0), p. repeat split; assumption.
Qed.

Lemma accounts_for_copy source destination d :
  copy d = source -> accounts_for source destination d.
Proof. intros H path times Hin. left. rewrite H. exact Hin. Qed.

Lemma accounts_for_excluded source destination d :
  excluded_source d = source -> accounts_for source destination d.
Proof. intros H path times Hin. right. left. rewrite H. exact Hin. Qed.

Lemma accounts_for_None destination d : accounts_for PyNone destination d.
Proof. intros path times []. Qed.

Lemma body_accounts_for source destination ps pd logs d s' t' logs' :
  diffTrees_body fnmatch patterns join_s join_d flag rec
    source destination ps pd logs = (Ret (d, s', t'), logs') ->
  has_self_entries source = true ->
  has_self_entries destination = true ->
  accounts_for source destination d.
Proof.
  unfold diffTrees_body. intros H Hs Hd.
  destruct source as [| sa sm | s_items]; [apply accounts_for_None | |].
  - destruct (excluded fnmatch patterns pd) eqn:Hex.
    { destruct destination; inv_run H; inversion H; subst;
        apply accounts_for_excluded; reflexivity. }
    destruct destination as [| da dm | d_items].
    + inv_run H. inversion H; subst. apply accounts_for_copy. reflexivity.
    + destruct (Z.ltb_spec dm sm) as [Hlt | Hge].
      * inv_run H. inversion H; subst. apply accounts_for_copy. reflexivity.
      * inv_run H. inversion H; subst. intros path times Hin.
        right. right. exists (da, dm). destruct Hin as [E | []].
        inversion E; subst. split; [left; reflexivity | exact Hge].
    + inv_run H. inversion H; subst. apply accounts_for_copy. reflexivity.
  - destruct (excluded fnmatch patterns pd) eqn:Hex.
    { destruct destination; inv_run H; inversion H; subst;
        try (inv_run Hc; inversion Hc; subst);
        apply accounts_for_excluded; reflexivity. }
    destruct destination as [| da dm | d_items].
    + inv_run H. inversion H; subst. pop_pairs.
      eapply source_only_accounts_for; try eassumption; reflexivity.
    + inv_run H. inversion H; subst. inv_run Hc. inversion Hc; subst.
      pop_pairs.
      eapply source_only_accounts_for; try eassumption; reflexivity.
    + inv_run H. inversion H; subst. pop_pairs. intros path times Hin.
      destruct (has_self_entries_children _ Hs) as (_ & Hdist & Hall).
      destruct (has_self_entries_children _ Hd) as (_ & _ & Hall_d).
      apply files_dict_In in Hin.
      destruct Hin as (key & v & p & Hkv & Hk & -> & Hp).
      pose proof (dict_pop_keeps_distinct _ _ _ _ Hc Hdist) as Hrest_d.
      pose proof (dict_pop_keeps_In _ _ _ _ _ _ Hc Hkv Hk) as Hkv'.
      destruct (loop_both_entries _ _ _ _ _ _ _ _ _ _ _ _ _ _ _ _ _ _ _
                  Hc0 Hrest_d) as (_ & _ & HC).
      destruct (HC key v Hkv')
        as (vd & r & ? & ? & ? & ? & ? & ? & Hv & Hr & H1 & H2).
      rewrite Forall_forall in Hall, Hall_d.
      assert (Hvd : has_self_entries vd = true).
      { destruct Hv as [-> | Hv]; [reflexivity | exact (Hall_d _ Hv)]. }
      destruct (rec_accounts_for _ _ _ _ _ _ _ _ _ Hr (Hall (key, v) Hkv)
                  Hvd p times Hp) as [Hcp | [He | (t'' & Ht & Hle)]].
      * left. cbn [copy]. apply files_dict_In.
        exists key, (copy r), p. repeat split; assumption.
      * right. left. cbn [excluded_source]. apply files_dict_In.
        exists key, (excluded_source r), p. repeat split; assumption.
      * right. right. exists t''. split; [| exact Hle].
        destruct Hv as [-> | Hv]; [destruct Ht |].
        apply files_dict_In. exists key, vd, p. repeat split; assumption.
Qed.
End Loops.

Lemma diffTrees_fuel_accounts_for fuel :
  forall source destination ps pd logs d s' t' logs',
    diffTrees_fuel fnmatch patterns join_s join_d flag fuel
      source destination ps pd logs = (Ret (d, s', t'), logs') ->
    has_self_entries source = true ->
    has_self_entries destination = true ->
    accounts_for source destination d.
Proof.
  induction fuel as [| n IH]; cbn [diffTrees_fuel];
    intros source destination ps pd logs d s' t' logs' H;
    [discriminate H |].
  exact (body_accounts_for _ IH _ _ _ _ _ _ _ _ _ H).
Qed.
End Forgets.

(** ** Without patterns [diffTrees] settles every file of the destination *)

Lemma dict_pop_exact {A} key (v : A) (d : list (string * A)) :
  distinct_keys d = true -> In (key, v) d ->
  exists rest, dict_pop key d = Some (v, rest).
Proof.
  induction d as [| [k x] items IH]; intros Hd Hin; [destruct Hin |].
  cbn [distinct_keys] in Hd. apply andb_true_iff in Hd.
  destruct Hd as [Hk Hd]. apply negb_true_iff in Hk. cbn [dict_pop].
  destruct Hin as [E | Hin].
  - inversion E; subst. rewrite String.eqb_refl. eexists. reflexivity.
  - destruct (String.eqb_spec k key) as [-> | Hne].
    + rewrite (In_dict_mem _ _ _ Hin) in Hk. discriminate Hk.
    + destruct (IH Hd Hin) as [rest ->]. eexists. reflexivity.
Qed.

Lemma pop_default_distinct key (d : dict) v rest :
  pop_default key d = (v, rest) ->
  distinct_keys d = true -> distinct_keys rest = true.
Proof.
  unfold pop_default. destruct (dict_pop key d) as [[v' rest'] |] eqn:Hpop;
    intros H Hd; inversion H; subst; [| exact Hd].
  exact (dict_pop_keeps_distinct _ _ _ _ Hpop Hd).
Qed.

Lemma pop_default_other key (d : dict) v rest k x :
  pop_default key d = (v, rest) ->
  In (k, x) d -> String.eqb k key = false -> In (k, x) rest.
Proof.
  unfold pop_default. destruct (dict_pop key d) as [[v' rest'] |] eqn:Hpop;
    intros H Hin Hk; inversion H; subst; [| exact Hin].
  exact (dict_pop_keeps_In _ _ _ _ _ _ Hpop Hin Hk).
Qed.

Lemma pop_default_mem_rest key (d : dict) v rest k :
  pop_default key d = (v, rest) ->
  dict_mem k rest = true -> dict_mem k d = true.
Proof.
  unfold pop_default. destruct (dict_pop key d) as [[v' rest'] |] eqn:Hpop;
    intros H Hk; inversion H; subst; [| exact Hk].
  exact (dict_pop_mem_sub _ _ _ _ _ Hpop Hk).
Qed.

Lemma pop_default_absent key (d : dict) v rest :
  pop_default key d = (v, rest) ->
  distinct_keys d = true -> dict_mem key rest = false.
Proof.
  unfold pop_default. destruct (dict_pop key d) as [[v' rest'] |] eqn:Hpop;
    intros H Hd; inversion H; subst.
  - exact (dict_pop_distinct _ _ _ _ Hpop Hd).
  - destruct (dict_mem key rest) eqn:Hm; [| reflexivity].
    destruct (dict_mem_pop _ _ Hm) as [r Hr]. congruence.
Qed.

Section Settles.
Variable fnmatch : string -> string -> bool.
Variables join_s join_d : string -> string -> string.
Variable flag : bool.

Section Loops.
Variable rec : tree -> tree -> string -> string -> M diffed.

(** Where the results of the calls for the entries of the destination end
    up. *)
Lemma loop_destination_entries ps pd :
  forall items del una exc seen logs del' una' exc' seen' logs',
    loop_destination join_s join_d rec ps pd items del una exc seen logs =
    (Ret (del', una', exc', seen'), logs') ->
    distinct_keys items = true ->
    (forall key x, In (key, x) del -> dict_mem key items = false ->
                   In (key, x) del')
    /\ (forall key x, In (key, x) una -> dict_mem key items = false ->
                      In (key, x) una')
    /\ (forall key v,
           In (key, v) items ->
           exists d s' t' ps' pd' l l',
             rec PyNone v ps' pd' l = (Ret (d, s', t'), l')
             /\ In (key, delete d) del'
             /\ In (key, unaccounted_destination d) una').
Proof.
  induction items as [| [key value] rest IH]; cbn [loop_destination];
    intros del una exc seen logs del' una' exc' seen' logs' H Hd.
  - apply ret_inv in H. destruct H as [H _]. inversion H; subst.
    split; [auto |]. split; [auto |]. intros k v [].
  - cbn [distinct_keys] in Hd. apply andb_true_iff in Hd.
    destruct Hd as [Hfresh Hd]. apply negb_true_iff in Hfresh.
    inv_bind H. destruct a as [[d src'] value'].
    destruct (IH _ _ _ _ _ _ _ _ _ _ H Hd) as (HA & HB & HC).
    split; [| split].
    + intros k x Hin Hm. cbn [dict_mem] in Hm.
      apply orb_false_iff in Hm. destruct Hm as [Hk Hm].
      apply HA; [| exact Hm]. apply In_setitem_other; assumption.
    + intros k x Hin Hm. cbn [dict_mem] in Hm.
      apply orb_false_iff in Hm. destruct Hm as [Hk Hm].
      apply HB; [| exact Hm]. apply In_setitem_other; assumption.
    + intros k v [E | Hin].
      * inversion E; subst. exists d, src', value'. do 4 eexists.
        split; [exact Hc |]. split.
        -- apply HA; [apply In_setitem_same | exact Hfresh].
        -- apply HB; [apply In_setitem_same | exact Hfresh].
      * exact (HC k v Hin).
Qed.

(** What becomes of the entries of the destination in the loop over the
    source: an entry that the source has too is diffed against it, any
    other is left in the destination. *)
Lemma loop_both_destination ps pd :
  forall items destination del cop exs una exd seen logs
         del' cop' exs' una' exd' seen' destination' logs',
    loop_both join_s join_d rec ps pd items destination
      del cop exs una exd seen logs =
    (Ret (del', cop', exs', una', exd', seen', destination'), logs') ->
    distinct_keys items = true ->
    distinct_keys destination = true ->
    distinct_keys destination' = true
    /\ (forall key, dict_mem key destination' = true ->
                    dict_mem key destination = true
                    /\ dict_mem key items = false)
    /\ (forall key x, In (key, x) del -> dict_mem key items = false ->
                      In (key, x) del')
    /\ (forall key x, In (key, x) una -> dict_mem key items = false ->
                      In (key, x) una')
    /\ (forall key v,
           In (key, v) destination ->
           (exists value d s' t' ps' pd' l l',
               In (key, value) items
               /\ rec value v ps' pd' l = (Ret (d, s', t'), l')
               /\ In (key, delete d) del'
               /\ In (key, unaccounted_destination d) una')
           \/ (dict_mem key items = false /\ In (key, v) destination')).
Proof.
  induction items as [| [key value] rest IH]; cbn [loop_both];
    intros destination del cop exs una exd seen logs
           del' cop' exs' una' exd' seen' destination' logs' H Hd Hdd.
  - apply ret_inv in H. destruct H as [H _]. inversion H; subst.
    split; [exact Hdd |]. split; [auto |]. split; [auto |].
    split; [auto |].
    intros k v Hin. right. split; [reflexivity | exact Hin].
  - cbn [distinct_keys] in Hd. apply andb_true_iff in Hd.
    destruct Hd as [Hfresh Hd]. apply negb_true_iff in Hfresh.
    destruct (pop_default key destination) as [value_d destination1] eqn:Hpop.
    inv_bind H. destruct a as [[d value'] dst'].
    destruct (IH _ _ _ _ _ _ _ _ _ _ _ _ _ _ _ _ H Hd
                (pop_default_distinct _ _ _ _ Hpop Hdd))
      as (Hdd' & HE & HA & HB & HC).
    split; [exact Hdd' |]. split; [| split; [| split]].
    + intros k Hk. destruct (HE k Hk) as [Hk1 Hk2]. split.
      * exact (pop_default_mem_rest _ _ _ _ _ Hpop Hk1).
      * cbn [dict_mem]. rewrite Hk2, orb_false_r.
        destruct (String.eqb_spec key k) as [<- | Hne]; [| reflexivity].
        rewrite (pop_default_absent _ _ _ _ Hpop Hdd) in Hk1.
        discriminate Hk1.
    + intros k x Hin Hm. cbn [dict_mem] in Hm.
      apply orb_false_iff in Hm. destruct Hm as [Hk Hm].
      apply HA; [| exact Hm]. apply In_setitem_other; assumption.
    + intros k x Hin Hm. cbn [dict_mem] in Hm.
      apply orb_false_iff in Hm. destruct Hm as [Hk Hm].
      apply HB; [| exact Hm]. apply In_setitem_other; assumption.
    + intros k v Hin. destruct (String.eqb_spec k key) as [-> | Hne].
      * left. destruct (dict_pop_exact _ _ _ Hdd Hin) as [r Hr].
        unfold pop_default in Hpop. rewrite Hr in Hpop.
        inversion Hpop; subst.
        exists value, d, value', dst'. do 4 eexists.
        split; [left; reflexivity |]. split; [exact Hc |]. split.
        -- apply HA; [apply In_setitem_same | exact Hfresh].
        -- apply HB; [apply In_setitem_same | exact Hfresh].
      * apply String.eqb_neq in Hne.
        destruct (HC k v (pop_default_other _ _ _ _ _ _ Hpop Hin Hne))
          as [(sv & d0 & s0 & t0 & ps0 & pd0 & l0 & l0' & H1 & H2 & H3 & H4)
             | [Hm Hin']].
        -- left. exists sv, d0, s0, t0, ps0, pd0, l0, l0'.
           split; [right; exact H1 |]. repeat split; assumption.
        -- right. split; [| exact Hin']. cbn [dict_mem].
           rewrite String.eqb_sym, Hne, Hm. reflexivity.
Qed.

Hypothesis rec_settles :
  forall s t ps pd logs d s' t' logs',
    rec s t ps pd logs = (Ret (d, s', t'), logs') ->
    has_self_entries s = true -> has_self_entries t = true ->
    settles s t d.

Lemma settles_delete source destination d :
  delete d = destination -> settles source destination d.
Proof. intros H path times Hin. left. rewrite H. exact Hin. Qed.

Lemma settles_unaccounted source destination d :
  unaccounted_destination d = destination -> settles source destination d.
Proof. intros H path times Hin. right. left. rewrite H. exact Hin. Qed.

Lemma settles_None source d : settles source PyNone d.
Proof. intros path times []. Qed.

Lemma body_settles source destination ps pd logs d s' t' logs' :
  diffTrees_body fnmatch [] join_s join_d flag rec
    source destination ps pd logs = (Ret (d, s', t'), logs') ->
  has_self_entries source = true ->
  has_self_entries destination = true ->
  settles source destination d.
Proof.
  unfold diffTrees_body. cbn [excluded existsb]. intros H Hs Hd.
  destruct destination as [| da dm | d_items]; [apply settles_None | |].
  - destruct source as [| sa sm | s_items].
    + inv_run H. inversion H; subst. apply settles_unaccounted. reflexivity.
    + destruct (Z.ltb_spec dm sm) as [Hlt | Hge].
      * inv_run H. inversion H; subst. apply settles_delete. reflexivity.
      * inv_run H. inversion H; subst. intros path times Hin.
        right. right. exists (sa, sm). destruct Hin as [E | []].
        inversion E; subst. split; [left; reflexivity | exact Hge].
    + inv_run H. inversion H; subst. inv_run Hc. inversion Hc; subst.
      apply settles_delete. reflexivity.
  - destruct (has_self_entries_children _ Hd) as (_ & Hdist_d & Hall_d).
    rewrite Forall_forall in Hall_d.
    destruct source as [| sa sm | s_items].
    + inv_run H. inversion H; subst. pop_pairs. intros path times Hin.
      apply files_dict_In in Hin.
      destruct Hin as (key & v & p & Hkv & Hk & -> & Hp).
      pose proof (dict_pop_keeps_distinct _ _ _ _ Hc0 Hdist_d) as Hrest_d.
      pose proof (dict_pop_keeps_In _ _ _ _ _ _ Hc0 Hkv Hk) as Hkv'.
      destruct (loop_destination_entries _ _ _ _ _ _ _ _ _ _ _ _ _ Hc1
                  Hrest_d) as (_ & _ & HC).
      destruct (HC key v Hkv')
        as (r & ? & ? & ? & ? & ? & ? & Hr & H1 & H2).
      destruct (rec_settles _ _ _ _ _ _ _ _ _ Hr eq_refl (Hall_d _ Hkv)
                  p times Hp) as [Hdel | [Huna | (t'' & [] & _)]].
      * left. cbn [delete]. apply files_dict_In.
        exists key, (delete r), p. repeat split; assumption.
      * right. left. cbn [unaccounted_destination]. apply files_dict_In.
        exists key, (unaccounted_destination r), p.
        repeat split; assumption.
    + inv_run H. inversion H; subst. apply settles_delete. reflexivity.
    + destruct (has_self_entries_children _ Hs) as (_ & Hdist_s & Hall_s).
      rewrite Forall_forall in Hall_s.
      inv_run H. inversion H; subst. pop_pairs.
      match goal with
      | Hl : loop_destination _ _ _ _ _ ?r _ _ _ _ _ = _ |- _ =>
          rename r into d_rest
      end.
      intros path times Hin. apply files_dict_In in Hin.
      destruct Hin as (key & v & p & Hkv & Hk & -> & Hp).
      pose proof (dict_pop_keeps_distinct _ _ _ _ Hc Hdist_s) as Hrest_s.
      destruct (dict_pop_In _ _ _ _ Hc) as [_ Hsub_s].
      destruct (loop_both_destination _ _ _ _ _ _ _ _ _ _ _ _ _ _ _ _ _ _ _
                  Hc0 Hrest_s Hdist_d) as (Hdd' & HE & HA & HB & HC).
      pose proof (dict_pop_keeps_distinct _ _ _ _ Hc1 Hdd') as Hrest_d.
      destruct (loop_destination_entries _ _ _ _ _ _ _ _ _ _ _ _ _ Hc2
                  Hrest_d) as (HA' & HB' & HC').
      destruct (HC key v Hkv)
        as [(sv & r & ? & ? & ? & ? & ? & ? & Hsv & Hr & H1 & H2)
           | [Hm Hin']].
      * assert (Hgone : dict_mem key d_rest = false).
        { destruct (dict_mem key d_rest) eqn:Hm; [| reflexivity].
          pose proof (dict_pop_mem_sub _ _ _ _ _ Hc1 Hm) as Hm'.
          destruct (HE key Hm') as [_ Hm''].
          rewrite (In_dict_mem _ _ _ Hsv) in Hm''. discriminate Hm''. }
        destruct (rec_settles _ _ _ _ _ _ _ _ _ Hr
                    (Hall_s _ (Hsub_s _ Hsv)) (Hall_d _ Hkv) p times Hp)
          as [Hdel | [Huna | (t'' & Ht & Hle)]].
        -- left. cbn [delete]. apply files_dict_In.
           exists key, (delete r), p. repeat split; try assumption.
           apply HA'; assumption.
        -- right. left. cbn [unaccounted_destination]. apply files_dict_In.
           exists key, (unaccounted_destination r), p.
           repeat split; try assumption. apply HB'; assumption.
        -- right. right. exists t''. split; [| exact Hle].
           apply files_dict_In. exists key, sv, p.
           repeat split; try assumption. apply Hsub_s. exact Hsv.
      * pose proof (dict_pop_keeps_In _ _ _ _ _ _ Hc1 Hin' Hk) as Hkv'.
        destruct (HC' key v Hkv')
          as (r & ? & ? & ? & ? & ? & ? & Hr & H1 & H2).
        destruct (rec_settles _ _ _ _ _ _ _ _ _ Hr eq_refl (Hall_d _ Hkv)
                    p times Hp) as [Hdel | [Huna | (t'' & [] & _)]].
        -- left. cbn [delete]. apply files_dict_In.
           exists key, (delete r), p. repeat split; assumption.
        -- right. left. cbn [unaccounted_destination]. apply files_dict_In.
           exists key, (unaccounted_destination r), p.
           repeat split; assumption.
Qed.
End Loops.

Lemma diffTrees_fuel_settles fuel :
  forall source destination ps pd logs d s' t' logs',
    diffTrees_fuel fnmatch [] join_s join_d flag fuel
      source destination ps pd logs = (Ret (d, s', t'), logs') ->
    has_self_entries source = true ->
    has_self_entries destination = true ->
    settles source destination d.
Proof.
  induction fuel as [| n IH]; cbn [diffTrees_fuel];
    intros source destination ps pd logs d s' t' logs' H;
    [discriminate H |].
  exact (body_settles _ IH _ _ _ _ _ _ _ _ _ H).
Qed.
End Settles.

(** * Further properties of the code *)

(** ** [pruneTree] *)

(** X1.  [pruneTree] returns [None] exactly for the trees that hold no pair
    of times; for every other tree the result is pruned: no [None] is left in
    it and no dict of it is empty. *)
Theorem X1_pruneTree_result :
  forall t,
    if has_times t then pruned (pruneTree t) = true
    else pruneTree t = PyNone.
Proof. exact pruneTree_spec. Qed.

(** X2.  Pruning twice is the same as pruning once. *)
Theorem X2_pruneTree_idempotent :
  forall t, pruneTree (pruneTree t) = pruneTree t.
Proof.
  intros t. pose proof (pruneTree_spec t) as H.
  destruct (has_times t).
  - apply pruneTree_pruned. exact H.
  - rewrite H. reflexivity.
Qed.

(** X3.  Pruning loses no entry: when no dict of the tree has a key twice,
    the pruned tree holds the same times under the same keys, in the same
    order. *)
Theorem X3_pruneTree_keeps_entries :
  forall t, python_dicts t = true -> leaves (pruneTree t) = leaves t.
Proof. exact pruneTree_leaves. Qed.

Lemma X3_pruneTree_keeps_entries_witness :
  python_dicts sample_unpruned = true
  /\ leaves (pruneTree sample_unpruned) = [(["a.txt"], (120, 120))].
Proof.
  split; [reflexivity |].
  exact (X3_pruneTree_keeps_entries sample_unpruned eq_refl).
Defined.

(** ** [removeExludedFoldersFromUnaccountedTree] *)

(** X4.  When the excluded tree is not [None] and the call returns, the
    result is a dict without a ["."] entry: a folder that holds something
    excluded is not itself in the tree to delete. *)
Theorem X4_removeExluded_drops_folder_entry :
  forall unaccounted excluded_ r,
    removeExludedFoldersFromUnaccountedTree unaccounted excluded_ = Ret r ->
    excluded_ <> PyNone ->
    exists items, r = PyDict items /\ dict_mem "." items = false.
Proof. exact removeExluded_no_self. Qed.

Lemma X4_removeExluded_drops_folder_entry_witness :
  exists items,
    PyDict [("cache", PyDict [("old.txt", PyTuple 60 60)])] = PyDict items
    /\ dict_mem "." items = false.
Proof.
  refine (X4_removeExluded_drops_folder_entry sample_unaccounted
            sample_excluded
            (PyDict [("cache", PyDict [("old.txt", PyTuple 60 60)])])
            eq_refl _).
  discriminate.
Defined.

(** X5.  On a pruned unaccounted tree a call that returns keeps every file:
    the result has the files of the argument, under the same keys and with
    the same times; only entries of directories are dropped. *)
Theorem X5_removeExluded_keeps_files :
  forall unaccounted excluded_ r,
    pruned unaccounted = true ->
    removeExludedFoldersFromUnaccountedTree unaccounted excluded_ = Ret r ->
    files r = files unaccounted.
Proof. exact removeExluded_files. Qed.

Lemma X5_removeExluded_keeps_files_witness :
  pruned sample_unaccounted = true
  /\ files (PyDict [("cache", PyDict [("old.txt", PyTuple 60 60)])])
     = [(["cache"; "old.txt"], (60, 60))].
Proof.
  split; [reflexivity |].
  exact (X5_removeExluded_keeps_files sample_unaccounted sample_excluded
           (PyDict [("cache", PyDict [("old.txt", PyTuple 60 60)])])
           eq_refl eq_refl).
Defined.

(** ** [diffTrees] on particular pairs of trees *)

(** X6.  A tree whose dicts all have their ["."] entry, diffed against
    itself, gives nothing to do: the call returns without logging, whatever
    the patterns and the flag, and the trees to delete, to copy and the
    unaccounted tree hold no pair of times. *)
Theorem X6_diffTrees_same_tree :
  forall fnmatch patterns join_s join_d flag t ps pd logs,
    has_self_entries t = true ->
    nothing_to_do
      (diffTrees fnmatch patterns join_s join_d flag t t ps pd logs) logs.
Proof.
  intros fnmatch patterns join_s join_d flag t ps pd logs H.
  apply (diffTrees_fuel_self fnmatch patterns join_s join_d flag
           (S (Nat.max (tree_height t) (tree_height t)))).
  split; [exact H | lia].
Qed.

Lemma X6_diffTrees_same_tree_witness :
  has_self_entries snapshot_source = true
  /\ nothing_to_do
       (diffTrees literal_fnmatch ["dst/sub"] slash_join slash_join true
          snapshot_source snapshot_source "src" "dst" []) [].
Proof.
  split; [reflexivity |].
  exact (X6_diffTrees_same_tree literal_fnmatch ["dst/sub"] slash_join
           slash_join true snapshot_source "src" "dst" [] eq_refl).
Defined.

(** X7.  A first synchronisation: with no exclude pattern, a source tree
    whose dicts all start with their ["."] entry, diffed against an absent
    destination, is copied as a whole; nothing is deleted, unaccounted or
    excluded, and nothing is logged. *)
Theorem X7_diffTrees_absent_destination :
  forall fnmatch join_s join_d flag t ps pd logs,
    self_first t = true ->
    copies_all t
      (diffTrees fnmatch [] join_s join_d flag t PyNone ps pd logs) logs.
Proof.
  intros fnmatch join_s join_d flag t ps pd logs H.
  exact (diffTrees_copies fnmatch join_s join_d flag t ps pd logs H).
Qed.

Lemma X7_diffTrees_absent_destination_witness :
  self_first snapshot_source = true
  /\ copies_all snapshot_source
       (diffTrees literal_fnmatch [] slash_join slash_join true
          snapshot_source PyNone "src" "dst" []) [].
Proof.
  split; [reflexivity |].
  exact (X7_diffTrees_absent_destination literal_fnmatch slash_join
           slash_join true snapshot_source "src" "dst" [] eq_refl).
Defined.

(** X8.  With no exclude pattern, a destination tree whose dicts all start
    with their ["."] entry, diffed against an absent source, is unaccounted
    as a whole: nothing is copied, and the trees to delete and of excluded
    items hold no pair of times. *)
Theorem X8_diffTrees_absent_source :
  forall fnmatch join_s join_d flag t ps pd logs,
    self_first t = true ->
    unaccounted_all t
      (diffTrees fnmatch [] join_s join_d flag PyNone t ps pd logs) logs.
Proof.
  intros fnmatch join_s join_d flag t ps pd logs H.
  exact (diffTrees_unaccounted fnmatch join_s join_d flag t ps pd logs H).
Qed.

Lemma X8_diffTrees_absent_source_witness :
  self_first snapshot_destination = true
  /\ unaccounted_all snapshot_destination
       (diffTrees literal_fnmatch [] slash_join slash_join true
          PyNone snapshot_destination "src" "dst" []) [].
Proof.
  split; [reflexivity |].
  exact (X8_diffTrees_absent_source literal_fnmatch slash_join slash_join
           true snapshot_destination "src" "dst" [] eq_refl).
Defined.

(** X9.  When the destination path matches an exclude pattern, the call
    returns at once, whatever the two trees are: it leaves both arguments as
    they are, logs nothing, does not exit even for a file against a
    directory, and the trees to delete, to copy and the unaccounted tree hold
    no pair of times. *)
Theorem X9_diffTrees_excluded_path :
  forall fnmatch patterns join_s join_d flag source destination ps pd logs,
    excluded fnmatch patterns pd = true ->
    exists d,
      diffTrees fnmatch patterns join_s join_d flag
        source destination ps pd logs = (Ret (d, source, destination), logs)
      /\ has_times (delete d) = false
      /\ has_times (copy d) = false
      /\ has_times (unaccounted_destination d) = false.
Proof.
  intros fnmatch patterns join_s join_d flag source destination ps pd logs.
  apply diff_excluded.
Qed.

Lemma X9_diffTrees_excluded_path_witness :
  excluded literal_fnmatch ["dst"] "dst" = true
  /\ exists d,
       diffTrees literal_fnmatch ["dst"] slash_join slash_join true
         snapshot_source (PyTuple 60 60) "src" "dst" []
       = (Ret (d, snapshot_source, PyTuple 60 60), [])
       /\ has_times (delete d) = false
       /\ has_times (copy d) = false
       /\ has_times (unaccounted_destination d) = false.
Proof.
  split; [reflexivity |].
  exact (X9_diffTrees_excluded_path literal_fnmatch ["dst"] slash_join
           slash_join true snapshot_source (PyTuple 60 60) "src" "dst" []
           eq_refl).
Defined.

(** X10.  A source directory whose dicts all have their ["."] entry, against
    a destination file at a path that is not excluded, with the flag set:
    the call logs the three critical records and exits, and the diffing of
    the source below the directory, done before, has logged nothing. *)
Theorem X10_diffTrees_directory_over_file_exits :
  forall fnmatch patterns join_s join_d s_items da dm ps pd logs,
    excluded fnmatch patterns pd = false ->
    has_self_entries (PyDict s_items) = true ->
    diffTrees fnmatch patterns join_s join_d true
      (PyDict s_items) (PyTuple da dm) ps pd logs =
    (Raise SystemExit,
     (logs ++ [ (CRITICAL,
                 format2 "Refusing to overwrite file '" pd
                   "' with directory '" ps "'");
                (CRITICAL, "Use --force if you are sure!");
                (CRITICAL, "Exiting") ])%list).
Proof.
  intros fnmatch patterns join_s join_d s_items da dm ps pd logs Hex Hs.
  exact (diff_dir_file_exits fnmatch patterns join_s join_d true
           s_items da dm ps pd logs eq_refl Hex Hs).
Qed.

Lemma X10_diffTrees_directory_over_file_exits_witness :
  diffTrees literal_fnmatch [] slash_join slash_join true
    snapshot_source (PyTuple 60 60) "src" "dst" [] =
  (Raise SystemExit,
   [ (CRITICAL, "Refusing to overwrite file 'dst' with directory 'src'");
     (CRITICAL, "Use --force if you are sure!");
     (CRITICAL, "Exiting") ]).
Proof.
  exact (X10_diffTrees_directory_over_file_exits literal_fnmatch []
           slash_join slash_join
           [ (".", PyTuple 60 60); ("a.txt", PyTuple 120 120);
             ("sub", PyDict [(".", PyTuple 60 60);
                             ("b.txt", PyTuple 180 180)]) ]
           60 60 "src" "dst" [] eq_refl eq_refl).
Defined.

(** X11.  [diffTrees] invents nothing: when a call returns, every pair of
    times in the tree to copy and in the tree of excluded source items is in
    the source under the same keys, and every pair of times in the tree to
    delete, in the unaccounted tree and in the tree of excluded destination
    items is in the destination under the same keys. *)
Theorem X11_diffTrees_from_arguments :
  forall fnmatch patterns join_s join_d flag source destination ps pd logs
         d source' destination' logs',
    diffTrees fnmatch patterns join_s join_d flag
      source destination ps pd logs
    = (Ret (d, source', destination'), logs') ->
    from_arguments source destination d.
Proof.
  intros fnmatch patterns join_s join_d flag source destination ps pd logs
         d source' destination' logs' H.
  exact (diffTrees_fuel_from_arguments fnmatch patterns join_s join_d flag
           _ _ _ _ _ _ _ _ _ _ H).
Qed.

Lemma X11_diffTrees_from_arguments_witness :
  from_arguments snapshot_source snapshot_destination
    (mkDiff
       (PyDict [ (".", PyNone); ("a.txt", PyTuple 60 60); ("sub", PyNone);
                 ("old.txt", PyNone) ])
       (PyDict [ (".", PyNone); ("a.txt", PyTuple 120 120);
                 ("sub", PyDict [ (".", PyTuple 60 60);
                                  ("b.txt", PyTuple 180 180) ]) ])
       (PyDict [ (".", PyNone); ("a.txt", PyNone);
                 ("sub", PyDict [(".", PyNone); ("b.txt", PyNone)]) ])
       (PyDict [ (".", PyNone); ("a.txt", PyNone); ("sub", PyNone);
                 ("old.txt", PyTuple 60 60) ])
       (PyDict [ (".", PyNone); ("a.txt", PyNone); ("sub", PyNone);
                 ("old.txt", PyNone) ])).
Proof.
  exact (X11_diffTrees_from_arguments literal_fnmatch [] slash_join
           slash_join false snapshot_source snapshot_destination
           "src" "dst" [] _ _ _ [] eq_refl).
Defined.

(** ** [escapePath] *)

(** X12.  The six replacements of [escapePath], done one after the other,
    amount to one pass over the path: each blank, quote, parenthesis,
    exclamation mark and ampersand gets one backslash before it, and every
    other character, the backslash included, stays as it is. *)
Theorem X12_escapePath_one_pass :
  forall path, escapePath path = escape_each path.
Proof. exact escapePath_escape_each. Qed.

(** X13.  [escapePath] sends different paths to different texts. *)
Theorem X13_escapePath_injective :
  forall p q, escapePath p = escapePath q -> p = q.
Proof.
  intros p q H. rewrite !escapePath_escape_each in H.
  exact (escape_each_injective p q H).
Qed.

Lemma X13_escapePath_injective_witness :
  escapePath "My Music (1)" = escapePath "My Music (1)"
  /\ "My Music (1)" = "My Music (1)".
Proof.
  split; [reflexivity |].
  exact (X13_escapePath_injective "My Music (1)" "My Music (1)" eq_refl).
Defined.

(** ** The snapshot builder *)

(** X14.  In a tree that [getFilesTree] returns, on every backend, every
    dict starts with its ["."] entry and has no key twice, and no dict has an
    entry [".."]: the listing lines for the directory itself and for its
    parent are left out. *)
Theorem X14_getFilesTree_self_first :
  forall (fs : FileSystem) fuel root followLinks logs t logs',
    getFilesTree fuel root followLinks logs = (Ret t, logs') ->
    self_first t = true /\ no_parent_entry t = true.
Proof.
  intros fs fuel root followLinks logs t logs' H. split.
  - exact (getFilesTree_self_first fuel root followLinks logs t logs' H).
  - exact (getFilesTree_no_parent fuel root followLinks logs t logs' H).
Qed.

Lemma X14_getFilesTree_self_first_witness :
  self_first
    (PyDict [ (".", PyTuple 1577934240 1577934240);
              ("song.mp3", PyTuple 1577934300 1577934300) ]) = true
  /\ no_parent_entry
       (PyDict [ (".", PyTuple 1577934240 1577934240);
                 ("song.mp3", PyTuple 1577934300 1577934300) ]) = true.
Proof.
  exact (X14_getFilesTree_self_first sample_device 2%nat "/sdcard/Music"
           false []
           (PyDict [ (".", PyTuple 1577934240 1577934240);
                     ("song.mp3", PyTuple 1577934300 1577934300) ])
           [] eq_refl).
Defined.

(** X15.  A snapshot against nothing: the tree that [getFilesTree] returns,
    diffed with no exclude pattern against an absent destination, is the
    tree to copy, and nothing is deleted or logged. *)
Theorem X15_snapshot_first_synchronisation :
  forall (fs : FileSystem) fuel root followLinks logs0 t logs1
         fnmatch join_s join_d flag ps pd logs,
    getFilesTree fuel root followLinks logs0 = (Ret t, logs1) ->
    copies_all t
      (diffTrees fnmatch [] join_s join_d flag t PyNone ps pd logs) logs.
Proof.
  intros fs fuel root followLinks logs0 t logs1
         fnmatch join_s join_d flag ps pd logs H.
  apply diffTrees_copies.
  exact (getFilesTree_self_first fuel root followLinks logs0 t logs1 H).
Qed.

Lemma X15_snapshot_first_synchronisation_witness :
  copies_all
    (PyDict [ (".", PyTuple 1577934240 1577934240);
              ("song.mp3", PyTuple 1577934300 1577934300) ])
    (diffTrees literal_fnmatch [] slash_join slash_join true
       (PyDict [ (".", PyTuple 1577934240 1577934240);
                 ("song.mp3", PyTuple 1577934300 1577934300) ])
       PyNone "/sdcard/Music" "Music" []) [].
Proof.
  exact (X15_snapshot_first_synchronisation sample_device 2%nat
           "/sdcard/Music" false []
           (PyDict [ (".", PyTuple 1577934240 1577934240);
                     ("song.mp3", PyTuple 1577934300 1577934300) ])
           [] literal_fnmatch slash_join slash_join true
           "/sdcard/Music" "Music" [] eq_refl).
Defined.

(** ** The Android backend *)

(** X16.  An Android directory whose listing has a line for a symbolic link
    cannot be snapshotted: whatever the fuel and whether links are followed
    or not, [_getFilesTree] gives no tree for it. *)
Theorem X16_android_directory_with_link :
  forall strptime_timestamp adbShell os_path_join os_path_normpath
         fuel root st followLinks logs line,
    S_ISDIR (st_mode st) = true ->
    In line (adbShell ["ls"; "-la"; escapePath root]) ->
    link_line line ->
    no_result
      (_getFilesTree
         (fs := AndroidFileSystem strptime_timestamp adbShell
                  os_path_join os_path_normpath)
         fuel root st followLinks logs).
Proof.
  intros strptime_timestamp adbShell os_path_join os_path_normpath
         fuel root st followLinks logs line Hd Hin Hl.
  assert (Hlnk : S_ISLNK (st_mode st) = false).
  { unfold S_ISDIR in Hd. unfold S_ISLNK. apply Z.eqb_eq in Hd.
    rewrite Hd. reflexivity. }
  pose proof (android_directory_with_link strptime_timestamp adbShell
                os_path_join os_path_normpath fuel root st followLinks logs
                line Hlnk Hd Hin Hl) as H.
  unfold no_result. destruct (fst _) as [t | e |]; [| exact I | exact I].
  exact (H t eq_refl).
Qed.

Lemma X16_android_directory_with_link_witness :
  no_result
    (_getFilesTree
       (fs := AndroidFileSystem sample_strptime sample_link_adbShell
                slash_join (fun path => path))
       1%nat "/"
       (mk_stat_result 16877 1 0 1 (-2) (-2) None
          (inject_Z 1577934240) (inject_Z 1577934240)
          (inject_Z 1577934240))
       false []).
Proof.
  exact (X16_android_directory_with_link sample_strptime
           sample_link_adbShell slash_join (fun path => path) 1%nat "/"
           (mk_stat_result 16877 1 0 1 (-2) (-2) None
              (inject_Z 1577934240) (inject_Z 1577934240)
              (inject_Z 1577934240))
           false [] sample_link_line eq_refl (or_introl eq_refl)
           (ex_intro _ _ eq_refl)).
Defined.

(** X17.  Whenever [lsToStat] returns a stat record for a line, the record
    is a directory exactly when the line starts with [d] and a regular file
    exactly when it starts with [-], and its permission bits are [0o755]
    whatever the mode string of the line says. *)
Theorem X17_lsToStat_mode :
  forall strptime_timestamp line logs name st logs',
    lsToStat strptime_timestamp line logs = (Ret (name, st), logs') ->
    exists c rest,
      line = String c rest
      /\ S_ISDIR (st_mode st) = Ascii.eqb c "d"
      /\ S_ISREG (st_mode st) = Ascii.eqb c "-"
      /\ Z.land (st_mode st) 4095 = 493.
Proof. exact lsToStat_mode. Qed.

Lemma X17_lsToStat_mode_witness :
  exists c rest,
    "-rw-rw---- 1 root sdcard_rw 1234 2020-01-02 03:05 song.mp3"
    = String c rest
    /\ S_ISDIR 33261 = Ascii.eqb c "d"
    /\ S_ISREG 33261 = Ascii.eqb c "-"
    /\ Z.land 33261 4095 = 493.
Proof.
  exact (X17_lsToStat_mode sample_strptime
           "-rw-rw---- 1 root sdcard_rw 1234 2020-01-02 03:05 song.mp3"
           [] (Some "song.mp3")
           (mk_stat_result 33261 1 0 1 (-2) (-2) (Some 1234)
              (inject_Z 1577934300) (inject_Z 1577934300)
              (inject_Z 1577934300))
           [] eq_refl).
Defined.

(** X18.  When the first line that [ls -lad] prints for the root ends in
    [": No such file or directory"] and has no line break before that,
    [getFilesTree] on the Android backend raises [FileNotFoundError] and
    logs nothing. *)
Theorem X18_android_missing_root :
  forall strptime_timestamp adbShell os_path_join os_path_normpath
         fuel root followLinks logs prefix more,
    adbShell ["ls"; "-lad"; escapePath root] =
    (prefix ++ ": No such file or directory") :: more ->
    one_line prefix = true ->
    getFilesTree
      (fs := AndroidFileSystem strptime_timestamp adbShell os_path_join
               os_path_normpath)
      fuel root followLinks logs
    = (Raise FileNotFoundError, logs).
Proof. exact android_missing_root. Qed.

Lemma X18_android_missing_root_witness :
  getFilesTree
    (fs := AndroidFileSystem sample_strptime sample_missing_adbShell
             slash_join (fun path => path))
    2%nat "/sdcard/Nothing" false []
  = (Raise FileNotFoundError, []).
Proof.
  exact (X18_android_missing_root sample_strptime sample_missing_adbShell
           slash_join (fun path => path) 2%nat "/sdcard/Nothing" false []
           "ls: /sdcard/Nothing" [] eq_refl eq_refl).
Defined.

(** X19.  [testConnection] returns [False] exactly when one of the lines
    that [self.adbShell] yields for the command [:] is
    ["adb: no devices/emulators found"]; any other line passes the test.
    [adbShell] yields the lines that [adb] writes, without the carriage
    returns and line feeds at their end, up to the first line that is then
    empty: the test fails exactly when [adb] writes the message before any
    such line, and a message after one is not seen. *)
Theorem X19_testConnection_no_device :
  (forall adbShell,
      testConnection adbShell =
      negb (existsb (String.eqb "adb: no devices/emulators found")
              (adbShell [":"])))
  /\ (forall popen adb_arguments,
        testConnection (Base_adbShell popen adb_arguments) = false <->
        exists before raw after,
          popen (adb_arguments ++ ["shell"; ":"])%list =
          (before ++ raw :: after)%list
          /\ Forall (fun l => rstrip CRLF l <> "") before
          /\ rstrip CRLF raw = "adb: no devices/emulators found")
  /\ testConnection (Base_adbShell sample_no_device_output ["adb"]) = false
  /\ testConnection (Base_adbShell sample_hidden_no_device_output ["adb"])
     = true.
Proof.
  split; [intros adbShell; apply testConnection_loop_spec |].
  split; [| split; reflexivity].
  intros popen adb_arguments. unfold testConnection.
  rewrite testConnection_loop_spec, negb_false_iff, existsb_exists.
  unfold Base_adbShell. cbn [app]. split.
  - intros (x & Hin & Heq). apply String.eqb_eq in Heq. subst x.
    apply adbShell_loop_In in Hin.
    destruct Hin as (before & raw & after & H & HF & Hraw & _).
    exists before, raw, after. repeat split; assumption.
  - intros (before & raw & after & H & HF & Hraw).
    exists "adb: no devices/emulators found". split; [| reflexivity].
    apply adbShell_loop_In. exists before, raw, after.
    repeat split; try assumption. discriminate.
Qed.

Lemma X19_testConnection_no_device_witness :
  testConnection (Base_adbShell sample_no_device_output ["adb"]) = false
  /\ exists before raw after,
       sample_no_device_output (["adb"] ++ ["shell"; ":"])%list =
       (before ++ raw :: after)%list
       /\ Forall (fun l => rstrip CRLF l <> "") before
       /\ rstrip CRLF raw = "adb: no devices/emulators found".
Proof.
  destruct X19_testConnection_no_device as (_ & Hiff & Hsample & _).
  split; [exact Hsample |].
  exact (proj1 (Hiff sample_no_device_output ["adb"]) Hsample).
Defined.

(** ** [removeTree] and [pushTreeHere] *)

(** X20.  A dry run of [removeTree] on a pruned tree returns, on every
    backend, with the state of the file system it was given, and logs
    records of level [INFO] only. *)
Theorem X20_removeTree_dry_run :
  forall (fs : FileSystem) (world : Type) (writer : FileSystemWriter world)
         root t (w : world) logs,
    pruned t = true ->
    dry w logs (removeTree root t true w logs).
Proof.
  intros fs world writer root t w logs H.
  apply removeTree_fuel_dry; [exact H | lia].
Qed.

Lemma X20_removeTree_dry_run_witness :
  pruned snapshot_destination = true
  /\ dry [] []
       (removeTree (fs := sample_device) (writer := recorder)
          "dst" snapshot_destination true [] []).
Proof.
  split; [reflexivity |].
  exact (X20_removeTree_dry_run sample_device (list call) recorder
           "dst" snapshot_destination [] [] eq_refl).
Defined.

(** X21.  A dry run of [pushTreeHere] on a pruned tree returns, on every
    backend, with the state of the file system it was given, and logs
    records of level [INFO] only. *)
Theorem X21_pushTreeHere_dry_run :
  forall (world : Type) (writer : FileSystemWriter world)
         join_s norm_s join_d norm_d root t destination (w : world) logs,
    pruned t = true ->
    dry w logs
      (pushTreeHere root t destination join_s norm_s join_d norm_d true
         w logs).
Proof.
  intros world writer join_s norm_s join_d norm_d root t destination w logs H.
  apply pushTreeHere_fuel_dry; [exact H | lia].
Qed.

Lemma X21_pushTreeHere_dry_run_witness :
  pruned snapshot_source = true
  /\ dry [] []
       (pushTreeHere (writer := recorder) "src" snapshot_source "dst"
          slash_join (fun path => path) slash_join (fun path => path)
          true [] []).
Proof.
  split; [reflexivity |].
  exact (X21_pushTreeHere_dry_run (list call) recorder
           slash_join (fun path => path) slash_join (fun path => path)
           "src" snapshot_source "dst" [] [] eq_refl).
Defined.

(** X22.  On a backend that records its calls, [removeTree] on a pruned
    tree, not as a dry run, returns, and the paths it unlinks are the files
    of the tree, each one once and in the order of the tree: the keys that
    lead to the file, joined to the root one after the other. *)
Theorem X22_removeTree_unlinks_files :
  forall (fs : FileSystem) root t w logs,
    pruned t = true ->
    exists calls logs',
      removeTree (writer := recorder) root t false w logs
      = (Ret (w ++ calls)%list, logs')
      /\ unlinked calls =
         map (fun f => path_under joinPaths normPath root (fst f)) (files t).
Proof.
  intros fs root t w logs H.
  destruct (removeTree_fuel_calls (S (tree_height t)) root t w logs H)
    as (calls & logs' & E & U & _); [lia |].
  exists calls, logs'. split; [exact E | exact U].
Qed.

Lemma X22_removeTree_unlinks_files_witness :
  pruned snapshot_destination = true
  /\ exists calls logs',
       removeTree (fs := sample_device) (writer := recorder)
         "dst" snapshot_destination false [] []
       = (Ret ([] ++ calls)%list, logs')
       /\ unlinked calls =
          map (fun f => path_under (joinPaths (FileSystem := sample_device))
                          (normPath (FileSystem := sample_device))
                          "dst" (fst f))
            (files snapshot_destination).
Proof.
  split; [reflexivity |].
  exact (X22_removeTree_unlinks_files sample_device "dst"
           snapshot_destination [] [] eq_refl).
Defined.

(** X23.  On a backend that records its calls, [removeTree] on a pruned
    directory that has its ["."] entry removes the directory last: the call
    of [rmdir] for the root comes after all the other calls. *)
Theorem X23_removeTree_folder_last :
  forall (fs : FileSystem) root items w logs,
    pruned (PyDict items) = true ->
    dict_mem "." items = true ->
    exists before logs',
      removeTree (writer := recorder) root (PyDict items) false w logs
      = (Ret (w ++ before ++ [Rmdir root])%list, logs').
Proof.
  intros fs root items w logs H Hm.
  destruct (removeTree_fuel_calls (S (tree_height (PyDict items))) root
              (PyDict items) w logs H)
    as (calls & logs' & E & _ & L); [lia |].
  destruct (L items eq_refl Hm) as [before ->].
  exists before, logs'. exact E.
Qed.

Lemma X23_removeTree_folder_last_witness :
  exists before logs',
    removeTree (fs := sample_device) (writer := recorder) "dst"
      snapshot_destination false [] []
    = (Ret ([] ++ before ++ [Rmdir "dst"])%list, logs').
Proof.
  exact (X23_removeTree_folder_last sample_device "dst"
           [ (".", PyTuple 60 60); ("a.txt", PyTuple 60 60);
             ("old.txt", PyTuple 60 60) ]
           [] [] eq_refl eq_refl).
Defined.

(** X24.  On a backend that records its calls, [pushTreeHere] on a pruned
    tree, not as a dry run, returns, and apart from the calls of [makedirs]
    its calls are, for each file of the tree in the order of the tree, one
    [pushFileHere] from the path under the source root to the path under
    the destination root, followed by one [utime] that gives the destination
    the times of the tree. *)
Theorem X24_pushTreeHere_copies_files :
  forall join_s norm_s join_d norm_d root t destination w logs,
    pruned t = true ->
    exists calls logs',
      pushTreeHere (writer := recorder) root t destination
        join_s norm_s join_d norm_d false w logs
      = (Ret (w ++ calls)%list, logs')
      /\ file_calls calls =
         flat_map (copy_calls join_s norm_s join_d norm_d root destination)
           (files t).
Proof.
  intros join_s norm_s join_d norm_d root t destination w logs H.
  destruct (pushTreeHere_fuel_calls join_s norm_s join_d norm_d
              (S (tree_height t)) root t destination w logs H)
    as (calls & logs' & E & U & _); [lia |].
  exists calls, logs'. split; [exact E | exact U].
Qed.

Lemma X24_pushTreeHere_copies_files_witness :
  pruned snapshot_source = true
  /\ exists calls logs',
       pushTreeHere (writer := recorder) "src" snapshot_source "dst"
         slash_join (fun path => path) slash_join (fun path => path)
         false [] []
       = (Ret ([] ++ calls)%list, logs')
       /\ file_calls calls =
          flat_map (copy_calls slash_join (fun path => path) slash_join
                      (fun path => path) "src" "dst")
            (files snapshot_source).
Proof.
  split; [reflexivity |].
  exact (X24_pushTreeHere_copies_files slash_join (fun path => path)
           slash_join (fun path => path) "src" snapshot_source "dst" [] []
           eq_refl).
Defined.

(** X25.  On a backend that records its calls, [pushTreeHere] on a pruned
    directory that has its ["."] entry makes the directory first: the call
    of [makedirs] for the destination root comes before all the other
    calls. *)
Theorem X25_pushTreeHere_folder_first :
  forall join_s norm_s join_d norm_d root items destination w logs,
    pruned (PyDict items) = true ->
    dict_mem "." items = true ->
    exists after logs',
      pushTreeHere (writer := recorder) root (PyDict items) destination
        join_s norm_s join_d norm_d false w logs
      = (Ret (w ++ Makedirs destination :: after)%list, logs').
Proof.
  intros join_s norm_s join_d norm_d root items destination w logs H Hm.
  destruct (pushTreeHere_fuel_calls join_s norm_s join_d norm_d
              (S (tree_height (PyDict items))) root (PyDict items)
              destination w logs H)
    as (calls & logs' & E & _ & L); [lia |].
  destruct (L items eq_refl Hm) as [after ->].
  exists after, logs'. exact E.
Qed.

Lemma X25_pushTreeHere_folder_first_witness :
  exists after logs',
    pushTreeHere (writer := recorder) "src" snapshot_source "dst"
      slash_join (fun path => path) slash_join (fun path => path)
      false [] []
    = (Ret ([] ++ Makedirs "dst" :: after)%list, logs').
Proof.
  exact (X25_pushTreeHere_folder_first slash_join (fun path => path)
           slash_join (fun path => path) "src"
           [ (".", PyTuple 60 60); ("a.txt", PyTuple 120 120);
             ("sub", PyDict [(".", PyTuple 60 60);
                             ("b.txt", PyTuple 180 180)]) ]
           "dst" [] [] eq_refl eq_refl).
Defined.

(** ** The plan of [main] *)

(** X27.  On two snapshots whose dicts all have their ["."] entry, the
    planning part of [main] returns a plan, or exits when neither
    [--dry-run] nor [--force] is given: [diffTrees] raises no [KeyError],
    and the unaccounted and the excluded tree it returns go together, so
    [removeExludedFoldersFromUnaccountedTree] raises no [AttributeError] on
    them. *)
Theorem X27_main_plan_returns :
  forall fnmatch join_s join_d args source destination ps pd patterns logs,
    has_self_entries source = true ->
    has_self_entries destination = true ->
    returns_or_exits (negb (dryRun args) && negb (force args))
      (main_plan fnmatch join_s join_d args source destination ps pd
         patterns logs).
Proof.
  intros fnmatch join_s join_d args source destination ps pd patterns logs.
  apply main_plan_returns.
Qed.

Lemma X27_main_plan_returns_witness :
  returns_or_exits true
    (main_plan literal_fnmatch slash_join slash_join default_args
       snapshot_source snapshot_destination "src" "dst" ["dst/sub"] []).
Proof.
  exact (X27_main_plan_returns literal_fnmatch slash_join slash_join
           default_args snapshot_source snapshot_destination "src" "dst"
           ["dst/sub"] [] eq_refl eq_refl).
Defined.

(** X28.  The plan that [main] computes holds entries of the two snapshots
    only: every pair of times in the trees to copy and of excluded source
    items is in the source snapshot under the same keys, and every pair of
    times in the tree to delete, in the two unaccounted trees and in the
    tree of excluded destination items is in the destination snapshot under
    the same keys. *)
Theorem X28_main_plan_from_snapshots :
  forall fnmatch join_s join_d args source destination ps pd patterns logs
         p logs',
    main_plan fnmatch join_s join_d args source destination ps pd patterns
      logs = (Ret p, logs') ->
    plan_from_snapshots source destination p.
Proof.
  intros fnmatch join_s join_d args source destination ps pd patterns logs
         p logs'.
  apply main_plan_within.
Qed.

Lemma X28_main_plan_from_snapshots_witness :
  plan_from_snapshots snapshot_source snapshot_destination
    (mkPlan
       (PyDict [("a.txt", PyTuple 60 60)])
       (PyDict [ ("a.txt", PyTuple 120 120);
                 ("sub", PyDict [ (".", PyTuple 60 60);
                                  ("b.txt", PyTuple 180 180) ]) ])
       PyNone
       (PyDict [("old.txt", PyTuple 60 60)])
       PyNone
       (PyDict [("old.txt", PyTuple 60 60)])).
Proof.
  exact (X28_main_plan_from_snapshots literal_fnmatch slash_join slash_join
           default_args snapshot_source snapshot_destination "src" "dst"
           [] [] _ [] eq_refl).
Defined.

(** ** [diffTrees] on files and their times *)

(** X26.  A file whose raw modification time is not after that of its
    destination copy is neither copied nor deleted, whatever the patterns and
    the flag: the two snapshots hold bucketed times, bucketing keeps the
    order, and the comparison of [diffTrees] is strict. *)
Theorem X26_not_newer_not_copied :
  forall fnmatch patterns join_s join_d flag (s d : stat_result) ps pd logs,
    (st_mtime s <= st_mtime d)%Q ->
    exists r,
      diffTrees fnmatch patterns join_s join_d flag
        (bucketed_times s) (bucketed_times d) ps pd logs
      = (Ret (r, bucketed_times s, bucketed_times d), logs)
      /\ copy r = PyNone
      /\ delete r = PyNone.
Proof.
  intros fnmatch patterns join_s join_d flag s d ps pd logs H.
  unfold bucketed_times. rewrite diff_file_file.
  eexists. split; [reflexivity |].
  destruct (excluded fnmatch patterns pd); [split; reflexivity |].
  apply bucket_le in H.
  destruct (Z.ltb_spec (bucket (st_mtime d)) (bucket (st_mtime s)));
    [lia | split; reflexivity].
Qed.

Lemma X26_not_newer_not_copied_witness :
  exists r,
    diffTrees literal_fnmatch [] slash_join slash_join true
      (PyTuple 120 120) (PyTuple 120 120) "src/a.txt" "dst/a.txt" []
    = (Ret (r, PyTuple 120 120, PyTuple 120 120), [])
    /\ copy r = PyNone
    /\ delete r = PyNone.
Proof.
  refine (X26_not_newer_not_copied literal_fnmatch [] slash_join slash_join
            true
            (mk_stat_result 33188 1 0 1 0 0 (Some 5) (inject_Z 125)
               (inject_Z 125) (inject_Z 125))
            (mk_stat_result 33188 1 0 1 0 0 (Some 5) (inject_Z 170)
               (inject_Z 170) (inject_Z 170))
            "src/a.txt" "dst/a.txt" [] _).
  unfold Qle. simpl. lia.
Defined.

(** X29.  [diffTrees] forgets nothing: when a call on two trees whose dicts
    all have their ["."] entry returns, every file of the source is in the
    tree to copy or in the tree of excluded source items, under the same
    keys and with the same times, or else the destination has a file under
    the same keys whose modification time is not older. *)
Theorem X29_diffTrees_accounts_for :
  forall fnmatch patterns join_s join_d flag source destination ps pd logs
         d source' destination' logs',
    diffTrees fnmatch patterns join_s join_d flag
      source destination ps pd logs
    = (Ret (d, source', destination'), logs') ->
    has_self_entries source = true ->
    has_self_entries destination = true ->
    accounts_for source destination d.
Proof.
  intros fnmatch patterns join_s join_d flag source destination ps pd logs
         d source' destination' logs' H.
  exact (diffTrees_fuel_accounts_for fnmatch patterns join_s join_d flag
           _ _ _ _ _ _ _ _ _ _ H).
Qed.

Lemma X29_diffTrees_accounts_for_witness :
  accounts_for snapshot_source snapshot_destination
    (mkDiff
       (PyDict [ (".", PyNone); ("a.txt", PyTuple 60 60); ("sub", PyNone);
                 ("old.txt", PyNone) ])
       (PyDict [ (".", PyNone); ("a.txt", PyTuple 120 120);
                 ("sub", PyDict [ (".", PyTuple 60 60);
                                  ("b.txt", PyTuple 180 180) ]) ])
       (PyDict [ (".", PyNone); ("a.txt", PyNone);
                 ("sub", PyDict [(".", PyNone); ("b.txt", PyNone)]) ])
       (PyDict [ (".", PyNone); ("a.txt", PyNone); ("sub", PyNone);
                 ("old.txt", PyTuple 60 60) ])
       (PyDict [ (".", PyNone); ("a.txt", PyNone); ("sub", PyNone);
                 ("old.txt", PyNone) ])).
Proof.
  exact (X29_diffTrees_accounts_for literal_fnmatch [] slash_join
           slash_join false snapshot_source snapshot_destination
           "src" "dst" [] _ _ _ [] eq_refl eq_refl eq_refl).
Defined.

(** X30.  With no exclude pattern [diffTrees] settles every file of the
    destination: when a call on two trees whose dicts all have their ["."]
    entry returns, every file of the destination is in the tree to delete or
    in the unaccounted tree, under the same keys and with the same times, or
    else the source has a file under the same keys whose modification time
    is not newer. *)
Theorem X30_diffTrees_settles_destination :
  forall fnmatch join_s join_d flag source destination ps pd logs
         d source' destination' logs',
    diffTrees fnmatch [] join_s join_d flag source destination ps pd logs
    = (Ret (d, source', destination'), logs') ->
    has_self_entries source = true ->
    has_self_entries destination = true ->
    settles source destination d.
Proof.
  intros fnmatch join_s join_d flag source destination ps pd logs
         d source' destination' logs' H.
  exact (diffTrees_fuel_settles fnmatch join_s join_d flag
           _ _ _ _ _ _ _ _ _ _ H).
Qed.

Lemma X30_diffTrees_settles_destination_witness :
  settles snapshot_source snapshot_destination
    (mkDiff
       (PyDict [ (".", PyNone); ("a.txt", PyTuple 60 60); ("sub", PyNone);
                 ("old.txt", PyNone) ])
       (PyDict [ (".", PyNone); ("a.txt", PyTuple 120 120);
                 ("sub", PyDict [ (".", PyTuple 60 60);
                                  ("b.txt", PyTuple 180 180) ]) ])
       (PyDict [ (".", PyNone); ("a.txt", PyNone);
                 ("sub", PyDict [(".", PyNone); ("b.txt", PyNone)]) ])
       (PyDict [ (".", PyNone); ("a.txt", PyNone); ("sub", PyNone);
                 ("old.txt", PyTuple 60 60) ])
       (PyDict [ (".", PyNone); ("a.txt", PyNone); ("sub", PyNone);
                 ("old.txt", PyNone) ])).
Proof.
  exact (X30_diffTrees_settles_destination literal_fnmatch slash_join
           slash_join false snapshot_source snapshot_destination
           "src" "dst" [] _ _ _ [] eq_refl eq_refl eq_refl).
Defined.
